(** * MindlessGen: the generation driver and its cycle workers

    A shallow embedding of [src/mindlessgen/generator/main.py] (the functions
    [generator], [single_molecule_generator] and [setup_engines]) together
    with the charge assignment exercised by
    [test/test_molecules/test_miscellaneous.py].

    Python integers are [Z]; [range n] is the list [0; ...; n-1].  Printing,
    warnings, the shared [stop_event], the engine set-up and the worker pool
    are effects: a cycle worker is a finite tree of actions ([Prog]) that is
    run either alone ([run]) or interleaved with its siblings ([run_pool]);
    the coordinator is written in a state-and-exception monad ([M]) whose
    state holds the mutable configuration object and the log of everything
    observable. *)

From Stdlib Require Import ZArith List String Bool Lia DecimalString PeanoNat.
Import ListNotations.

Open Scope string_scope.
Open Scope list_scope.
Open Scope Z_scope.

(** ** Python values used by the driver *)

(** [str(n)] for an integer. *)
Definition string_of_Z (z : Z) : string :=
  NilZero.string_of_int (Z.to_int z).

(** [range(n)]: empty when [n <= 0]. *)
Definition range (n : Z) : list Z :=
  map Z.of_nat (seq 0 (Z.to_nat n)).

(** The exceptions the driver raises or handles.  [NotImplementedError] is a
    subclass of [RuntimeError] in Python, so [except RuntimeError] catches
    both; [OtherException] stands for every class outside these. *)
Inductive Exn : Type :=
| RuntimeError (msg : string)
| NotImplementedError (msg : string)
| ImportError (msg : string)
| OtherException (cls msg : string).

Definition is_RuntimeError (e : Exn) : bool :=
  match e with
  | RuntimeError _ | NotImplementedError _ => true
  | ImportError _ | OtherException _ _ => false
  end.

Definition is_ImportError (e : Exn) : bool :=
  match e with
  | ImportError _ => true
  | _ => false
  end.

(** The outcome of a call: a value, or a raised exception. *)
Inductive Result (A : Type) : Type :=
| Ok (a : A)
| Raised (e : Exn).
Arguments Ok {A} a.
Arguments Raised {A} e.

(** [QMMethod]: the two engines [setup_engines] can build. *)
Inductive QMMethod : Type :=
| XTB (path : string)
| ORCA (path : string).

(** ** The configuration object *)

Record GeneralConfig : Type := mkGeneral {
  verbosity : Z;
  print_config : bool;
  postprocess : bool;
  parallel : Z;
  num_molecules : Z;
  max_cycles : Z
}.

Record RefineConfig : Type := mkRefine { refine_engine : string }.
Record PostProcessConfig : Type := mkPostProcess { postprocess_engine : string }.
Record XTBConfig : Type := mkXTBConfig { xtb_path : string }.
Record ORCAConfig : Type := mkORCAConfig { orca_path : string }.

Definition set_verbosity (g : GeneralConfig) (v : Z) : GeneralConfig :=
  mkGeneral v (print_config g) (postprocess g) (parallel g)
            (num_molecules g) (max_cycles g).

Declare Scope prog_scope.
Declare Scope driver_scope.

(** A line break inside a printed text. *)
Definition nl : string := String (Ascii.ascii_of_nat 10) EmptyString.

Section Model.

(** [Molecule] and the generation settings are declared outside the driver;
    the driver only passes them around. *)
Context {Molecule GenerateConfig : Type}.

Record ConfigManager : Type := mkConfig {
  general : GeneralConfig;
  generate : GenerateConfig;
  refine : RefineConfig;
  postprocess_cfg : PostProcessConfig;
  xtb : XTBConfig;
  orca : ORCAConfig
}.

(** [config.general.verbosity = v]: the one assignment the driver makes. *)
Definition assign_verbosity (c : ConfigManager) (v : Z) : ConfigManager :=
  mkConfig (set_verbosity (general c) v) (generate c) (refine c)
           (postprocess_cfg c) (xtb c) (orca c).

(** What [print] is called with. *)
Inductive Output : Type :=
| OText (s : string)
| OInline (s : string)                 (* print(s, end="", flush=True) *)
| OHeader (version : string)
| OConfig (c : ConfigManager)
| OMolecule (m : Molecule)
| OException (e : Exn).

(** ** Cycle workers *)

(** The collaborators of a worker.  They are random, slow and may fail, so a
    worker gets its own answers; each is called at most once per worker. *)
Record Externals : Type := mkExternals {
  generate_random_molecule : GenerateConfig -> Z -> Result Molecule;
  iterative_optimization :
    Molecule -> QMMethod -> GenerateConfig -> RefineConfig -> Z -> Result Molecule;
  postprocess_mol :
    Molecule -> option QMMethod -> PostProcessConfig -> Z -> Result Molecule
}.

(** A worker as a tree of actions: each node is one call that another
    process can observe or interleave with. *)
Inductive Prog (R : Type) : Type :=
| Return (r : R)
| Raise (e : Exn)
| EventIsSet (k : bool -> Prog R)
| EventSet (k : Prog R)
| PrintOut (o : Output) (k : Prog R)
| CallGenerate (gc : GenerateConfig) (v : Z) (k : Result Molecule -> Prog R)
| CallOptimize (mol : Molecule) (engine : QMMethod) (gc : GenerateConfig)
               (rc : RefineConfig) (v : Z) (k : Result Molecule -> Prog R)
| CallPostprocess (mol : Molecule) (engine : option QMMethod)
                  (pc : PostProcessConfig) (v : Z)
                  (k : Result Molecule -> Prog R).
Arguments Return {R} r.
Arguments Raise {R} e.
Arguments EventIsSet {R} k.
Arguments EventSet {R} k.
Arguments PrintOut {R} o k.
Arguments CallGenerate {R} gc v k.
Arguments CallOptimize {R} mol engine gc rc v k.
Arguments CallPostprocess {R} mol engine pc v k.

Fixpoint bind {A B : Type} (p : Prog A) (f : A -> Prog B) : Prog B :=
  match p with
  | Return a => f a
  | Raise e => Raise e
  | EventIsSet k => EventIsSet (fun b => bind (k b) f)
  | EventSet k => EventSet (bind k f)
  | PrintOut o k => PrintOut o (bind k f)
  | CallGenerate gc v k => CallGenerate gc v (fun r => bind (k r) f)
  | CallOptimize m e gc rc v k => CallOptimize m e gc rc v (fun r => bind (k r) f)
  | CallPostprocess m e pc v k => CallPostprocess m e pc v (fun r => bind (k r) f)
  end.

Notation "x <- p ;; q" := (bind p (fun x => q))
  (at level 61, p at next level, right associativity) : prog_scope.
Notation "p ;;; q" := (bind p (fun _ => q))
  (at level 61, right associativity) : prog_scope.
Local Open Scope prog_scope.

Definition stop_event_is_set : Prog bool := EventIsSet (fun b => Return b).
Definition stop_event_set : Prog unit := EventSet (Return tt).
Definition print (o : Output) : Prog unit := PrintOut o (Return tt).
Definition pass : Prog unit := Return tt.

(** A call that lets its exception propagate. *)
Definition propagate {A : Type} (r : Result A) : Prog A :=
  match r with
  | Ok a => Return a
  | Raised e => Raise e
  end.

(** The body of [except RuntimeError as e:] in both handlers. *)
Definition report_failure (what : string) (v cycle : Z) (e : Exn) : Prog unit :=
  if v >? 0 then
    print (OText (what ++ " failed for cycle " ++ string_of_Z (cycle + 1) ++ ".")%string) ;;;
    (if v >? 1 then print (OException e) else pass)
  else pass.

(** Lines 186-192: the last check of the event, and the result. *)
Definition claim_success (v : Z) (optimized_molecule : Molecule)
  : Prog (option Molecule) :=
  stopped <- stop_event_is_set ;;
  if negb stopped then
    stop_event_set ;;;
    (if v >? 1
     then print (OText "Postprocessing successful. Optimized molecule:")
     else pass) ;;;
    Return (Some optimized_molecule)
  else Return None.

Definition single_molecule_generator
    (config : ConfigManager) (refine_engine : QMMethod)
    (postprocess_engine : option QMMethod) (cycle : Z)
  : Prog (option Molecule) :=
  let v := verbosity (general config) in
  stopped <- stop_event_is_set ;;
  if stopped then Return None
  else
    (if v =? 0 then print (OInline "✔")
     else if v >? 0 then print (OText ("Cycle " ++ string_of_Z (cycle + 1) ++ ":")%string)
     else pass) ;;;
    mol <- CallGenerate (generate config) v propagate ;;
    CallOptimize mol refine_engine (generate config) (refine config) v
      (fun r =>
         match r with
         | Raised e =>
             if is_RuntimeError e
             then report_failure "Refinement" v cycle e ;;; Return None
             else Raise e
         | Ok optimized_molecule =>
             if postprocess (general config) then
               CallPostprocess optimized_molecule postprocess_engine
                 (postprocess_cfg config) v
                 (fun r' =>
                    match r' with
                    | Raised e =>
                        if is_RuntimeError e
                        then report_failure "Postprocessing" v cycle e ;;;
                             Return None
                        else Raise e
                    | Ok optimized_molecule' => claim_success v optimized_molecule'
                    end)
             else claim_success v optimized_molecule
         end).

(** *** Running one worker *)

(** What a run leaves behind, in order. *)
Inductive Event : Type :=
| EvIsSet (answer : bool)
| EvSet
| EvPrint (o : Output)
| EvGenerate
| EvOptimize (mol : Molecule)
| EvPostprocess (mol : Molecule).

(** The shared flag and the log. *)
Record World : Type := mkWorld {
  stop_event : bool;
  log : list Event
}.

Definition record (w : World) (e : Event) : World :=
  mkWorld (stop_event w) (log w ++ [e]).

(** One action of a worker; a finished worker does not move. *)
Definition step {R : Type} (ext : Externals) (p : Prog R) (w : World)
  : Prog R * World :=
  match p with
  | Return r => (Return r, w)
  | Raise e => (Raise e, w)
  | EventIsSet k => (k (stop_event w), record w (EvIsSet (stop_event w)))
  | EventSet k => (k, mkWorld true (log w ++ [EvSet]))
  | PrintOut o k => (k, record w (EvPrint o))
  | CallGenerate gc v k =>
      (k (generate_random_molecule ext gc v), record w EvGenerate)
  | CallOptimize m e gc rc v k =>
      (k (iterative_optimization ext m e gc rc v), record w (EvOptimize m))
  | CallPostprocess m e pc v k =>
      (k (postprocess_mol ext m e pc v), record w (EvPostprocess m))
  end.

(** A worker run to its end without interruption. *)
Fixpoint run {R : Type} (ext : Externals) (p : Prog R) (w : World)
  : Result R * World :=
  match p with
  | Return r => (Ok r, w)
  | Raise e => (Raised e, w)
  | EventIsSet k => run ext (k (stop_event w)) (record w (EvIsSet (stop_event w)))
  | EventSet k => run ext k (mkWorld true (log w ++ [EvSet]))
  | PrintOut o k => run ext k (record w (EvPrint o))
  | CallGenerate gc v k =>
      run ext (k (generate_random_molecule ext gc v)) (record w EvGenerate)
  | CallOptimize m e gc rc v k =>
      run ext (k (iterative_optimization ext m e gc rc v)) (record w (EvOptimize m))
  | CallPostprocess m e pc v k =>
      run ext (k (postprocess_mol ext m e pc v)) (record w (EvPostprocess m))
  end.

Definition finished {R : Type} (p : Prog R) : bool :=
  match p with
  | Return _ | Raise _ => true
  | _ => false
  end.

Definition outcome {R : Type} (p : Prog R) : option (Result R) :=
  match p with
  | Return r => Some (Ok r)
  | Raise e => Some (Raised e)
  | _ => None
  end.

(** *** A batch of workers in a bounded pool *)

(** A task of the batch: whether a pool process has picked it up, and what is
    left of it. *)
Definition Slot (R : Type) : Type := (bool * Prog R)%type.

Record PoolState (R : Type) : Type := mkPool {
  slots : list (Slot R);
  shared : World;
  finish_order : list nat
}.
Arguments mkPool {R} slots shared finish_order.
Arguments slots {R} p.
Arguments shared {R} p.
Arguments finish_order {R} p.

Definition busy {R : Type} (s : Slot R) : bool :=
  fst s && negb (finished (snd s)).

(** Tasks picked up and not yet finished: at most the pool's degree. *)
Definition in_flight {R : Type} (ss : list (Slot R)) : nat :=
  List.length (filter busy ss).

Fixpoint update_nth {A : Type} (i : nat) (a : A) (l : list A) : list A :=
  match l, i with
  | [], _ => []
  | _ :: t, O => a :: t
  | h :: t, S j => h :: update_nth j a t
  end.

(** Worker [i] performs its next action, if it runs already or a process of
    the pool is free to pick it up. *)
Definition pool_step {R : Type} (processes : nat) (exts : nat -> Externals)
    (i : nat) (st : PoolState R) : PoolState R :=
  match nth_error (slots st) i with
  | None => st
  | Some (started, p) =>
      if finished p then st
      else if started || (in_flight (slots st) <? processes)%nat then
        let '(p', w') := step (exts i) p (shared st) in
        mkPool (update_nth i (true, p') (slots st)) w'
               (if finished p' then finish_order st ++ [i] else finish_order st)
      else st
  end.

Definition run_schedule {R : Type} (processes : nat) (exts : nat -> Externals)
    (sched : list nat) (st : PoolState R) : PoolState R :=
  fold_left (fun s i => pool_step processes exts i s) sched st.

(** When the schedule is used up the workers in flight run to their end, in
    index order ... *)
Fixpoint drain_started {R : Type} (exts : nat -> Externals) (i : nat)
    (ss : list (Slot R)) (w : World) (fo : list nat)
  : list (Slot R) * World * list nat :=
  match ss with
  | [] => ([], w, fo)
  | (started, p) :: rest =>
      if started && negb (finished p) then
        let '(r, w1) := run (exts i) p w in
        let '(rest', w', fo') := drain_started exts (S i) rest w1 (fo ++ [i]) in
        ((true, propagate r) :: rest', w', fo')
      else
        let '(rest', w', fo') := drain_started exts (S i) rest w fo in
        ((started, p) :: rest', w', fo')
  end.

(** ... and then the tasks nobody picked up, one after the other.  The
    results come back in task order, whatever the order of completion. *)
Fixpoint complete {R : Type} (exts : nat -> Externals) (i : nat)
    (ss : list (Slot R)) (w : World) (fo : list nat)
  : list (Result R) * World * list nat :=
  match ss with
  | [] => ([], w, fo)
  | (_, p) :: rest =>
      let '(r, w1) := run (exts i) p w in
      let fo1 := if finished p then fo else fo ++ [i] in
      let '(rs, w', fo') := complete exts (S i) rest w1 fo1 in
      (r :: rs, w', fo')
  end.

Definition run_pool {R : Type} (processes : nat) (exts : nat -> Externals)
    (sched : list nat) (tasks : list (Prog R))
  : list (Result R) * World * list nat :=
  let st := run_schedule processes exts sched
              (mkPool (map (fun p => (false, p)) tasks) (mkWorld false []) []) in
  let '(ss, w, fo) := drain_started exts 0 (slots st) (shared st) (finish_order st) in
  complete exts 0 ss w fo.

Local Close Scope prog_scope.

(** ** The coordinator *)

(** [warnings.warn] is called with one of two messages. *)
Inductive Warning : Type :=
| CoresClamped (requested available used : Z)
| VerbosityDisabled.

Definition warning_text (w : Warning) : string :=
  match w with
  | CoresClamped requested available used =>
      ("Number of cores requested (" ++ string_of_Z requested
       ++ ") is greater than the number of available cores ("
       ++ string_of_Z available ++ ")."
       ++ "Using " ++ string_of_Z used ++ " cores instead.")%string
  | VerbosityDisabled =>
      ("Parallelization will disable verbosity during iterative search. "
       ++ "Set '--verbosity 0' or '-P 1' to avoid this warning, or simply ignore it.")%string
  end.

(** One tuple of the list handed to [pool.starmap]. *)
Definition Task : Type :=
  (ConfigManager * QMMethod * option QMMethod * Z)%type.

(** Everything the coordinator does that can be seen from outside. *)
Inductive Trace : Type :=
| TPrint (o : Output)
| TWarn (w : Warning)
| TSetup (engine_type : string)
| TPool (processes : Z) (tasks : list Task).

(** What the coordinator runs on.  [starmap] answers the batch of target
    [molcount]; it stands for the pool, the fresh [stop_event] and the
    workers, and fails when a worker lets an exception escape. *)
Record Platform : Type := mkPlatform {
  cpu_count : Z;
  get_xtb_path : string -> Result (option string);
  get_orca_path : string -> Result (option string);
  starmap : Z -> Z -> list Task -> Result (list (option Molecule))
}.

(** The state: the configuration object, which Python passes by reference,
    and the trace so far. *)
Record Driver : Type := mkDriver {
  config : ConfigManager;
  trace : list Trace
}.

Definition M (A : Type) : Type := Driver -> Result A * Driver.

Definition ret {A : Type} (a : A) : M A := fun s => (Ok a, s).
Definition raise {A : Type} (e : Exn) : M A := fun s => (Raised e, s).
Definition mbind {A B : Type} (m : M A) (f : A -> M B) : M B :=
  fun s =>
    match m s with
    | (Ok a, s') => f a s'
    | (Raised e, s') => (Raised e, s')
    end.

Notation "x <- p ;; q" := (mbind p (fun x => q))
  (at level 61, p at next level, right associativity) : driver_scope.
Notation "p ;;; q" := (mbind p (fun _ => q))
  (at level 61, right associativity) : driver_scope.
Local Open Scope driver_scope.

Definition get_config : M ConfigManager := fun s => (Ok (config s), s).
Definition set_config (c : ConfigManager) : M unit :=
  fun s => (Ok tt, mkDriver c (trace s)).
Definition emit (t : Trace) : M unit :=
  fun s => (Ok tt, mkDriver (config s) (trace s ++ [t])).
Definition lift {A : Type} (r : Result A) : M A := fun s => (r, s).
Definition when (b : bool) (m : M unit) : M unit := if b then m else ret tt.

Definition falsy (path : option string) : bool :=
  match path with
  | None => true
  | Some EmptyString => true
  | Some _ => false
  end.

(** [setup_engines]: any [ImportError] of the path look-up, and an empty
    answer, become [ImportError("... not found.")]; an unknown engine name is
    a [NotImplementedError]. *)
Definition setup_engines (engine_type : string) (engine_config : ConfigManager)
    (xtb_path_func orca_path_func : string -> Result (option string))
  : Result QMMethod :=
  if (engine_type =? "xtb")%string then
    match xtb_path_func (xtb_path (xtb engine_config)) with
    | Ok (Some path) =>
        if falsy (Some path) then Raised (ImportError "xtb not found.")
        else Ok (XTB path)
    | Ok None => Raised (ImportError "xtb not found.")
    | Raised e =>
        if is_ImportError e then Raised (ImportError "xtb not found.")
        else Raised e
    end
  else if (engine_type =? "orca")%string then
    match orca_path_func (orca_path (orca engine_config)) with
    | Ok (Some path) =>
        if falsy (Some path) then Raised (ImportError "orca not found.")
        else Ok (ORCA path)
    | Ok None => Raised (ImportError "orca not found.")
    | Raised e =>
        if is_ImportError e then Raised (ImportError "orca not found.")
        else Raised e
    end
  else Raised (NotImplementedError "Engine not implemented.").

(** Lines 101-107: the first result that is not [None], and its 1-based
    position. *)
Fixpoint first_success_from (i : Z) (results : list (option Molecule))
  : option (Z * Molecule) :=
  match results with
  | [] => None
  | Some result :: _ => Some (i + 1, result)
  | None :: rest => first_success_from (i + 1) rest
  end.

Definition first_success (results : list (option Molecule))
  : option (Z * Molecule) :=
  first_success_from 0 results.

Definition exhausted_message (molcount : Z) : string :=
  ("Molecule generation including optimization (and postprocessing) failed for all cycles for molecule "
   ++ string_of_Z (molcount + 1) ++ ".")%string.

(** The body of [for molcount in range(config.general.num_molecules)]. *)
Definition generate_target (pf : Platform) (num_cores : Z)
    (refine_engine : QMMethod) (postprocess_engine : option QMMethod)
    (molcount : Z) : M Molecule :=
  c <- get_config ;;
  let cycles := range (max_cycles (general c)) in
  backup_verbosity <-
    (if (num_cores >? 1) && (verbosity (general c) >? 0) then
       set_config (assign_verbosity c 0) ;;;
       ret (Some (verbosity (general c)))
     else ret None) ;;
  c <- get_config ;;
  when (verbosity (general c) =? 0) (emit (TPrint (OInline "Cycle... "))) ;;;
  let tasks :=
    map (fun cycle => (c, refine_engine, postprocess_engine, cycle)) cycles in
  emit (TPool num_cores tasks) ;;;
  results <- lift (starmap pf molcount num_cores tasks) ;;
  c <- get_config ;;
  when (verbosity (general c) =? 0) (emit (TPrint (OText ""))) ;;;
  match backup_verbosity with
  | Some v => c <- get_config ;; set_config (assign_verbosity c v)
  | None => ret tt
  end ;;;
  match first_success results with
  | None => raise (RuntimeError (exhausted_message molcount))
  | Some (cycles_needed, optimized_molecule) =>
      c <- get_config ;;
      when (verbosity (general c) >? 0)
        (emit (TPrint (OText (nl ++ "Optimized mindless molecule found in "
                              ++ string_of_Z cycles_needed ++ " cycles.")%string)) ;;;
         emit (TPrint (OMolecule optimized_molecule))) ;;;
      ret optimized_molecule
  end.

Fixpoint generate_targets (pf : Platform) (num_cores : Z)
    (refine_engine : QMMethod) (postprocess_engine : option QMMethod)
    (targets : list Z) (optimized_molecules : list Molecule)
  : M (list Molecule) :=
  match targets with
  | [] => ret optimized_molecules
  | molcount :: rest =>
      optimized_molecule <-
        generate_target pf num_cores refine_engine postprocess_engine molcount ;;
      generate_targets pf num_cores refine_engine postprocess_engine rest
        (optimized_molecules ++ [optimized_molecule])
  end.

Definition setup (pf : Platform) (engine_type : string) : M QMMethod :=
  c <- get_config ;;
  emit (TSetup engine_type) ;;;
  lift (setup_engines engine_type c (get_xtb_path pf) (get_orca_path pf)).

Definition generator (version : string) (pf : Platform)
  : M (option (list Molecule) * Z) :=
  c <- get_config ;;
  when (verbosity (general c) >? 0) (emit (TPrint (OHeader version))) ;;;
  if print_config (general c) then
    emit (TPrint (OConfig c)) ;;;
    ret (None, 0)
  else
    refine_engine <- setup pf (refine_engine (refine c)) ;;
    postprocess_engine <-
      (if postprocess (general c) then
         e <- setup pf (postprocess_engine (postprocess_cfg c)) ;;
         ret (Some e)
       else ret None) ;;
    when (verbosity (general c) >? 0) (emit (TPrint (OConfig c))) ;;;
    let num_cores := Z.min (cpu_count pf) (parallel (general c)) in
    when (parallel (general c) >? cpu_count pf)
      (emit (TWarn (CoresClamped (parallel (general c)) (cpu_count pf) num_cores))) ;;;
    when (verbosity (general c) >? 0)
      (emit (TPrint (OText ("Running with " ++ string_of_Z num_cores ++ " cores.")%string))) ;;;
    when ((num_cores >? 1) && (verbosity (general c) >? 0))
      (emit (TWarn VerbosityDisabled)) ;;;
    optimized_molecules <-
      generate_targets pf num_cores refine_engine postprocess_engine
        (range (num_molecules (general c))) [] ;;
    ret (Some optimized_molecules, 0).

Local Close Scope driver_scope.

(** *** The pool behind [starmap] *)

Definition worker_of_task (t : Task) : Prog (option Molecule) :=
  let '(c, refine_engine, postprocess_engine, cycle) := t in
  single_molecule_generator c refine_engine postprocess_engine cycle.

Fixpoint gather {R : Type} (rs : list (Result R)) : Result (list R) :=
  match rs with
  | [] => Ok []
  | Ok v :: rest =>
      match gather rest with
      | Ok vs => Ok (v :: vs)
      | Raised e => Raised e
      end
  | Raised e :: _ => Raised e
  end.

Fixpoint first_raised {R : Type} (rs : list (Result R)) (fo : list nat)
  : option Exn :=
  match fo with
  | [] => None
  | i :: rest =>
      match nth_error rs i with
      | Some (Raised e) => Some e
      | _ => first_raised rs rest
      end
  end.

(** [with mp.Pool(processes) as pool: pool.starmap(...)] on a fresh event:
    the results in task order, or the exception of the worker that failed
    first.  [mp.Pool] refuses fewer than one process. *)
Definition pool_starmap (exts : nat -> Externals) (sched : list nat)
    (processes : Z) (tasks : list Task) : Result (list (option Molecule)) :=
  if processes <? 1 then
    Raised (OtherException "ValueError" "Number of processes must be at least 1")
  else
    let '(rs, _, fo) :=
      run_pool (Z.to_nat processes) exts sched (map worker_of_task tasks) in
    match gather rs with
    | Ok vs => Ok vs
    | Raised e0 =>
        Raised (match first_raised rs fo with Some e => e | None => e0 end)
    end.

(** A platform whose batches are run by the pool above: target [molcount]
    gets the collaborators [exts molcount] and the interleaving
    [sched molcount]. *)
Definition scheduled_platform (cpus : Z)
    (xtb_path_func orca_path_func : string -> Result (option string))
    (exts : Z -> nat -> Externals) (sched : Z -> list nat) : Platform :=
  mkPlatform cpus xtb_path_func orca_path_func
    (fun molcount processes tasks =>
       pool_starmap (exts molcount) (sched molcount) processes tasks).

End Model.

Arguments Return {Molecule GenerateConfig R} r.
Arguments Raise {Molecule GenerateConfig R} e.
Arguments EventIsSet {Molecule GenerateConfig R} k.
Arguments EventSet {Molecule GenerateConfig R} k.
Arguments PrintOut {Molecule GenerateConfig R} o k.
Arguments CallGenerate {Molecule GenerateConfig R} gc v k.
Arguments CallOptimize {Molecule GenerateConfig R} mol engine gc rc v k.
Arguments CallPostprocess {Molecule GenerateConfig R} mol engine pc v k.
Arguments mkPool {Molecule GenerateConfig R} slots shared finish_order.
Arguments slots {Molecule GenerateConfig R} p.
Arguments shared {Molecule GenerateConfig R} p.
Arguments finish_order {Molecule GenerateConfig R} p.
Arguments ConfigManager : clear implicits.
Arguments Output : clear implicits.
Arguments Externals : clear implicits.
Arguments Prog : clear implicits.
Arguments Event : clear implicits.
Arguments World : clear implicits.
Arguments PoolState : clear implicits.
Arguments Slot : clear implicits.
Arguments Task : clear implicits.
Arguments Trace : clear implicits.
Arguments Platform : clear implicits.
Arguments Driver : clear implicits.
Arguments M : clear implicits.

(** ** Charge assignment *)

Section Assigner.

(** Modelled from the spec: [set_random_charge] of
    [mindlessgen.molecules.miscellaneous], of which only the test is at hand.
    Atom types are 0-based (atomic number minus one), as in the test.  The
    two look-up tables of the lanthanide branch are given by the spec only
    through the entries the test observes, so they are taken as they come. *)
Variable lanthanide_charge : Z -> Z.
Variable lanthanide_uhf : Z -> Z.

(** Modelled from the spec: the lanthanide block, atomic numbers 57 to 71. *)
Definition is_lanthanide (atom : Z) : bool :=
  (56 <=? atom) && (atom <=? 70).

(** Modelled from the spec: the total electron count, one more than the
    0-based atom type for each atom. *)
Definition total_electrons (ati : list Z) : Z :=
  fold_right (fun atom nel => (atom + 1) + nel) 0 ati.

(** Modelled from the spec: the candidate charges of the standard branch,
    those that leave an even number of electrons. *)
Definition charge_candidates (nel : Z) : list Z :=
  if Z.even nel then [-2; 0; 2] else [-1; 1].

(** Modelled from the spec: the random choice among the candidates, with
    the draw [rnd] handed in. *)
Definition choose (rnd : nat) (candidates : list Z) : Z :=
  nth (rnd mod List.length candidates) candidates 0.

(** Modelled from the spec: the charge assigner, (charge, unpaired
    electrons).  The lanthanide present is the first one of the sequence. *)
Definition set_random_charge (rnd : nat) (ati : list Z) : Z * Z :=
  match find is_lanthanide ati with
  | Some ln => (lanthanide_charge ln, lanthanide_uhf ln)
  | None => (choose rnd (charge_candidates (total_electrons ati)), 0)
  end.

(** [test_set_random_charge]: one parametrised case and its two assertions. *)
Definition test_set_random_charge (rnd : nat)
    (atom_types expected_charges : list Z) (expected_uhf : Z) : bool :=
  let '(charge, uhf) := set_random_charge rnd atom_types in
  existsb (Z.eqb charge) expected_charges && (uhf =? expected_uhf).

End Assigner.

(** The nine cases of the test. *)
Definition test_cases : list (list Z * list Z * Z) :=
  [ ([4; 6; 0], [-1; 1], 0);
    ([4; 6; 0; 0], [-2; 0; 2], 0);
    ([5; 7; 0], [-1; 1], 0);
    ([5; 7; 0; 0], [-2; 0; 2], 0);
    ([56; 7; 0], [0], 0);
    ([59; 7; 7; 0], [0], 3);
    ([63; 6; 6], [1], 7);
    ([57; 7; 0], [0], 1);
    ([69; 7; 0], [0], 1) ].

(** The entries of the two tables the spec and the test give: La, Ce, Nd, Gd
    and Yb (0-based 56, 57, 59, 63, 69). *)
Definition observed_uhf : list (Z * Z) :=
  [ (56, 0); (59, 3); (63, 7); (57, 1); (69, 1) ].

Definition observed_charge : list (Z * Z) :=
  [ (56, 0); (59, 0); (63, 1); (57, 0); (69, 0) ].

Fixpoint assoc (k : Z) (table : list (Z * Z)) : option Z :=
  match table with
  | [] => None
  | (k', v) :: rest => if k =? k' then Some v else assoc k rest
  end.

(** Modelled from the spec: a look-up table of the lanthanide branch, of
    which the spec gives the observed entries alone; an element without an
    entry counts as [0] here. *)
Definition table_of (observed : list (Z * Z)) (k : Z) : Z :=
  match assoc k observed with
  | Some v => v
  | None => 0
  end.

(** ** Vocabulary of the properties *)

Section Vocabulary.

Context {Molecule GenerateConfig : Type}.

(** A worker that returned a molecule. *)
Definition is_winner (r : Result (option Molecule)) : bool :=
  match r with
  | Ok (Some _) => true
  | _ => false
  end.

Definition winners (rs : list (Result (option Molecule))) : nat :=
  List.length (filter is_winner rs).

Definition results_of {A B C : Type} (x : A * B * C) : A := fst (fst x).
Definition world_of {A B C : Type} (x : A * B * C) : B := snd (fst x).
Definition order_of {A B C : Type} (x : A * B * C) : C := snd x.

(** A worker that is careful returns a molecule only with the event set:
    [set] tells whether the event is known to be set already. *)
Fixpoint careful (set : bool)
    (p : Prog Molecule GenerateConfig (option Molecule)) : Prop :=
  match p with
  | Return (Some _) => set = true
  | Return None => True
  | Raise _ => True
  | EventIsSet k => forall b, careful set (k b)
  | EventSet k => careful true k
  | PrintOut _ k => careful set k
  | CallGenerate _ _ k => forall r, careful set (k r)
  | CallOptimize _ _ _ _ _ k => forall r, careful set (k r)
  | CallPostprocess _ _ _ _ k => forall r, careful set (k r)
  end.

(** A worker that gives up with its first action when the event is set. *)
Definition quits (p : Prog Molecule GenerateConfig (option Molecule)) : Prop :=
  forall (ext : Externals Molecule GenerateConfig)
         (w : World Molecule GenerateConfig),
    stop_event w = true -> fst (step ext p w) = Return None.

(** A task of a pool is in order: picked up, it is careful; waiting, it is
    an untouched worker. *)
Definition slot_ok (flag : bool)
    (s : Slot Molecule GenerateConfig (option Molecule)) : Prop :=
  if fst s then careful flag (snd s)
  else careful false (snd s) /\ quits (snd s) /\ finished (snd s) = false.

Definition won (s : Slot Molecule GenerateConfig (option Molecule)) : bool :=
  match snd s with
  | Return (Some _) => true
  | _ => false
  end.

(** The workers that are under way or have returned a molecule. *)
Definition load
    (ss : list (Slot Molecule GenerateConfig (option Molecule))) : nat :=
  (List.length (filter busy ss) + List.length (filter won ss))%nat.

(** The refinement of the generated molecule raises a [RuntimeError]. *)
Definition refinement_fails (ext : Externals Molecule GenerateConfig)
    (config : ConfigManager GenerateConfig) (re : QMMethod) : Prop :=
  let v := verbosity (general config) in
  exists mol e,
    generate_random_molecule ext (generate config) v = Ok mol /\
    iterative_optimization ext mol re (generate config) (refine config) v
    = Raised e /\
    is_RuntimeError e = true.

(** Postprocessing is switched on, and raises a [RuntimeError] on the
    refined molecule. *)
Definition postprocessing_fails (ext : Externals Molecule GenerateConfig)
    (config : ConfigManager GenerateConfig) (re : QMMethod)
    (pe : option QMMethod) : Prop :=
  let v := verbosity (general config) in
  postprocess (general config) = true /\
  exists mol optimized e,
    generate_random_molecule ext (generate config) v = Ok mol /\
    iterative_optimization ext mol re (generate config) (refine config) v
    = Ok optimized /\
    postprocess_mol ext optimized pe (postprocess_cfg config) v = Raised e /\
    is_RuntimeError e = true.

(** The configuration the workers of a batch are handed. *)
Definition batch_config (c : ConfigManager GenerateConfig) (num_cores : Z)
  : ConfigManager GenerateConfig :=
  if (num_cores >? 1) && (verbosity (general c) >? 0)
  then assign_verbosity c 0
  else c.

Definition batch_tasks (c : ConfigManager GenerateConfig) (num_cores : Z)
    (re : QMMethod) (pe : option QMMethod) : list (Task GenerateConfig) :=
  map (fun cycle => (batch_config c num_cores, re, pe, cycle))
      (range (max_cycles (general c))).

(** A run starts with nothing on the trace. *)
Definition start (c : ConfigManager GenerateConfig)
  : Driver Molecule GenerateConfig :=
  mkDriver c [].

(** Line 55. *)
Definition num_cores (pf : Platform Molecule GenerateConfig)
    (c : ConfigManager GenerateConfig) : Z :=
  Z.min (cpu_count pf) (parallel (general c)).

(** The trace a run leaves, and the configuration object after it. *)
Definition run_trace (version : string) (pf : Platform Molecule GenerateConfig)
    (c : ConfigManager GenerateConfig) : list (Trace Molecule GenerateConfig) :=
  trace (snd (generator version pf (start c))).

Definition config_after (version : string) (pf : Platform Molecule GenerateConfig)
    (c : ConfigManager GenerateConfig) : ConfigManager GenerateConfig :=
  config (snd (generator version pf (start c))).

(** Both engines can be set up. *)
Definition engines_ready (pf : Platform Molecule GenerateConfig)
    (c : ConfigManager GenerateConfig) : bool :=
  match setup_engines (refine_engine (refine c)) c
          (get_xtb_path pf) (get_orca_path pf) with
  | Raised _ => false
  | Ok _ =>
      if postprocess (general c) then
        match setup_engines (postprocess_engine (postprocess_cfg c)) c
                (get_xtb_path pf) (get_orca_path pf) with
        | Raised _ => false
        | Ok _ => true
        end
      else true
  end.

(** The run gets as far as the loop over the targets. *)
Definition reaches_pool_stage (pf : Platform Molecule GenerateConfig)
    (c : ConfigManager GenerateConfig) : bool :=
  negb (print_config (general c)) && engines_ready pf c.

(** Every field but the verbosity is the same. *)
Definition same_but_verbosity (c c' : ConfigManager GenerateConfig) : Prop :=
  assign_verbosity c' (verbosity (general c)) = c.

(** How often the warning about the clamped cores was raised. *)
Definition is_clamp_warning (t : Trace Molecule GenerateConfig) : bool :=
  match t with
  | TWarn (CoresClamped _ _ _) => true
  | _ => false
  end.

Definition clamp_warnings (tr : list (Trace Molecule GenerateConfig)) : nat :=
  List.length (filter is_clamp_warning tr).

(** The pools a run created, by their number of processes. *)
Fixpoint pool_degrees (tr : list (Trace Molecule GenerateConfig)) : list Z :=
  match tr with
  | [] => []
  | TPool processes _ :: rest => processes :: pool_degrees rest
  | _ :: rest => pool_degrees rest
  end.

(** The configurations the workers of a run were handed. *)
Fixpoint worker_configs (tr : list (Trace Molecule GenerateConfig))
  : list (ConfigManager GenerateConfig) :=
  match tr with
  | [] => []
  | TPool _ tasks :: rest =>
      map (fun t : Task GenerateConfig => fst (fst (fst t))) tasks
      ++ worker_configs rest
  | _ :: rest => worker_configs rest
  end.

(** The engines a run set up. *)
Fixpoint setups (tr : list (Trace Molecule GenerateConfig)) : list string :=
  match tr with
  | [] => []
  | TSetup engine_type :: rest => engine_type :: setups rest
  | _ :: rest => setups rest
  end.

(** The state of a pool is in order: every task is, and at most one worker
    is under way or has returned a molecule. *)
Definition pool_inv (st : PoolState Molecule GenerateConfig (option Molecule))
  : Prop :=
  Forall (slot_ok (stop_event (shared st))) (slots st) /\
  (load (slots st) <= 1)%nat.

(** What a run of the loop body adds to the trace: no warning about the
    cores, no engine set-up, pools of [nc] processes, and workers that get
    the batch configuration. *)
Definition batch_trace (nc : Z) (c : ConfigManager GenerateConfig)
    (added : list (Trace Molecule GenerateConfig)) : Prop :=
  clamp_warnings added = 0%nat /\
  setups added = [] /\
  Forall (fun p => p = nc) (pool_degrees added) /\
  Forall (fun c' => c' = batch_config c nc) (worker_configs added).

(** The first [n] actions of a worker. *)
Fixpoint steps {R : Type} (n : nat) (ext : Externals Molecule GenerateConfig)
    (p : Prog Molecule GenerateConfig R) (w : World Molecule GenerateConfig)
  : Prog Molecule GenerateConfig R * World Molecule GenerateConfig :=
  match n with
  | O => (p, w)
  | S n' => steps n' ext (fst (step ext p w)) (snd (step ext p w))
  end.

(** A sibling sets the event. *)
Definition sibling_sets (w : World Molecule GenerateConfig)
  : World Molecule GenerateConfig :=
  mkWorld true (log w ++ [EvSet]).

(** A worker that is overtaken: a sibling sets the event after the first
    [n] actions of the worker, which then runs to its end. *)
Definition run_overtaken {R : Type} (n : nat)
    (ext : Externals Molecule GenerateConfig)
    (p : Prog Molecule GenerateConfig R) (w : World Molecule GenerateConfig)
  : Result R * World Molecule GenerateConfig :=
  run ext (fst (steps n ext p w)) (sibling_sets (snd (steps n ext p w))).

(** How often the event has been looked at. *)
Fixpoint looks (events : list (Event Molecule GenerateConfig)) : nat :=
  match events with
  | [] => 0%nat
  | EvIsSet _ :: rest => S (looks rest)
  | _ :: rest => looks rest
  end.

(** A worker that has only printing left before it returns [m]. *)
Fixpoint returns (m : Molecule)
    (p : Prog Molecule GenerateConfig (option Molecule)) : Prop :=
  match p with
  | Return r => r = Some m
  | PrintOut _ k => returns m k
  | _ => False
  end.

(** A worker on its way to the success point, with the answers of [ext]: it
    prints and calls, then looks at the event; finding it set it returns
    [None], finding it unset it sets it and returns [m]. *)
Fixpoint succeeding (ext : Externals Molecule GenerateConfig) (m : Molecule)
    (p : Prog Molecule GenerateConfig (option Molecule)) : Prop :=
  match p with
  | EventIsSet k =>
      k true = Return None /\
      match k false with
      | EventSet k' => returns m k'
      | _ => False
      end
  | PrintOut _ k => succeeding ext m k
  | CallGenerate gc v k => succeeding ext m (k (generate_random_molecule ext gc v))
  | CallOptimize mol e gc rc v k =>
      succeeding ext m (k (iterative_optimization ext mol e gc rc v))
  | CallPostprocess mol e pc v k =>
      succeeding ext m (k (postprocess_mol ext mol e pc v))
  | _ => False
  end.

End Vocabulary.

(** [needle in text]. *)
Definition mentions (needle text : string) : bool :=
  match index 0 needle text with
  | Some _ => true
  | None => false
  end.

(** ** Sample data *)

(** Molecules are named by a string; the generation settings are empty. *)
Definition sample_config (g : GeneralConfig) : ConfigManager unit :=
  mkConfig g tt (mkRefine "xtb") (mkPostProcess "orca")
           (mkXTBConfig "") (mkORCAConfig "").

(** Worker [i] generates "mol<i>"; both engines hand the molecule back. *)
Definition sample_ext (i : nat) : Externals string unit :=
  mkExternals
    (fun _ _ => Ok ("mol" ++ string_of_Z (Z.of_nat i))%string)
    (fun m _ _ _ _ => Ok m)
    (fun m _ _ _ => Ok m).

(** The refinement of every worker fails to converge. *)
Definition failing_ext (i : nat) : Externals string unit :=
  mkExternals
    (fun _ _ => Ok ("mol" ++ string_of_Z (Z.of_nat i))%string)
    (fun _ _ _ _ _ => Raised (RuntimeError "not converged"))
    (fun m _ _ _ => Ok m).

(** The second engine rejects what the first one accepted. *)
Definition rejecting_ext : Externals string unit :=
  mkExternals
    (fun _ _ => Ok "mol")
    (fun _ _ _ _ _ => Ok "optimized")
    (fun _ _ _ _ => Raised (RuntimeError "postprocessing did not converge")).

Definition found (path : string) : string -> Result (option string) :=
  fun _ => Ok (Some path).

(** Two workers reach their last check of the event before either sets it;
    worker 1 then finishes first. *)
Definition race : list nat := [0; 0; 0; 0; 0; 1; 1; 1; 1; 1; 1; 0]%nat.

Definition sample_platform (cpus : Z) (exts : nat -> Externals string unit)
    (sched : list nat) : Platform string unit :=
  scheduled_platform cpus (found "/usr/bin/xtb") (found "/usr/bin/orca")
    (fun _ => exts) (fun _ => sched).

(** Two cores asked for and used, nothing printed, two cycles. *)
Definition quiet_config : ConfigManager unit :=
  sample_config (mkGeneral 0 false false 2 1 2).

(** The same with verbosity 1. *)
Definition verbose_config : ConfigManager unit :=
  sample_config (mkGeneral 1 false false 2 1 2).

(** One core, three cycles. *)
Definition exhausting_config : ConfigManager unit :=
  sample_config (mkGeneral 0 false false 1 1 3).

(** Eight cores asked for, and only the configuration is to be printed. *)
Definition print_only_config : ConfigManager unit :=
  sample_config (mkGeneral 0 true false 8 1 2).

(** Postprocessing switched on. *)
Definition postprocess_config : ConfigManager unit :=
  sample_config (mkGeneral 0 false true 1 1 1).

Definition sample_tasks : list (Task unit) :=
  batch_tasks quiet_config 2 (XTB "/usr/bin/xtb") None.


(** A platform whose pool raises, as when a worker process dies. *)
Definition broken_platform : Platform string unit :=
  mkPlatform 4 (found "/usr/bin/xtb") (found "/usr/bin/orca")
    (fun _ _ _ => Raised (OtherException "BrokenProcessPool" "worker died")).

(** The generation itself fails. *)
Definition stuck_ext : Externals string unit :=
  mkExternals
    (fun _ _ => Raised (RuntimeError "no atoms left"))
    (fun m _ _ _ _ => Ok m)
    (fun m _ _ _ => Ok m).

(** Each stage hands on a molecule of its own. *)
Definition staged_ext : Externals string unit :=
  mkExternals
    (fun _ _ => Ok "raw")
    (fun _ _ _ _ _ => Ok "refined")
    (fun _ _ _ _ => Ok "polished").

(** No molecule is asked for. *)
Definition idle_config : ConfigManager unit :=
  sample_config (mkGeneral 0 false false 2 0 2).

(** No cycle is allowed. *)
Definition cycleless_config : ConfigManager unit :=
  sample_config (mkGeneral 0 false false 2 1 0).

(** An engine nobody has implemented. *)
Definition unknown_engine_config : ConfigManager unit :=
  mkConfig (mkGeneral 0 false false 1 1 1) tt (mkRefine "gaussian")
           (mkPostProcess "orca") (mkXTBConfig "") (mkORCAConfig "").

(** ** Vocabulary of the further properties *)

Section MoreVocabulary.

Context {Molecule GenerateConfig : Type}.

(** What a worker printed, in order. *)
Fixpoint printed (events : list (Event Molecule GenerateConfig))
  : list (Output Molecule GenerateConfig) :=
  match events with
  | [] => []
  | EvPrint o :: rest => o :: printed rest
  | _ :: rest => printed rest
  end.

(** The calls of a worker to its collaborators, in order. *)
Fixpoint calls (events : list (Event Molecule GenerateConfig))
  : list (Event Molecule GenerateConfig) :=
  match events with
  | [] => []
  | EvGenerate :: rest => EvGenerate :: calls rest
  | EvOptimize mol :: rest => EvOptimize mol :: calls rest
  | EvPostprocess mol :: rest => EvPostprocess mol :: calls rest
  | _ :: rest => calls rest
  end.

(** The calls a worker makes when it is not stopped at once: generation,
    then refinement of what was generated, then, if switched on,
    postprocessing of what was refined. *)
Definition expected_calls (ext : Externals Molecule GenerateConfig)
    (config : ConfigManager GenerateConfig) (re : QMMethod)
    (pe : option QMMethod) : list (Event Molecule GenerateConfig) :=
  let v := verbosity (general config) in
  match generate_random_molecule ext (generate config) v with
  | Raised _ => [EvGenerate]
  | Ok mol =>
      EvGenerate :: EvOptimize mol ::
      match iterative_optimization ext mol re (generate config) (refine config) v with
      | Raised _ => []
      | Ok optimized =>
          if postprocess (general config) then [EvPostprocess optimized] else []
      end
  end.

(** The warnings of a run, in order. *)
Fixpoint warnings (tr : list (Trace Molecule GenerateConfig)) : list Warning :=
  match tr with
  | [] => []
  | TWarn w :: rest => w :: warnings rest
  | _ :: rest => warnings rest
  end.

(** The task lists handed to the pools of a run, in order. *)
Fixpoint pool_tasks (tr : list (Trace Molecule GenerateConfig))
  : list (list (Task GenerateConfig)) :=
  match tr with
  | [] => []
  | TPool _ tasks :: rest => tasks :: pool_tasks rest
  | _ :: rest => pool_tasks rest
  end.

(** What the coordinator printed, in order. *)
Fixpoint driver_printed (tr : list (Trace Molecule GenerateConfig))
  : list (Output Molecule GenerateConfig) :=
  match tr with
  | [] => []
  | TPrint o :: rest => o :: driver_printed rest
  | _ :: rest => driver_printed rest
  end.

(** The engines a run works with: the refinement engine, and the
    postprocessing engine when postprocessing is switched on. *)
Definition engines_of (pf : Platform Molecule GenerateConfig)
    (c : ConfigManager GenerateConfig) (re : QMMethod) (pe : option QMMethod)
  : Prop :=
  setup_engines (refine_engine (refine c)) c (get_xtb_path pf) (get_orca_path pf)
  = Ok re /\
  if postprocess (general c) then
    exists engine,
      pe = Some engine /\
      setup_engines (postprocess_engine (postprocess_cfg c)) c
        (get_xtb_path pf) (get_orca_path pf) = Ok engine
  else pe = None.

(** Lines 32-70: what a run leaves on the trace before the first target. *)
Definition prelude_trace (version : string)
    (pf : Platform Molecule GenerateConfig) (c : ConfigManager GenerateConfig)
  : list (Trace Molecule GenerateConfig) :=
  let v := verbosity (general c) in
  (if v >? 0 then [TPrint (OHeader version)] else [])
  ++ [TSetup (refine_engine (refine c))]
  ++ (if postprocess (general c)
      then [TSetup (postprocess_engine (postprocess_cfg c))] else [])
  ++ (if v >? 0 then [TPrint (OConfig c)] else [])
  ++ (if parallel (general c) >? cpu_count pf
      then [TWarn (CoresClamped (parallel (general c)) (cpu_count pf)
                     (num_cores pf c))]
      else [])
  ++ (if v >? 0
      then [TPrint (OText ("Running with " ++ string_of_Z (num_cores pf c)
                           ++ " cores.")%string)]
      else [])
  ++ (if (num_cores pf c >? 1) && (v >? 0) then [TWarn VerbosityDisabled] else []).

(** A worker that has set the event and is about to return its molecule. *)
Fixpoint wins (p : Prog Molecule GenerateConfig (option Molecule)) : Prop :=
  match p with
  | Return (Some _) => True
  | PrintOut _ k => wins k
  | _ => False
  end.

(** A worker that, whenever it sets the event, goes on to return a
    molecule. *)
Fixpoint sound (p : Prog Molecule GenerateConfig (option Molecule)) : Prop :=
  match p with
  | Return _ => True
  | Raise _ => True
  | EventIsSet k => forall b, sound (k b)
  | EventSet k => wins k
  | PrintOut _ k => sound k
  | CallGenerate _ _ k => forall r, sound (k r)
  | CallOptimize _ _ _ _ _ k => forall r, sound (k r)
  | CallPostprocess _ _ _ _ k => forall r, sound (k r)
  end.

(** A worker that raises nothing as long as its collaborators return. *)
Fixpoint calm (p : Prog Molecule GenerateConfig (option Molecule)) : Prop :=
  match p with
  | Return _ => True
  | Raise _ => False
  | EventIsSet k => forall b, calm (k b)
  | EventSet k => calm k
  | PrintOut _ k => calm k
  | CallGenerate _ _ k => forall m, calm (k (Ok m))
  | CallOptimize _ _ _ _ _ k => forall m, calm (k (Ok m))
  | CallPostprocess _ _ _ _ k => forall m, calm (k (Ok m))
  end.

(** A worker that gets as far as setting the event, or returns a molecule,
    as long as it finds the event unset and its collaborators return. *)
Fixpoint eager (p : Prog Molecule GenerateConfig (option Molecule)) : Prop :=
  match p with
  | Return (Some _) => True
  | Return None => False
  | Raise _ => False
  | EventIsSet k => eager (k false)
  | EventSet _ => True
  | PrintOut _ k => eager k
  | CallGenerate _ _ k => forall m, eager (k (Ok m))
  | CallOptimize _ _ _ _ _ k => forall m, eager (k (Ok m))
  | CallPostprocess _ _ _ _ k => forall m, eager (k (Ok m))
  end.

(** Collaborators that always return. *)
Definition reliable (ext : Externals Molecule GenerateConfig) : Prop :=
  (forall gc v, exists m, generate_random_molecule ext gc v = Ok m) /\
  (forall mol engine gc rc v,
     exists m, iterative_optimization ext mol engine gc rc v = Ok m) /\
  (forall mol engine pc v, exists m, postprocess_mol ext mol engine pc v = Ok m).

Definition is_ok {A : Type} (r : Result A) : bool :=
  match r with
  | Ok _ => true
  | Raised _ => false
  end.

(** What the targets yield, read off the answers of the pool alone: for
    each target in turn the first result of its batch that is not [None];
    the exception of the pool or the exhaustion of the first target that
    has none ends the list. *)
Fixpoint accepted_molecules (pf : Platform Molecule GenerateConfig) (nc : Z)
    (tasks : list (Task GenerateConfig)) (targets : list Z)
  : Result (list Molecule) :=
  match targets with
  | [] => Ok []
  | molcount :: rest =>
      match starmap pf molcount nc tasks with
      | Raised e => Raised e
      | Ok results =>
          match first_success results with
          | None => Raised (RuntimeError (exhausted_message molcount))
          | Some (_, m) =>
              match accepted_molecules pf nc tasks rest with
              | Ok ms => Ok (m :: ms)
              | Raised e => Raised e
              end
          end
      end
  end.

(** An exception of the generation, of whatever class, and an exception of
    the refinement or the postprocessing that is no [RuntimeError]. *)
Definition escapes (ext : Externals Molecule GenerateConfig)
    (config : ConfigManager GenerateConfig) (re : QMMethod)
    (pe : option QMMethod) (e : Exn) : Prop :=
  let v := verbosity (general config) in
  generate_random_molecule ext (generate config) v = Raised e \/
  (exists mol,
     generate_random_molecule ext (generate config) v = Ok mol /\
     iterative_optimization ext mol re (generate config) (refine config) v
     = Raised e /\
     is_RuntimeError e = false) \/
  (exists mol optimized,
     generate_random_molecule ext (generate config) v = Ok mol /\
     iterative_optimization ext mol re (generate config) (refine config) v
     = Ok optimized /\
     postprocess (general config) = true /\
     postprocess_mol ext optimized pe (postprocess_cfg config) v = Raised e /\
     is_RuntimeError e = false).

(** The state of a pool is live: every worker is sound, and with the event
    set some worker has set it and returns its molecule. *)
Definition pool_live
    (ss : list (Slot Molecule GenerateConfig (option Molecule))) (flag : bool)
  : Prop :=
  Forall (fun s => sound (snd s)) ss /\
  (flag = true -> Exists (fun s => wins (snd s)) ss).

(** The workers of a pool are willing: none raises, and with the event
    unset each is on its way to a molecule. *)
Definition pool_willing
    (ss : list (Slot Molecule GenerateConfig (option Molecule))) (flag : bool)
  : Prop :=
  Forall (fun s => calm (snd s)) ss /\
  (flag = false -> Forall (fun s => eager (snd s)) ss).

End MoreVocabulary.

(** ** The banner *)

(** Python strings are sequences of characters; here they are the bytes of
    their UTF-8 form.  A byte 10xxxxxx continues a character. *)
Definition is_continuation (b : Ascii.ascii) : bool :=
  let n := Ascii.nat_of_ascii b in
  ((128 <=? n) && (n <? 192))%nat.

(** [len(s)]: the number of characters. *)
Fixpoint codepoints (s : string) : nat :=
  match s with
  | EmptyString => 0%nat
  | String b rest =>
      if is_continuation b then codepoints rest else S (codepoints rest)
  end.

(** [s[:n]]: the first [n] characters. *)
Fixpoint take_chars (n : nat) (s : string) : string :=
  match s with
  | EmptyString => EmptyString
  | String b rest =>
      if is_continuation b then String b (take_chars n rest)
      else
        match n with
        | O => EmptyString
        | S n' => String b (take_chars n' rest)
        end
  end.

(** The literals of [header], one for each line of the banner. *)
Definition header_lines (version : string) : list string :=
  [ "╔══════════════════════════════════════════════════════════════════════════════════════════════════╗";
    "║                                                                                                  ║";
    "║   ███╗   ███╗██╗███╗   ██╗██████╗ ██╗     ███████╗███████╗███████╗ ██████╗ ███████╗███╗   ██╗    ║";
    "║   ████╗ ████║██║████╗  ██║██╔══██╗██║     ██╔════╝██╔════╝██╔════╝██╔════╝ ██╔════╝████╗  ██║    ║";
    "║   ██╔████╔██║██║██╔██╗ ██║██║  ██║██║     █████╗  ███████╗███████╗██║  ███╗█████╗  ██╔██╗ ██║    ║";
    "║   ██║╚██╔╝██║██║██║╚██╗██║██║  ██║██║     ██╔══╝  ╚════██║╚════██║██║   ██║██╔══╝  ██║╚██╗██║    ║";
    "║   ██║ ╚═╝ ██║██║██║ ╚████║██████╔╝███████╗███████╗███████║███████║╚██████╔╝███████╗██║ ╚████║    ║";
    "║   ╚═╝     ╚═╝╚═╝╚═╝  ╚═══╝╚═════╝ ╚══════╝╚══════╝╚══════╝╚══════╝ ╚═════╝ ╚══════╝╚═╝  ╚═══╝    ║";
    "║                                                                                                  ║";
    ("║                                       MindlessGen v"
     ++ take_chars 5 version
     ++ "                                         ║")%string;
    "║                                 Semi-Automated Molecule Generator                                ║";
    "║                                                                                                  ║";
    "║                          Licensed under the Apache License, Version 2.0                          ║";
    "║                           (http://www.apache.org/licenses/LICENSE-2.0)                           ║";
    "╚══════════════════════════════════════════════════════════════════════════════════════════════════╝" ].

(** [header]: the lines, each but the last ended by a line break. *)
Definition header (version : string) : string :=
  String.concat nl (header_lines version).

(** The line of the banner that shows the version. *)
Definition version_line (version : string) : string :=
  nth 9 (header_lines version) EmptyString.

(** [s.split(nl)]: the lines of a text. *)
Fixpoint split_lines (s : string) : list string :=
  match s with
  | EmptyString => [EmptyString]
  | String b rest =>
      if Ascii.eqb b (Ascii.ascii_of_nat 10) then EmptyString :: split_lines rest
      else
        match split_lines rest with
        | [] => [String b EmptyString]
        | line :: lines => String b line :: lines
        end
  end.

(** [s.count(nl)]: the line breaks of a text. *)
Fixpoint line_breaks (s : string) : nat :=
  match s with
  | EmptyString => 0%nat
  | String b rest =>
      if Ascii.eqb b (Ascii.ascii_of_nat 10) then S (line_breaks rest)
      else line_breaks rest
  end.

(** * Properties *)

(** ** Cycle workers *)

Section WorkerFacts.

Context {Molecule GenerateConfig : Type}.

Local Abbreviation Ext := (Externals Molecule GenerateConfig).
Local Abbreviation Config := (ConfigManager GenerateConfig).
Local Abbreviation W := (World Molecule GenerateConfig).

(** Running a sequence runs its first part and then the rest. *)
Lemma run_bind {A B : Type} (ext : Ext) (p : Prog Molecule GenerateConfig A)
    (f : A -> Prog Molecule GenerateConfig B) (w : W) :
  run ext (bind p f) w =
  match run ext p w with
  | (Ok a, w') => run ext (f a) w'
  | (Raised e, w') => (Raised e, w')
  end.
Proof.
  revert w.
  induction p as [a | e | k IH | k IH | o k IH | gc v k IH
                 | m en gc rc v k IH | m en pc v k IH];
    intro w; simpl; auto.
Qed.

(** A step followed by the run of what is left is the run. *)
Lemma run_step {R : Type} (ext : Ext) (p : Prog Molecule GenerateConfig R) (w : W) :
  run ext (fst (step ext p w)) (snd (step ext p w)) = run ext p w.
Proof. destruct p; reflexivity. Qed.

(** A finished worker is not run again. *)
Lemma run_finished {R : Type} (ext : Ext) (p : Prog Molecule GenerateConfig R) (w : W) :
  finished p = true -> snd (run ext p w) = w /\ propagate (fst (run ext p w)) = p.
Proof. destruct p; simpl; intro H; try discriminate; auto. Qed.

(** Case analysis on everything a worker branches on. *)
Ltac split_cases :=
  repeat (simpl;
          match goal with
          | |- context [generate_random_molecule ?x ?a ?b] =>
              destruct (generate_random_molecule x a b) eqn:?
          | |- context [iterative_optimization ?x ?a ?b ?c ?d ?f] =>
              destruct (iterative_optimization x a b c d f) eqn:?
          | |- context [postprocess_mol ?x ?a ?b ?c ?d] =>
              destruct (postprocess_mol x a b c d) eqn:?
          | |- context [is_RuntimeError ?e] => destruct (is_RuntimeError e) eqn:?
          | |- context [postprocess ?g] => destruct (postprocess g) eqn:?
          | |- context [?x =? ?y] => destruct (x =? y) eqn:?
          | |- context [?x >? ?y] => destruct (x >? y) eqn:?
          end).

(** The event only ever goes from unset to set. *)
Lemma run_keeps_set {R : Type} (ext : Ext) (p : Prog Molecule GenerateConfig R) (w : W) :
  stop_event w = true -> stop_event (snd (run ext p w)) = true.
Proof.
  revert w.
  induction p as [a | e | k IH | k IH | o k IH | gc v k IH
                 | m en gc rc v k IH | m en pc v k IH];
    intros w Hw; simpl; auto.
Qed.

(** The last check decides: set before it, the molecule is dropped and
    nothing is touched; unset, the worker sets the event and wins. *)
Lemma claim_success_run (ext : Ext) (v : Z) (m : Molecule) (w : W) :
  (stop_event w = true ->
   run ext (claim_success v m) w = (Ok None, record w (EvIsSet true))) /\
  (stop_event w = false ->
   fst (run ext (claim_success v m) w) = Ok (Some m) /\
   stop_event (snd (run ext (claim_success v m) w)) = true).
Proof.
  destruct w as [flag events]; split; intro H; simpl in H; subst flag.
  - reflexivity.
  - unfold claim_success; simpl. destruct (v >? 1); simpl; auto.
Qed.

(** What one uninterrupted worker does to the event, by its result. *)
Lemma worker_run_cases (ext : Ext) (config : Config) (re : QMMethod)
    (pe : option QMMethod) (cycle : Z) (w : W) :
  match fst (run ext (single_molecule_generator config re pe cycle) w) with
  | Ok (Some _) =>
      stop_event w = false /\
      stop_event (snd (run ext (single_molecule_generator config re pe cycle) w)) = true
  | _ =>
      stop_event (snd (run ext (single_molecule_generator config re pe cycle) w))
      = stop_event w
  end.
Proof.
  destruct w as [flag events]. destruct flag.
  - reflexivity.
  - unfold single_molecule_generator, claim_success, report_failure, print, pass,
      stop_event_is_set, stop_event_set, propagate.
    split_cases; simpl; auto.
Qed.

(** C6: a worker that finds the event set when it starts returns [None] at
    once: its only action is that one look at the event, so no molecule is
    generated and neither the optimizer nor the postprocessor is called. *)
Theorem stopped_worker_returns_none (ext : Ext) (config : Config)
    (re : QMMethod) (pe : option QMMethod) (cycle : Z)
    (events : list (Event Molecule GenerateConfig)) :
  run ext (single_molecule_generator config re pe cycle) (mkWorld true events)
  = (Ok None, mkWorld true (events ++ [EvIsSet true])) /\
  step ext (single_molecule_generator config re pe cycle) (mkWorld true events)
  = (Return None, mkWorld true (events ++ [EvIsSet true])).
Proof. split; reflexivity. Qed.

(** C7: when the refinement or the postprocessing raises a [RuntimeError],
    the worker returns [None]: the exception does not leave the worker, the
    refined molecule is not returned after a failed postprocessing, and the
    event is left as it was. *)
Theorem recoverable_failure_returns_none (ext : Ext) (config : Config)
    (re : QMMethod) (pe : option QMMethod) (cycle : Z) (w : W) :
  refinement_fails ext config re \/ postprocessing_fails ext config re pe ->
  fst (run ext (single_molecule_generator config re pe cycle) w) = Ok None /\
  stop_event (snd (run ext (single_molecule_generator config re pe cycle) w))
  = stop_event w.
Proof.
  intro H. destruct w as [flag events]. destruct flag; [split; reflexivity|].
  unfold single_molecule_generator, report_failure, print, pass,
    stop_event_is_set, propagate.
  destruct H as [(mol & e & Hgen & Hopt & He)
                | (Hpost & mol & opt & e & Hgen & Hopt & Hpp & He)].
  - destruct (verbosity (general config) =? 0) eqn:E0;
      destruct (verbosity (general config) >? 0) eqn:E1;
      destruct (verbosity (general config) >? 1) eqn:E2;
      simpl; rewrite Hgen; simpl; rewrite Hopt, He; simpl;
      rewrite ?E1, ?E2; simpl; auto.
  - destruct (verbosity (general config) =? 0) eqn:E0;
      destruct (verbosity (general config) >? 0) eqn:E1;
      destruct (verbosity (general config) >? 1) eqn:E2;
      simpl; rewrite Hgen; simpl; rewrite Hopt, Hpost; simpl;
      rewrite Hpp, He; simpl; rewrite ?E1, ?E2; simpl; auto.
Qed.

(** *** Workers that are overtaken *)

Local Abbreviation Ev := (Event Molecule GenerateConfig).
Local Abbreviation Worker := (Prog Molecule GenerateConfig (option Molecule)).

Lemma looks_app (a b : list Ev) : looks (a ++ b) = (looks a + looks b)%nat.
Proof.
  induction a as [| e a IH]; simpl; [reflexivity |].
  destruct e; simpl; rewrite IH; reflexivity.
Qed.

(** A finished worker does not move. *)
Lemma steps_finished {R : Type} (ext : Ext) (p : Prog Molecule GenerateConfig R)
    (w : W) (n : nat) :
  finished p = true -> steps n ext p w = (p, w).
Proof.
  intro H. induction n as [| n IH]; simpl; [reflexivity |].
  destruct p; simpl in *; try discriminate; exact IH.
Qed.

(** With only printing left, the molecule is returned whatever happens to
    the event, and the event is not looked at again. *)
Lemma returns_steps (ext : Ext) (m : Molecule) (p : Worker) :
  returns m p ->
  forall (n : nat) (w w' : W),
    fst (run ext p w) = Ok (Some m) /\
    stop_event (snd (run ext p w)) = stop_event w /\
    fst (run ext (fst (steps n ext p w)) w') = Ok (Some m) /\
    looks (log (snd (steps n ext p w))) = looks (log w).
Proof.
  induction p as [r | e | k IH | k IH | o k IH | gc v k IH
                 | mol en gc rc v k IH | mol en pc v k IH];
    simpl; intro H; try contradiction.
  - subst r. intros n w w'.
    rewrite (steps_finished ext (Return (Some m)) w n eq_refl).
    repeat split; reflexivity.
  - intros n w w'. specialize (IH H).
    destruct (IH 0%nat (record w (EvPrint o)) w') as (Hr & Hs & _ & _).
    split; [exact Hr |]. split; [exact Hs |].
    destruct n as [| n]; simpl.
    + split; [| reflexivity].
      apply (IH 0%nat (record w' (EvPrint o)) w').
    + destruct (IH n (record w (EvPrint o)) w') as (_ & _ & Hr' & Hl).
      split; [exact Hr' |]. rewrite Hl. simpl. rewrite looks_app. simpl. lia.
Qed.

(** With the event set, a worker on its way gives up at its look. *)
Lemma succeeding_stopped (ext : Ext) (m : Molecule) (p : Worker) :
  succeeding ext m p ->
  forall w : W, stop_event w = true -> fst (run ext p w) = Ok None.
Proof.
  induction p as [r | e | k IH | k IH | o k IH | gc v k IH
                 | mol en gc rc v k IH | mol en pc v k IH];
    simpl; intro H; try contradiction; intros w Hw; auto.
  destruct H as [Hset _]. rewrite Hw, Hset. reflexivity.
Qed.

(** With the event unset, it sets the event and returns its molecule. *)
Lemma succeeding_run (ext : Ext) (m : Molecule) (p : Worker) :
  succeeding ext m p ->
  forall w : W,
    stop_event w = false ->
    fst (run ext p w) = Ok (Some m) /\ stop_event (snd (run ext p w)) = true.
Proof.
  induction p as [r | e | k IH | k IH | o k IH | gc v k IH
                 | mol en gc rc v k IH | mol en pc v k IH];
    simpl; intro H; try contradiction; intros w Hw; auto.
  destruct H as [_ Hunset]. rewrite Hw.
  destruct (k false) as [| | | k' | | | |]; try contradiction.
  simpl.
  destruct (returns_steps ext m k' Hunset 0%nat
              (mkWorld true (log (record w (EvIsSet false)) ++ [EvSet]))
              (mkWorld true [])) as (Hr & Hs & _).
  split; [exact Hr | exact Hs].
Qed.

Lemma ltb_self_succ (a : nat) : (a <? a + 1)%nat = true.
Proof. apply Nat.ltb_lt. lia. Qed.

(** Overtaken before its look, the worker returns [None]; overtaken after
    it, the worker returns its molecule all the same. *)
Lemma succeeding_overtaken (ext : Ext) (m : Molecule) (p : Worker) :
  succeeding ext m p ->
  forall (n : nat) (w : W),
    stop_event w = false ->
    fst (run_overtaken n ext p w)
    = if (looks (log (snd (steps n ext p w))) <? looks (log w) + 1)%nat
      then Ok None else Ok (Some m).
Proof.
  unfold run_overtaken.
  induction p as [r | e | k IH | k IH | o k IH | gc v k IH
                 | mol en gc rc v k IH | mol en pc v k IH];
    simpl; intro H; try contradiction; intros n w Hw.
  - destruct n as [| n]; simpl.
    + destruct H as [Hset _]. rewrite Hset, ltb_self_succ. reflexivity.
    + destruct H as [_ Hunset]. rewrite Hw.
      destruct (k false) as [| | | k' | | | |]; try contradiction.
      destruct n as [| n]; simpl.
      * rewrite looks_app. simpl. rewrite Nat.ltb_irrefl.
        apply (returns_steps ext m k' Hunset 0%nat
                 (mkWorld true ((log (record w (EvIsSet false)) ++ [EvSet]) ++ [EvSet]))
                 (mkWorld true [])).
      * destruct (returns_steps ext m k' Hunset n
                    (mkWorld true (log (record w (EvIsSet false)) ++ [EvSet]))
                    (sibling_sets
                       (snd (steps n ext k'
                               (mkWorld true
                                  (log (record w (EvIsSet false)) ++ [EvSet]))))))
          as (_ & _ & Hr & Hl).
        simpl in Hr, Hl. rewrite Hr, Hl.
        rewrite !looks_app. simpl. rewrite Nat.add_0_r, Nat.ltb_irrefl.
        reflexivity.
  - destruct n as [| n]; simpl.
    + rewrite ltb_self_succ.
      apply (succeeding_stopped ext m k H). reflexivity.
    + rewrite (IH H n (record w (EvPrint o)) Hw). simpl.
      rewrite looks_app. simpl. rewrite Nat.add_0_r. reflexivity.
  - destruct n as [| n]; simpl.
    + rewrite ltb_self_succ.
      apply (succeeding_stopped ext m _ H). reflexivity.
    + rewrite (IH _ H n (record w EvGenerate) Hw). simpl.
      rewrite looks_app. simpl. rewrite Nat.add_0_r. reflexivity.
  - destruct n as [| n]; simpl.
    + rewrite ltb_self_succ.
      apply (succeeding_stopped ext m _ H). reflexivity.
    + rewrite (IH _ H n (record w (EvOptimize mol)) Hw). simpl.
      rewrite looks_app. simpl. rewrite Nat.add_0_r. reflexivity.
  - destruct n as [| n]; simpl.
    + rewrite ltb_self_succ.
      apply (succeeding_stopped ext m _ H). reflexivity.
    + rewrite (IH _ H n (record w (EvPostprocess mol)) Hw). simpl.
      rewrite looks_app. simpl. rewrite Nat.add_0_r. reflexivity.
Qed.

(** Past its first look, a worker whose collaborators return is on its way
    to the success point. *)
Lemma worker_succeeding (ext : Ext) (config : Config) (re : QMMethod)
    (pe : option QMMethod) (cycle : Z) (mol optimized final : Molecule) (w : W) :
  generate_random_molecule ext (generate config) (verbosity (general config))
  = Ok mol ->
  iterative_optimization ext mol re (generate config) (refine config)
    (verbosity (general config)) = Ok optimized ->
  (if postprocess (general config)
   then postprocess_mol ext optimized pe (postprocess_cfg config)
          (verbosity (general config)) = Ok final
   else final = optimized) ->
  stop_event w = false ->
  succeeding ext final
    (fst (step ext (single_molecule_generator config re pe cycle) w)).
Proof.
  intros Hgen Hopt Hpost Hw.
  unfold single_molecule_generator, claim_success, report_failure, print, pass,
    stop_event_is_set, stop_event_set, propagate.
  simpl. rewrite Hw. simpl.
  destruct (postprocess (general config)) eqn:Hpp; [| subst final];
    destruct (verbosity (general config) =? 0) eqn:E0;
    destruct (verbosity (general config) >? 0) eqn:E1;
    destruct (verbosity (general config) >? 1) eqn:E2;
    simpl; rewrite Hgen; simpl; rewrite Hopt; simpl; rewrite ?Hpp; simpl;
    rewrite ?Hpost; simpl; rewrite ?E2; simpl; auto.
Qed.

(** The last look of a worker decides.  A worker whose collaborators all
    return, started with the event unset and overtaken after [n] of its
    actions, returns [None] when it had looked at the event less than twice
    by then, and its molecule when it had already looked twice; left alone,
    it sets the event and returns its molecule. *)
Lemma overtaken_worker (ext : Ext) (config : Config) (re : QMMethod)
    (pe : option QMMethod) (cycle : Z) (events : list Ev)
    (mol optimized final : Molecule) (n : nat) :
  generate_random_molecule ext (generate config) (verbosity (general config))
  = Ok mol ->
  iterative_optimization ext mol re (generate config) (refine config)
    (verbosity (general config)) = Ok optimized ->
  (if postprocess (general config)
   then postprocess_mol ext optimized pe (postprocess_cfg config)
          (verbosity (general config)) = Ok final
   else final = optimized) ->
  fst (run_overtaken n ext (single_molecule_generator config re pe cycle)
         (mkWorld false events))
  = (if (looks (log (snd (steps n ext
                            (single_molecule_generator config re pe cycle)
                            (mkWorld false events))))
         <? looks events + 2)%nat
     then Ok None else Ok (Some final)) /\
  fst (run ext (single_molecule_generator config re pe cycle) (mkWorld false events))
  = Ok (Some final) /\
  stop_event (snd (run ext (single_molecule_generator config re pe cycle)
                     (mkWorld false events))) = true.
Proof.
  intros Hgen Hopt Hpost.
  pose proof (worker_succeeding ext config re pe cycle mol optimized final
                (mkWorld false events) Hgen Hopt Hpost eq_refl) as Hs.
  split.
  - destruct n as [| n].
    + cbn [steps snd log].
      replace (looks events <? looks events + 2)%nat with true
        by (symmetry; apply Nat.ltb_lt; lia).
      reflexivity.
    + pose proof (succeeding_overtaken ext final _ Hs n
                    (snd (step ext (single_molecule_generator config re pe cycle)
                            (mkWorld false events))) eq_refl) as H.
      unfold run_overtaken in *. cbn [steps]. rewrite H.
      simpl. rewrite looks_app. simpl.
      replace (looks events + 1 + 1)%nat with (looks events + 2)%nat by lia.
      reflexivity.
  - rewrite <- run_step.
    apply (succeeding_run ext final _ Hs). reflexivity.
Qed.

End WorkerFacts.

(** ** Batches of workers *)

Section PoolFacts.

Context {Molecule GenerateConfig : Type}.

Local Abbreviation Ext := (Externals Molecule GenerateConfig).
Local Abbreviation W := (World Molecule GenerateConfig).
Local Abbreviation Worker := (Prog Molecule GenerateConfig (option Molecule)).
Local Abbreviation Slots := (list (Slot Molecule GenerateConfig (option Molecule))).

(** Knowing more about the event never hurts. *)
Lemma careful_weaken (p : Worker) (s s' : bool) :
  (s = true -> s' = true) -> careful s p -> careful s' p.
Proof.
  revert s s'.
  induction p as [r | e | k IH | k IH | o k IH | gc v k IH
                 | m en gc rc v k IH | m en pc v k IH];
    intros s s' Hs Hp; simpl in *; eauto.
  destruct r; auto.
Qed.

(** A careful worker stays careful with every action. *)
Lemma careful_step (ext : Ext) (p : Worker) (s : bool) (w : W) :
  careful s p ->
  (s = true -> stop_event w = true) ->
  careful (stop_event (snd (step ext p w))) (fst (step ext p w)).
Proof.
  intros Hp Hs.
  destruct p as [r | e | k | k | o k | gc v k | m en gc rc v k | m en pc v k];
    simpl in *; eauto using careful_weaken.
  destruct r; auto.
Qed.

(** A careful worker that returns a molecule leaves the event set. *)
Lemma careful_run (ext : Ext) (p : Worker) :
  forall (s : bool) (w : W),
    careful s p ->
    (s = true -> stop_event w = true) ->
    is_winner (fst (run ext p w)) = true ->
    stop_event (snd (run ext p w)) = true.
Proof.
  induction p as [r | e | k IH | k IH | o k IH | gc v k IH
                 | m en gc rc v k IH | m en pc v k IH];
    intros s w Hp Hs Hwin; simpl in *;
    try solve [eauto | discriminate | destruct r; [auto | discriminate]
              | apply (IH true); auto].
Qed.

(** A worker that quits does so in a run too. *)
Lemma quits_run (ext : Ext) (p : Worker) (w : W) :
  quits p -> stop_event w = true ->
  fst (run ext p w) = Ok None /\ stop_event (snd (run ext p w)) = true.
Proof.
  intros Hq Hw. rewrite <- run_step.
  specialize (Hq ext w Hw).
  split.
  - rewrite Hq. reflexivity.
  - apply run_keeps_set. destruct p; simpl in *; auto.
Qed.

(** The workers of the driver are careful and quit. *)
Lemma worker_fresh (t : Task GenerateConfig) (flag : bool) :
  slot_ok flag (false, (worker_of_task t : Worker)).
Proof.
  destruct t as [[[c re] pe] cycle].
  unfold slot_ok, worker_of_task, single_molecule_generator. simpl.
  split; [| split; [intros ext w Hw; simpl; rewrite Hw; reflexivity | reflexivity]].
  intros [|]; simpl; [exact I |].
  unfold claim_success, report_failure, print, pass, stop_event_is_set,
    stop_event_set, propagate.
  repeat (simpl; intros;
          match goal with
          | |- context [if ?b then _ else _] => destruct b eqn:?
          | |- context [match ?r with Ok _ => _ | Raised _ => _ end] => destruct r
          | |- forall _, _ => intro
          end); simpl; auto.
Qed.

Lemma step_keeps_set {R : Type} (ext : Ext) (p : Prog Molecule GenerateConfig R) (w : W) :
  stop_event w = true -> stop_event (snd (step ext p w)) = true.
Proof. destruct p; simpl; auto. Qed.

Lemma slot_ok_weaken (s s' : bool)
    (x : Slot Molecule GenerateConfig (option Molecule)) :
  (s = true -> s' = true) -> slot_ok s x -> slot_ok s' x.
Proof.
  unfold slot_ok. destruct (fst x); [apply careful_weaken | auto].
Qed.

Lemma filter_update_nth {A : Type} (f : A -> bool) (l : list A) :
  forall (i : nat) (x y : A),
    nth_error l i = Some x ->
    (List.length (filter f (update_nth i y l)) + Nat.b2n (f x)
     = List.length (filter f l) + Nat.b2n (f y))%nat.
Proof.
  induction l as [| a l IH]; intros [| i] x y H; simpl in *; try discriminate.
  - inversion H; subst. destruct (f x), (f y); simpl; lia.
  - specialize (IH i x y H). destruct (f a); simpl; lia.
Qed.

Lemma Forall_update_nth {A : Type} (P : A -> Prop) (l : list A) :
  forall (i : nat) (y : A), Forall P l -> P y -> Forall P (update_nth i y l).
Proof.
  induction l as [| a l IH]; intros [| i] y Hl Hy; simpl; auto;
    inversion Hl; subst; constructor; auto.
Qed.

(** While the event is unset nobody has returned a molecule. *)
Lemma no_winner_when_unset (ss : Slots) :
  Forall (slot_ok false) ss -> List.length (filter won ss) = 0%nat.
Proof.
  induction 1 as [| [started p] rest Hx _ IH]; simpl; [reflexivity |].
  replace (won (started, p)) with false; [exact IH |].
  unfold slot_ok, won in *; simpl in *.
  destruct started.
  - destruct p as [[m |] | | | | | | |]; simpl in *; auto; discriminate.
  - destruct Hx as (_ & _ & Hfin). destruct p; simpl in *; auto; discriminate.
Qed.

Lemma won_finished (started : bool) (p : Worker) :
  won (started, p) = true -> finished p = true.
Proof. unfold won; simpl. destruct p as [[m |] | | | | | | |]; auto; discriminate. Qed.

(** In a pool of one process every action keeps the state in order. *)
Lemma pool_step_inv (exts : nat -> Ext) (i : nat)
    (st : PoolState Molecule GenerateConfig (option Molecule)) :
  pool_inv st -> pool_inv (pool_step 1 exts i st).
Proof.
  intros [Hok Hload]. unfold pool_step.
  destruct (nth_error (slots st) i) as [[started p] |] eqn:Hnth; [| split; auto].
  destruct (finished p) eqn:Hfin; [split; auto |].
  destruct (started || (in_flight (slots st) <? 1)%nat) eqn:Hgo; [| split; auto].
  pose proof (fun s => careful_step (exts i) p s (shared st)) as Hstep.
  pose proof (step_keeps_set (exts i) p (shared st)) as Hmono.
  assert (Hslot : slot_ok (stop_event (shared st)) (started, p)).
  { apply (proj1 (Forall_forall _ _) Hok). eapply nth_error_In; eauto. }
  assert (Hq : started = false -> stop_event (shared st) = true ->
               fst (step (exts i) p (shared st)) = Return None).
  { intros -> Hflag. destruct Hslot as (_ & Hquits & _). apply Hquits, Hflag. }
  pose proof (filter_update_nth busy (slots st) i (started, p)) as Hbusy.
  pose proof (filter_update_nth won (slots st) i (started, p)) as Hwon.
  destruct (step (exts i) p (shared st)) as [p' w'] eqn:Hs. simpl in *.
  specialize (Hbusy (true, p') Hnth). specialize (Hwon (true, p') Hnth).
  assert (Hnotwon : won (started, p) = false).
  { destruct (won (started, p)) eqn:Hw; [| reflexivity].
    apply won_finished in Hw. congruence. }
  rewrite Hnotwon in Hwon.
  assert (Hnew : (Nat.b2n (busy (true, p')) + Nat.b2n (won (true, p')) <= 1)%nat).
  { destruct (won (true, p')) eqn:Hw.
    - apply won_finished in Hw. unfold busy; simpl. rewrite Hw. simpl. lia.
    - destruct (busy (true, p')); simpl; lia. }
  unfold pool_inv, load in *. simpl. unfold Slot in *.
  unfold busy at 2 in Hbusy. simpl in Hbusy. rewrite Hfin in Hbusy.
  destruct started; simpl in *.
  - split.
    + apply Forall_update_nth.
      * eapply Forall_impl; [| exact Hok].
        intros x Hx. eapply slot_ok_weaken; eauto.
      * unfold slot_ok in *; simpl in *. apply (Hstep _ Hslot). auto.
    + lia.
  - apply Nat.ltb_lt in Hgo. unfold in_flight in Hgo.
    destruct Hslot as (Hcareful & Hquits & _).
    destruct (stop_event (shared st)) eqn:Hflag.
    + rewrite (Hq eq_refl eq_refl) in *.
      split.
      * apply Forall_update_nth.
        -- eapply Forall_impl; [| exact Hok].
           intros x Hx. eapply slot_ok_weaken; eauto.
        -- exact I.
      * change (busy (true, @Return Molecule GenerateConfig _ None)) with false in Hbusy.
        change (won (true, @Return Molecule GenerateConfig _ None)) with false in Hwon.
        simpl in *. lia.
    + pose proof (no_winner_when_unset _ Hok) as Hnone.
      split.
      * apply Forall_update_nth.
        -- eapply Forall_impl; [| exact Hok].
           intros x Hx. eapply slot_ok_weaken; [| exact Hx]. discriminate.
        -- unfold slot_ok; simpl. apply (Hstep false Hcareful). discriminate.
      * unfold Slot in *. lia.
Qed.

Lemma run_schedule_inv (exts : nat -> Ext) (sched : list nat) :
  forall st : PoolState Molecule GenerateConfig (option Molecule),
    pool_inv st -> pool_inv (run_schedule 1 exts sched st).
Proof.
  unfold run_schedule.
  induction sched as [| i rest IH]; intros st Hst; simpl; [exact Hst |].
  apply IH, pool_step_inv, Hst.
Qed.

(** A fresh batch of the driver is in order. *)
Lemma fresh_batch_inv (tasks : list (Task GenerateConfig)) :
  pool_inv (mkPool (map (fun p : Worker => (false, p)) (map worker_of_task tasks))
                   (mkWorld false []) []).
Proof.
  assert (Hok : forall flag,
             Forall (slot_ok flag)
               (map (fun p : Worker => (false, p)) (map worker_of_task tasks))).
  { intro flag. induction tasks as [| t rest IH]; simpl; constructor; auto.
    apply worker_fresh. }
  split; simpl; [apply Hok |].
  unfold load. rewrite (no_winner_when_unset _ (Hok false)).
  replace (filter busy _) with (@nil (Slot Molecule GenerateConfig (option Molecule)));
    [simpl; lia |].
  clear Hok. induction tasks as [| t rest IH]; simpl; auto.
Qed.

Lemma load_cons (x : Slot Molecule GenerateConfig (option Molecule)) (ss : Slots) :
  load (x :: ss) = (Nat.b2n (busy x) + Nat.b2n (won x) + load ss)%nat.
Proof. unfold load. simpl. destruct (busy x), (won x); simpl; lia. Qed.

(** Running the workers under way to their end keeps the batch in order and
    leaves nobody under way. *)
Lemma drain_started_inv (exts : nat -> Ext) (ss : Slots) :
  forall (i : nat) (w : W) (fo : list nat),
    Forall (slot_ok (stop_event w)) ss ->
    Forall (slot_ok (stop_event (world_of (drain_started exts i ss w fo))))
           (results_of (drain_started exts i ss w fo)) /\
    filter busy (results_of (drain_started exts i ss w fo)) = [] /\
    (load (results_of (drain_started exts i ss w fo)) <= load ss)%nat /\
    (stop_event w = true ->
     stop_event (world_of (drain_started exts i ss w fo)) = true).
Proof.
  unfold results_of, world_of.
  induction ss as [| [started p] rest IH]; intros i w fo Hok; simpl.
  - repeat split; auto.
  - inversion Hok as [| x l Hhead Hrest]; subst.
    destruct (started && negb (finished p)) eqn:Hbusy; simpl.
    + apply andb_true_iff in Hbusy. destruct Hbusy as [-> Hfin].
      pose proof (careful_run (exts i) p (stop_event w) w Hhead (fun H => H)) as Hwin.
      pose proof (run_keeps_set (exts i) p w) as Hmono.
      destruct (run (exts i) p w) as [r w1] eqn:Hrun. simpl in *.
      assert (Hrest1 : Forall (slot_ok (stop_event w1)) rest).
      { eapply Forall_impl; [| exact Hrest].
        intros x Hx. eapply slot_ok_weaken; eauto. }
      specialize (IH (S i) w1 (fo ++ [i]) Hrest1).
      destruct (drain_started exts (S i) rest w1 (fo ++ [i])) as [[rest' w'] fo'].
      simpl in *. destruct IH as (Hok' & Hnobusy & Hload & Hmono').
      split; [| split; [| split]].
      * constructor; [| exact Hok'].
        unfold slot_ok; simpl.
        destruct r as [[m |] | e]; simpl; auto.
      * replace (busy (true, propagate r)) with false; [exact Hnobusy |].
        unfold busy; simpl. destruct r; reflexivity.
      * rewrite !load_cons.
        replace (busy (true, propagate r)) with false
          by (unfold busy; simpl; destruct r; reflexivity).
        replace (busy (true, p)) with true
          by (unfold busy; simpl; rewrite Hfin; reflexivity).
        destruct (won (true, propagate r)); simpl; lia.
      * auto.
    + specialize (IH (S i) w fo Hrest).
      destruct (drain_started exts (S i) rest w fo) as [[rest' w'] fo'].
      simpl in *. destruct IH as (Hok' & Hnobusy & Hload & Hmono').
      split; [| split; [| split]].
      * constructor; [| exact Hok'].
        eapply slot_ok_weaken; eauto.
      * unfold busy at 1; simpl. rewrite Hbusy. exact Hnobusy.
      * rewrite !load_cons. lia.
      * exact Hmono'.
Qed.

Lemma winners_cons (r : Result (option Molecule))
    (rs : list (Result (option Molecule))) :
  winners (r :: rs) = (Nat.b2n (is_winner r) + winners rs)%nat.
Proof. unfold winners. simpl. destruct (is_winner r); reflexivity. Qed.

Lemma finished_result (ext : Ext) (started : bool) (p : Worker) (w : W) :
  finished p = true ->
  snd (run ext p w) = w /\ is_winner (fst (run ext p w)) = won (started, p).
Proof.
  destruct p as [[m |] | | | | | | |]; simpl; intro H; try discriminate; auto.
Qed.

(** Running what is left one task after the other: with the event set the
    winners are those there are already; with the event unset there is at
    most one. *)
Lemma complete_bound (exts : nat -> Ext) (ss : Slots) :
  forall (i : nat) (w : W) (fo : list nat),
    Forall (slot_ok (stop_event w)) ss ->
    filter busy ss = [] ->
    (stop_event w = true ->
     winners (results_of (complete exts i ss w fo)) = List.length (filter won ss)) /\
    (stop_event w = false ->
     (winners (results_of (complete exts i ss w fo)) <= 1)%nat).
Proof.
  unfold results_of.
  induction ss as [| [started p] rest IH]; intros i w fo Hok Hbusy; simpl.
  - split; intros _; unfold winners; simpl; lia.
  - inversion Hok as [| x l Hhead Hrest]; subst.
    assert (Hb : busy (started, p) = false /\ filter busy rest = []).
    { simpl in Hbusy. destruct (busy (started, p)); [discriminate | auto]. }
    destruct Hb as [Hb Hbrest].
    destruct started.
    + assert (Hfin : finished p = true).
      { unfold busy in Hb; simpl in Hb. destruct (finished p); auto. }
      destruct (finished_result (exts i) true p w Hfin) as [Hw Hwin].
      destruct (run (exts i) p w) as [r w1]. simpl in *. subst w1.
      specialize (IH (S i) w (if finished p then fo else fo ++ [i]) Hrest Hbrest).
      destruct (complete exts (S i) rest w _) as [[rs w'] fo']. simpl in *.
      rewrite winners_cons, Hwin.
      destruct IH as [IHset IHunset].
      split; intro Hflag.
      * rewrite (IHset Hflag). destruct (won (true, p)); reflexivity.
      * rewrite Hflag in Hhead.
        pose proof (no_winner_when_unset [(true, p)]
                      (Forall_cons _ Hhead (Forall_nil _))) as Hnone.
        simpl in Hnone. destruct (won (true, p)); [discriminate |].
        simpl. apply IHunset, Hflag.
    + destruct Hhead as (Hcareful & Hquits & Hfin). simpl in *.
      assert (Hnotwon : won (false, p) = false).
      { destruct (won (false, p)) eqn:Hw; [| reflexivity].
        apply won_finished in Hw. congruence. }
      rewrite Hnotwon.
      pose proof (quits_run (exts i) p w Hquits) as Hq.
      pose proof (careful_run (exts i) p false w Hcareful) as Hwin.
      destruct (run (exts i) p w) as [r w1]. simpl in *.
      rewrite Hfin.
      pose proof (IH (S i) w1 (fo ++ [i])) as IH1.
      destruct (complete exts (S i) rest w1 (fo ++ [i])) as [[rs w'] fo'].
      simpl in *. rewrite winners_cons.
      split; intro Hflag.
      * destruct (Hq Hflag) as [-> Hw1]. simpl.
        rewrite Hflag, <- Hw1 in Hrest.
        apply (proj1 (IH1 Hrest Hbrest)), Hw1.
      * rewrite Hflag in Hrest.
        pose proof (no_winner_when_unset rest Hrest) as Hnone.
        destruct (stop_event w1) eqn:Hw1.
        -- assert (Hrest1 : Forall (slot_ok true) rest).
           { eapply Forall_impl; [| exact Hrest].
             intros x Hx. eapply slot_ok_weaken; [| exact Hx]. auto. }
           rewrite (proj1 (IH1 Hrest1 Hbrest) eq_refl), Hnone.
           destruct (is_winner r); simpl; lia.
        -- destruct (is_winner r) eqn:Hr.
           ++ specialize (Hwin ltac:(discriminate) eq_refl). discriminate.
           ++ simpl. apply (proj2 (IH1 Hrest Hbrest)). reflexivity.
Qed.

(** Workers that do not overlap, in a pool of one process or without a
    schedule that interleaves them, return at most one molecule. *)
Lemma one_at_a_time_one_winner (processes : nat) (exts : nat -> Ext)
    (sched : list nat) (tasks : list (Task GenerateConfig)) :
  processes = 1%nat \/ sched = [] ->
  (winners (results_of (run_pool processes exts sched
                          (map (worker_of_task (Molecule := Molecule)) tasks)))
   <= 1)%nat.
Proof.
  intro Hseq. unfold run_pool.
  set (st0 := mkPool _ _ _).
  assert (Hinv : pool_inv (run_schedule processes exts sched st0)).
  { destruct Hseq as [-> | ->].
    - apply run_schedule_inv, fresh_batch_inv.
    - apply fresh_batch_inv. }
  destruct Hinv as [Hok Hload].
  set (st := run_schedule processes exts sched st0) in *.
  pose proof (drain_started_inv exts (slots st) 0 (shared st) (finish_order st) Hok)
    as (Hok' & Hnobusy & Hload' & _).
  unfold results_of, world_of in *.
  destruct (drain_started exts 0 (slots st) (shared st) (finish_order st))
    as [[ss w] fo]. simpl in *.
  destruct (complete_bound exts ss 0 w fo Hok' Hnobusy) as [Hset Hunset].
  unfold results_of in *.
  destruct (stop_event w) eqn:Hflag.
  - rewrite (Hset eq_refl). unfold load in *. lia.
  - apply Hunset. reflexivity.
Qed.

(** C5, amended: a worker that reaches the success point looks at the event
    once more.  If it finds the event set, it returns [None] instead of its
    molecule; if it finds it unset, it sets the event and returns its
    molecule.  So a worker whose sibling sets the event before that last
    look returns [None], and one whose sibling sets it after the look
    returns its molecule all the same.  When the workers of a batch do not
    overlap, in a pool of one process or when they run one after the other,
    at most one of them returns a molecule. *)
Theorem one_winner_without_overlap (processes : nat) (exts : nat -> Ext)
    (sched : list nat) (tasks : list (Task GenerateConfig))
    (ext : Ext) (v : Z) (m : Molecule)
    (events : list (Event Molecule GenerateConfig)) :
  processes = 1%nat \/ sched = [] ->
  (forall (config : ConfigManager GenerateConfig) (re : QMMethod)
          (pe : option QMMethod) (cycle : Z) (mol optimized final : Molecule)
          (n : nat),
     generate_random_molecule ext (generate config) (verbosity (general config))
     = Ok mol ->
     iterative_optimization ext mol re (generate config) (refine config)
       (verbosity (general config)) = Ok optimized ->
     (if postprocess (general config)
      then postprocess_mol ext optimized pe (postprocess_cfg config)
             (verbosity (general config)) = Ok final
      else final = optimized) ->
     fst (run_overtaken n ext (single_molecule_generator config re pe cycle)
            (mkWorld false events))
     = (if (looks (log (snd (steps n ext
                               (single_molecule_generator config re pe cycle)
                               (mkWorld false events))))
            <? looks events + 2)%nat
        then Ok None else Ok (Some final)) /\
     fst (run ext (single_molecule_generator config re pe cycle)
            (mkWorld false events)) = Ok (Some final) /\
     stop_event (snd (run ext (single_molecule_generator config re pe cycle)
                        (mkWorld false events))) = true) /\
  step ext (claim_success v m) (mkWorld true events)
  = (Return None, mkWorld true (events ++ [EvIsSet true])) /\
  fst (run ext (claim_success v m) (mkWorld false events)) = Ok (Some m) /\
  stop_event (snd (run ext (claim_success v m) (mkWorld false events))) = true /\
  (winners (results_of (run_pool processes exts sched
                          (map (worker_of_task (Molecule := Molecule)) tasks)))
   <= 1)%nat.
Proof.
  intro Hseq.
  split.
  { intros config re pe cycle mol optimized final n Hgen Hopt Hpost.
    apply (overtaken_worker ext config re pe cycle events mol optimized final n
             Hgen Hopt Hpost). }
  split; [reflexivity |].
  destruct (claim_success_run ext v m (mkWorld false events)) as [_ Hunset].
  destruct (Hunset eq_refl) as [Hres Hflag].
  split; [exact Hres |]. split; [exact Hflag |].
  apply one_at_a_time_one_winner, Hseq.
Qed.

End PoolFacts.

(** ** The coordinator *)

Section CoordinatorFacts.

Context {Molecule GenerateConfig : Type}.

Local Abbreviation Config := (ConfigManager GenerateConfig).
Local Abbreviation Pf := (Platform Molecule GenerateConfig).
Local Abbreviation St := (Driver Molecule GenerateConfig).
Local Abbreviation Tr := (Trace Molecule GenerateConfig).

(** Restoring the saved verbosity gives the configuration back. *)
Lemma assign_verbosity_restore (c : Config) (v : Z) :
  assign_verbosity (assign_verbosity c v) (verbosity (general c)) = c.
Proof. destruct c as [g gen r p x o]; destruct g; reflexivity. Qed.

Lemma batch_config_cases (c : Config) (nc : Z) :
  batch_config c nc = c \/ batch_config c nc = assign_verbosity c 0.
Proof. unfold batch_config. destruct (_ && _); auto. Qed.

(** The scan over the results, started at position [i]. *)
Lemma first_success_from_spec (results : list (option Molecule)) (i : Z) :
  match first_success_from i results with
  | Some (n, m) =>
      exists k : nat,
        n = i + Z.of_nat k + 1 /\
        nth_error results k = Some (Some m) /\
        forall j : nat, (j < k)%nat -> nth_error results j = Some None
  | None => Forall (fun r => r = None) results
  end.
Proof.
  revert i. induction results as [| r rest IH]; intro i; simpl.
  - constructor.
  - destruct r as [m |].
    + exists 0%nat. repeat split; [lia | intros j Hj; lia].
    + specialize (IH (i + 1)).
      destruct (first_success_from (i + 1) rest) as [[n m] |].
      * destruct IH as (k & Hn & Hk & Hbefore).
        exists (S k). repeat split; [lia | exact Hk |].
        intros [| j] Hj; simpl; [reflexivity | apply Hbefore; lia].
      * constructor; [reflexivity | exact IH].
Qed.

Lemma clamp_warnings_app (a b : list Tr) :
  clamp_warnings (a ++ b) = (clamp_warnings a + clamp_warnings b)%nat.
Proof. unfold clamp_warnings. rewrite filter_app, length_app. reflexivity. Qed.

Lemma pool_degrees_app (a b : list Tr) :
  pool_degrees (a ++ b) = pool_degrees a ++ pool_degrees b.
Proof.
  induction a as [| t a IH]; simpl; [reflexivity |].
  destruct t; simpl; rewrite IH; reflexivity.
Qed.

Lemma worker_configs_app (a b : list Tr) :
  worker_configs (a ++ b) = worker_configs a ++ worker_configs b.
Proof.
  induction a as [| t a IH]; simpl; [reflexivity |].
  destruct t; simpl; rewrite IH; try reflexivity.
  rewrite app_assoc. reflexivity.
Qed.

Lemma setups_app (a b : list Tr) :
  setups (a ++ b) = setups a ++ setups b.
Proof.
  induction a as [| t a IH]; simpl; [reflexivity |].
  destruct t; simpl; rewrite IH; reflexivity.
Qed.

Lemma worker_configs_batch (c : Config) (nc : Z) (re : QMMethod)
    (pe : option QMMethod) :
  Forall (fun c' => c' = batch_config c nc)
    (map (fun t : Task GenerateConfig => fst (fst (fst t))) (batch_tasks c nc re pe)).
Proof.
  unfold batch_tasks. rewrite map_map. simpl.
  apply Forall_forall. intros c' Hin. apply in_map_iff in Hin.
  destruct Hin as (cycle & Heq & _). auto.
Qed.

(** The tasks do not depend on the verbosity the workers see. *)
Lemma max_cycles_batch (c : Config) (nc : Z) :
  max_cycles (general (batch_config c nc)) = max_cycles (general c).
Proof. unfold batch_config. destruct (_ && _); reflexivity. Qed.

Lemma batch_trace_app (nc : Z) (c : Config) (a b : list Tr) :
  batch_trace nc c a -> batch_trace nc c b -> batch_trace nc c (a ++ b).
Proof.
  intros (Ha1 & Ha2 & Ha3 & Ha4) (Hb1 & Hb2 & Hb3 & Hb4).
  unfold batch_trace.
  rewrite clamp_warnings_app, setups_app, pool_degrees_app, worker_configs_app.
  rewrite Ha1, Ha2, Hb1, Hb2.
  repeat split; auto; apply Forall_app; auto.
Qed.

(** The result of the loop body, read off the answer of the pool. *)
Lemma generate_target_result (pf : Pf) (nc : Z) (re : QMMethod)
    (pe : option QMMethod) (k : Z) (s : St) :
  fst (generate_target pf nc re pe k s) =
  match starmap pf k nc (batch_tasks (config s) nc re pe) with
  | Raised e => Raised e
  | Ok results =>
      match first_success results with
      | None => Raised (RuntimeError (exhausted_message k))
      | Some (_, m) => Ok m
      end
  end.
Proof.
  unfold generate_target, batch_tasks, batch_config, mbind, get_config,
    set_config, emit, when, lift, ret, raise.
  destruct s as [c tr]; simpl.
  destruct ((nc >? 1) && (verbosity (general c) >? 0)) eqn:Hpar; simpl.
  - destruct (starmap pf k nc _) as [results | e]; simpl; [| reflexivity].
    destruct (first_success results) as [[n m] |]; simpl; [| reflexivity].
    destruct (verbosity (general c) >? 0); reflexivity.
  - destruct (verbosity (general c) =? 0) eqn:Hv; simpl;
      (destruct (starmap pf k nc _) as [results | e]; simpl; [| reflexivity]);
      rewrite ?Hv; simpl;
      (destruct (first_success results) as [[n m] |]; simpl; [| reflexivity]);
      destruct (verbosity (general c) >? 0); reflexivity.
Qed.

Lemma batch_trace_print (nc : Z) (c : Config) (os : list (Output Molecule GenerateConfig)) :
  batch_trace nc c (map TPrint os).
Proof.
  induction os as [| o os IH].
  - repeat split; constructor.
  - change (map TPrint (o :: os)) with ([TPrint o] ++ map TPrint os).
    apply batch_trace_app; [| exact IH]. repeat split; constructor.
Qed.

Lemma batch_trace_pool (nc : Z) (c : Config) (re : QMMethod) (pe : option QMMethod) :
  batch_trace nc c ([TPool nc (batch_tasks c nc re pe)] : list Tr).
Proof.
  repeat split; simpl; auto.
  rewrite app_nil_r. apply worker_configs_batch.
Qed.

(** What the loop body leaves behind: prints and one pool of [nc] processes
    whose workers get the batch configuration; the configuration object is
    back to what it was unless the pool raised. *)
Lemma generate_target_state (pf : Pf) (nc : Z) (re : QMMethod)
    (pe : option QMMethod) (k : Z) (s : St) :
  (exists added,
     trace (snd (generate_target pf nc re pe k s)) = trace s ++ added /\
     batch_trace nc (config s) added) /\
  match starmap pf k nc (batch_tasks (config s) nc re pe) with
  | Ok _ => config (snd (generate_target pf nc re pe k s)) = config s
  | Raised _ =>
      config (snd (generate_target pf nc re pe k s)) = batch_config (config s) nc
  end.
Proof.
  pose proof (batch_trace_pool nc (config s) re pe) as Hpool.
  assert (Hprint : forall os, batch_trace nc (config s) (map TPrint os))
    by apply batch_trace_print.
  unfold generate_target, mbind, get_config, set_config, emit, when, lift,
    ret, raise.
  unfold batch_tasks, batch_config in *.
  destruct s as [c tr]; simpl in *.
  destruct ((nc >? 1) && (verbosity (general c) >? 0)) eqn:Hpar; simpl.
  - destruct (starmap pf k nc _) as [results | e]; simpl.
    + rewrite assign_verbosity_restore.
      destruct (first_success results) as [[n m] |]; simpl.
      * destruct (verbosity (general c) >? 0); simpl; split; auto;
          repeat rewrite <- app_assoc; eexists; (split; [reflexivity |]).
        -- apply (batch_trace_app nc c [_]); [apply (Hprint [_]) |].
           apply (batch_trace_app nc c [_]); [exact Hpool |].
           apply (Hprint [_; _; _]).
        -- apply (batch_trace_app nc c [_]); [apply (Hprint [_]) |].
           apply (batch_trace_app nc c [_]); [exact Hpool |].
           apply (Hprint [_]).
      * split; auto.
        repeat rewrite <- app_assoc; eexists; (split; [reflexivity |]).
        apply (batch_trace_app nc c [_]); [apply (Hprint [_]) |].
        apply (batch_trace_app nc c [_]); [exact Hpool |].
        apply (Hprint [_]).
    + split; auto.
      repeat rewrite <- app_assoc; eexists; (split; [reflexivity |]).
      apply (batch_trace_app nc c [_]); [apply (Hprint [_]) | exact Hpool].
  - destruct (verbosity (general c) =? 0) eqn:Hv; simpl;
      (destruct (starmap pf k nc _) as [results | e]; simpl);
      rewrite ?Hv; simpl;
      try (destruct (first_success results) as [[n m] |]; simpl);
      try (destruct (verbosity (general c) >? 0); simpl);
      split; auto;
      repeat rewrite <- app_assoc; eexists; (split; [reflexivity |]);
      repeat first
        [ exact Hpool
        | apply (Hprint [_]) | apply (Hprint [_; _]) | apply (Hprint [_; _; _])
        | apply (batch_trace_app nc c [_]) ].
Qed.

Lemma batch_trace_nil (nc : Z) (c : Config) : batch_trace nc c ([] : list Tr).
Proof. repeat split; constructor. Qed.

(** The loop over the targets: its trace, the configuration object it leaves
    behind, and the length of the list it returns. *)
Lemma generate_targets_state (pf : Pf) (nc : Z) (re : QMMethod)
    (pe : option QMMethod) (targets : list Z) :
  forall (acc : list Molecule) (s : St),
    (exists added,
       trace (snd (generate_targets pf nc re pe targets acc s)) = trace s ++ added /\
       batch_trace nc (config s) added) /\
    (config (snd (generate_targets pf nc re pe targets acc s)) = config s \/
     (config (snd (generate_targets pf nc re pe targets acc s))
      = batch_config (config s) nc /\
      exists k e,
        In k targets /\
        starmap pf k nc (batch_tasks (config s) nc re pe) = Raised e /\
        fst (generate_targets pf nc re pe targets acc s) = Raised e)) /\
    (forall mols,
       fst (generate_targets pf nc re pe targets acc s) = Ok mols ->
       config (snd (generate_targets pf nc re pe targets acc s)) = config s /\
       exists new, mols = acc ++ new /\ List.length new = List.length targets).
Proof.
  induction targets as [| k rest IH]; intros acc s.
  - simpl. split; [| split].
    + exists []. rewrite app_nil_r. split; [reflexivity | apply batch_trace_nil].
    + left; reflexivity.
    + intros mols H. inversion H; subst. split; [reflexivity |].
      exists []. rewrite app_nil_r. auto.
  - simpl. unfold mbind.
    pose proof (generate_target_result pf nc re pe k s) as Hres.
    pose proof (generate_target_state pf nc re pe k s) as [(add1 & Htr1 & Hbt1) Hcfg].
    destruct (generate_target pf nc re pe k s) as [[m | e] s1] eqn:E; simpl in *.
    + assert (Hc : config s1 = config s).
      { destruct (starmap pf k nc _); [exact Hcfg | discriminate]. }
      destruct (IH (acc ++ [m]) s1) as ((add2 & Htr2 & Hbt2) & Hend & Hok).
      rewrite Hc in *.
      split; [| split].
      * exists (add1 ++ add2). rewrite Htr2, Htr1, app_assoc.
        split; [reflexivity | apply batch_trace_app; assumption].
      * destruct Hend as [Hend | (Hend & k' & e' & Hin & Hpool & Hr)];
          [left; exact Hend | right].
        split; [exact Hend |]. exists k', e'. auto.
      * intros mols H. destruct (Hok mols H) as (Hcfg' & new & Hnew & Hlen).
        split; [exact Hcfg' |].
        exists (m :: new). rewrite <- app_assoc in Hnew. simpl in *.
        split; [exact Hnew | lia].
    + split; [| split].
      * exists add1. auto.
      * destruct (starmap pf k nc _) as [results | e'] eqn:Hpool;
          [left; exact Hcfg | right].
        split; [exact Hcfg |]. exists k, e'. inversion Hres; subst. auto.
      * discriminate.
Qed.

(** The loop body always creates its pool. *)
Lemma generate_target_pool (pf : Pf) (nc : Z) (re : QMMethod)
    (pe : option QMMethod) (k : Z) (s : St) :
  In nc (pool_degrees (trace (snd (generate_target pf nc re pe k s)))).
Proof.
  unfold generate_target, mbind, get_config, set_config, emit, when, lift,
    ret, raise.
  destruct s as [c tr]; simpl.
  destruct ((nc >? 1) && (verbosity (general c) >? 0)) eqn:Hpar; simpl;
    try (destruct (verbosity (general c) =? 0) eqn:Hv; simpl);
    (destruct (starmap pf k nc _) as [results | e]; simpl);
    rewrite ?Hv; simpl;
    try (destruct (first_success results) as [[n m] |]; simpl);
    try (destruct (verbosity (general c) >? 0); simpl);
    repeat rewrite pool_degrees_app; simpl;
    repeat (apply in_or_app; simpl; auto; left).
Qed.

Lemma generate_targets_pool (pf : Pf) (nc : Z) (re : QMMethod)
    (pe : option QMMethod) (targets : list Z) (acc : list Molecule) (s : St) :
  targets <> [] ->
  In nc (pool_degrees (trace (snd (generate_targets pf nc re pe targets acc s)))).
Proof.
  destruct targets as [| k rest]; [congruence | intros _].
  simpl. unfold mbind.
  pose proof (generate_target_pool pf nc re pe k s) as Hin.
  destruct (generate_target pf nc re pe k s) as [[m | e] s1]; simpl in *; auto.
  destruct (generate_targets_state pf nc re pe rest (acc ++ [m]) s1)
    as ((added & Htr & _) & _).
  rewrite Htr, pool_degrees_app. apply in_or_app; auto.
Qed.

(** Past the gate and the engine set-up, a run is the loop over the targets,
    started after at most one warning about clamped cores. *)
Lemma generator_reached (version : string) (pf : Pf) (c : Config) :
  reaches_pool_stage pf c = true ->
  exists re pe s1,
    config s1 = c /\
    clamp_warnings (trace s1)
    = (if parallel (general c) >? cpu_count pf then 1 else 0)%nat /\
    pool_degrees (trace s1) = [] /\
    worker_configs (trace s1) = [] /\
    generator version pf (start c) =
    match generate_targets pf (Z.min (cpu_count pf) (parallel (general c)))
            re pe (range (num_molecules (general c))) [] s1 with
    | (Ok mols, s2) => (Ok (Some mols, 0), s2)
    | (Raised e, s2) => (Raised e, s2)
    end.
Proof.
  unfold reaches_pool_stage, engines_ready. intro H.
  apply andb_true_iff in H. destruct H as [Hpc Hready].
  apply negb_true_iff in Hpc.
  unfold generator, setup, start, mbind, get_config, emit, when, lift, ret.
  simpl. rewrite Hpc.
  destruct (setup_engines (refine_engine (refine c)) c _ _) as [re | e] eqn:Hre;
    [| discriminate].
  destruct (verbosity (general c) >? 0) eqn:Hv; simpl; rewrite Hre; simpl;
    destruct (postprocess (general c)) eqn:Hpp; simpl;
    try (destruct (setup_engines (postprocess_engine (postprocess_cfg c)) c _ _)
           as [pe | e] eqn:Hpe; [| discriminate]; simpl);
    destruct (parallel (general c) >? cpu_count pf) eqn:Hclamp; simpl;
    try (destruct (Z.min (cpu_count pf) (parallel (general c)) >? 1) eqn:Hmin; simpl);
    eexists _, _, (mkDriver c _); simpl;
    (split; [reflexivity |]); (split; [| split; [| split; [| reflexivity]]]);
    reflexivity.
Qed.

(** Stopped at the gate or at the engine set-up, a run creates no pool,
    raises no warning and leaves the configuration alone. *)
Lemma generator_not_reached (version : string) (pf : Pf) (c : Config) :
  reaches_pool_stage pf c = false ->
  pool_degrees (trace (snd (generator version pf (start c)))) = [] /\
  clamp_warnings (trace (snd (generator version pf (start c)))) = 0%nat /\
  worker_configs (trace (snd (generator version pf (start c)))) = [] /\
  config (snd (generator version pf (start c))) = c.
Proof.
  unfold reaches_pool_stage, engines_ready. intro H.
  unfold generator, setup, start, mbind, get_config, emit, when, lift, ret.
  simpl.
  destruct (print_config (general c)) eqn:Hpc; simpl in *.
  - destruct (verbosity (general c) >? 0); simpl; auto.
  - destruct (setup_engines (refine_engine (refine c)) c _ _) as [re | e] eqn:Hre.
    + destruct (postprocess (general c)) eqn:Hpp; [| discriminate].
      destruct (setup_engines (postprocess_engine (postprocess_cfg c)) c _ _)
        as [pe | e] eqn:Hpe; [discriminate |].
      destruct (verbosity (general c) >? 0); simpl; rewrite Hre; simpl;
        rewrite Hpe; simpl; auto.
    + destruct (verbosity (general c) >? 0); simpl; rewrite Hre; simpl; auto.
Qed.

(** *** Texts *)

Lemma string_of_Z_nonempty (z : Z) : string_of_Z z <> EmptyString.
Proof.
  unfold string_of_Z, NilZero.string_of_int, NilZero.string_of_uint.
  destruct (Z.to_int z) as [d | d]; destruct d; simpl; discriminate.
Qed.

Lemma substring_infix (a n b : string) :
  substring (String.length a) (String.length n) (a ++ n ++ b)%string = n.
Proof.
  induction a as [| ch a IH]; simpl; [| exact IH].
  induction n as [| ch n IH]; simpl.
  - destruct b; reflexivity.
  - rewrite IH. reflexivity.
Qed.

(** A text mentions what it was put together from. *)
Lemma mentions_infix (a n b : string) :
  n <> EmptyString -> mentions n (a ++ n ++ b)%string = true.
Proof.
  intro Hn. unfold mentions.
  destruct (index 0 n (a ++ n ++ b)%string) eqn:E; [reflexivity |].
  exfalso.
  apply (index_correct3 0 (String.length a) n _ E Hn (Nat.le_0_l _)).
  apply substring_infix.
Qed.

Lemma first_success_none (results : list (option Molecule)) (i : Z) :
  Forall (fun r => r = None) results -> first_success_from i results = None.
Proof.
  intro H. revert i. induction H as [| r rest Hr _ IH]; intro i; simpl.
  - reflexivity.
  - subst r. apply IH.
Qed.

(** A run returns nothing, or a molecule for every target. *)
Lemma generator_returns_full_list (version : string) (pf : Pf) (c : Config)
    (mols : list Molecule) (code : Z) :
  fst (generator version pf (start c)) = Ok (Some mols, code) ->
  List.length mols = Z.to_nat (num_molecules (general c)).
Proof.
  destruct (reaches_pool_stage pf c) eqn:Hreach.
  - destruct (generator_reached version pf c Hreach)
      as (re & pe & s1 & _ & _ & _ & _ & Hgen).
    rewrite Hgen.
    pose proof (generate_targets_state pf (Z.min (cpu_count pf) (parallel (general c)))
                  re pe (range (num_molecules (general c))) [] s1)
      as (_ & _ & Hok).
    destruct (generate_targets pf _ re pe _ [] s1) as [[mols' | e] s2];
      simpl in *; intro H; inversion H; subst.
    destruct (Hok mols eq_refl) as (_ & new & -> & Hlen).
    simpl. rewrite Hlen. unfold range. rewrite length_map, length_seq.
    reflexivity.
  - unfold reaches_pool_stage, engines_ready in Hreach.
    unfold generator, setup, start, mbind, get_config, emit, when, lift, ret.
    simpl.
    destruct (print_config (general c)) eqn:Hpc; simpl in *.
    + destruct (verbosity (general c) >? 0); simpl; discriminate.
    + destruct (setup_engines (refine_engine (refine c)) c _ _) as [re | e] eqn:Hre.
      * destruct (postprocess (general c)) eqn:Hpp; [| discriminate].
        destruct (setup_engines (postprocess_engine (postprocess_cfg c)) c _ _)
          as [pe | e] eqn:Hpe; [discriminate |].
        destruct (verbosity (general c) >? 0); simpl; rewrite Hre; simpl;
          rewrite Hpe; simpl; discriminate.
      * destruct (verbosity (general c) >? 0); simpl; rewrite Hre; simpl;
          discriminate.
Qed.

(** *** The claims about the coordinator *)

(** C1: of the results of a batch, taken in the order of the cycles, the
    coordinator accepts the first that is not [None]: every cycle before it
    returned [None].  The order in which the workers finished is no input of
    the choice; only when all results are [None] is nothing accepted. *)
Theorem lowest_index_wins (pf : Pf) (nc : Z) (re : QMMethod)
    (pe : option QMMethod) (k : Z) (s : St) (results : list (option Molecule)) :
  starmap pf k nc (batch_tasks (config s) nc re pe) = Ok results ->
  match fst (generate_target pf nc re pe k s) with
  | Ok m =>
      exists i : nat,
        nth_error results i = Some (Some m) /\
        forall j : nat, (j < i)%nat -> nth_error results j = Some None
  | Raised _ => Forall (fun r => r = None) results
  end.
Proof.
  intro Hpool. rewrite generate_target_result, Hpool.
  unfold first_success.
  pose proof (first_success_from_spec results 0) as Hspec.
  destruct (first_success_from 0 results) as [[n m] |].
  - destruct Hspec as (i & _ & Hi & Hbefore). exists i. auto.
  - exact Hspec.
Qed.

(** C2, amended: when every worker of the batch of a target returns [None],
    the coordinator raises a [RuntimeError] whose text names the target,
    counted from one, and says that all cycles failed; the number of cycles
    is not part of the text.  The loop over the targets ends there, whatever
    it had accepted before, so the run returns no list: a list that is
    returned has a molecule for every target.  The configuration is as it
    was. *)
Theorem exhausted_batch_is_fatal (pf : Pf) (nc : Z) (re : QMMethod)
    (pe : option QMMethod) (k : Z) (rest : list Z) (acc : list Molecule)
    (s : St) (results : list (option Molecule)) :
  starmap pf k nc (batch_tasks (config s) nc re pe) = Ok results ->
  Forall (fun r => r = None) results ->
  fst (generate_target pf nc re pe k s)
  = Raised (RuntimeError (exhausted_message k)) /\
  fst (generate_targets pf nc re pe (k :: rest) acc s)
  = Raised (RuntimeError (exhausted_message k)) /\
  config (snd (generate_targets pf nc re pe (k :: rest) acc s)) = config s /\
  mentions (string_of_Z (k + 1)) (exhausted_message k) = true /\
  (forall version c mols code,
     fst (generator version pf (start c)) = Ok (Some mols, code) ->
     List.length mols = Z.to_nat (num_molecules (general c))).
Proof.
  intros Hpool Hnone.
  assert (Htarget : fst (generate_target pf nc re pe k s)
                    = Raised (RuntimeError (exhausted_message k))).
  { rewrite generate_target_result, Hpool. unfold first_success.
    rewrite (first_success_none results 0 Hnone). reflexivity. }
  pose proof (generate_target_state pf nc re pe k s) as [_ Hcfg].
  rewrite Hpool in Hcfg.
  simpl. unfold mbind.
  destruct (generate_target pf nc re pe k s) as [[m | e] s1]; simpl in *;
    [discriminate |].
  inversion Htarget; subst e.
  split; [reflexivity |]. split; [reflexivity |]. split; [exact Hcfg |].
  split; [| intros version c; apply generator_returns_full_list].
  unfold exhausted_message. apply mentions_infix, string_of_Z_nonempty.
Qed.

(** C8, amended: in a run that gets past the [print_config] gate and the
    engine set-up, every pool has min(configured parallelism, available
    cores) processes, and the warning about the clamped cores is raised once
    if the configured parallelism exceeds the available cores and not at all
    otherwise.  A run stopped before that creates no pool and raises no
    warning, whatever the parallelism. *)
Theorem pool_degree_and_clamp_warning (version : string) (pf : Pf) (c : Config) :
  Forall (fun p => p = Z.min (parallel (general c)) (cpu_count pf))
         (pool_degrees (run_trace version pf c)) /\
  (if reaches_pool_stage pf c && (0 <? num_molecules (general c))
   then In (Z.min (parallel (general c)) (cpu_count pf))
           (pool_degrees (run_trace version pf c))
   else pool_degrees (run_trace version pf c) = []) /\
  clamp_warnings (run_trace version pf c)
  = (if reaches_pool_stage pf c
     then if parallel (general c) >? cpu_count pf then 1 else 0
     else 0)%nat.
Proof.
  unfold run_trace. rewrite (Z.min_comm (parallel (general c))).
  destruct (reaches_pool_stage pf c) eqn:Hreach.
  - destruct (generator_reached version pf c Hreach)
      as (re & pe & s1 & Hc & Hwarn & Hdeg & _ & Hgen).
    set (nc := Z.min (cpu_count pf) (parallel (general c))) in *.
    set (targets := range (num_molecules (general c))) in *.
    pose proof (generate_targets_state pf nc re pe targets [] s1)
      as ((added & Htr & Hw & _ & Hpools & _) & _).
    pose proof (generate_targets_pool pf nc re pe targets [] s1) as Hin.
    assert (Hs : trace (snd (generator version pf (start c)))
                 = trace (snd (generate_targets pf nc re pe targets [] s1))).
    { rewrite Hgen. destruct (generate_targets pf nc re pe targets [] s1)
        as [[mols | e] s2]; reflexivity. }
    rewrite Hs. clear Hs Hgen.
    split; [| split].
    + rewrite Htr, pool_degrees_app, Hdeg. exact Hpools.
    + simpl. destruct (0 <? num_molecules (general c)) eqn:Hn.
      * apply Hin. subst targets. unfold range. apply Z.ltb_lt in Hn.
        destruct (Z.to_nat (num_molecules (general c))) eqn:Hz;
          [lia | discriminate].
      * apply Z.ltb_ge in Hn.
        assert (Hr : targets = []).
        { subst targets. unfold range.
          replace (Z.to_nat (num_molecules (general c))) with 0%nat by lia.
          reflexivity. }
        rewrite Hr. simpl. exact Hdeg.
    + rewrite Htr, clamp_warnings_app, Hwarn, Hw. lia.
  - destruct (generator_not_reached version pf c Hreach) as (Hdeg & Hwarn & _ & _).
    rewrite Hdeg, Hwarn. simpl. auto.
Qed.

Lemma same_but_verbosity_refl (c : Config) : same_but_verbosity c c.
Proof.
  unfold same_but_verbosity. destruct c as [g gen r p x o]; destruct g; reflexivity.
Qed.

Lemma same_but_verbosity_batch (c : Config) (nc : Z) :
  same_but_verbosity c (batch_config c nc).
Proof.
  destruct (batch_config_cases c nc) as [H | H]; rewrite H.
  - apply same_but_verbosity_refl.
  - apply assign_verbosity_restore.
Qed.

(** C9, amended: the coordinator writes one field of the configuration, the
    verbosity.  The workers of every batch are handed the configuration with
    the verbosity set to 0 when more than one core is used and the verbosity
    is positive, and the configuration itself otherwise; all other fields
    are those of the start.  When the batch has returned the saved verbosity
    is written back, so the run leaves the configuration as it found it,
    unless the pool itself raised. *)
Theorem only_verbosity_is_assigned (version : string) (pf : Pf) (c : Config) :
  Forall (fun c' => c' = batch_config c (num_cores pf c))
         (worker_configs (run_trace version pf c)) /\
  same_but_verbosity c (batch_config c (num_cores pf c)) /\
  same_but_verbosity c (config_after version pf c) /\
  (config_after version pf c = c \/
   exists re pe k e,
     starmap pf k (num_cores pf c) (batch_tasks c (num_cores pf c) re pe)
     = Raised e /\
     fst (generator version pf (start c)) = Raised e).
Proof.
  unfold run_trace, config_after, num_cores.
  set (nc := Z.min (cpu_count pf) (parallel (general c))).
  assert (Hbatch := same_but_verbosity_batch c nc).
  destruct (reaches_pool_stage pf c) eqn:Hreach.
  - destruct (generator_reached version pf c Hreach)
      as (re & pe & s1 & Hc & _ & _ & Hcfgs & Hgen).
    fold nc in Hgen.
    set (targets := range (num_molecules (general c))) in *.
    pose proof (generate_targets_state pf nc re pe targets [] s1)
      as ((added & Htr & _ & _ & _ & Hworkers) & Hend & _).
    rewrite Hc in *.
    assert (Hs : snd (generator version pf (start c))
                 = snd (generate_targets pf nc re pe targets [] s1)).
    { rewrite Hgen. destruct (generate_targets pf nc re pe targets [] s1)
        as [[mols | e] s2]; reflexivity. }
    rewrite Hs.
    split; [| split; [exact Hbatch | split]].
    + rewrite Htr, worker_configs_app, Hcfgs. exact Hworkers.
    + destruct Hend as [Hend | (Hend & _)]; rewrite Hend;
        [apply same_but_verbosity_refl | exact Hbatch].
    + destruct Hend as [Hend | (_ & k & e & _ & Hpool & Hr)];
        [left; exact Hend | right].
      exists re, pe, k, e. split; [exact Hpool |].
      rewrite Hgen.
      destruct (generate_targets pf nc re pe targets [] s1) as [[mols | e'] s2];
        simpl in *; [discriminate | inversion Hr; reflexivity].
  - destruct (generator_not_reached version pf c Hreach) as (_ & _ & Hcfgs & Hc).
    rewrite Hcfgs, Hc.
    split; [constructor | split; [exact Hbatch | split]].
    + apply same_but_verbosity_refl.
    + left; reflexivity.
Qed.

(** C10: with [print_config] set, the generator prints the configuration
    (after the header, when the verbosity is positive) and returns
    [(None, 0)]: no engine is set up and no pool is created, so no worker
    runs and no molecule is generated. *)
Theorem print_config_returns_at_once (version : string) (pf : Pf) (c : Config) :
  print_config (general c) = true ->
  generator version pf (start c)
  = (Ok (None, 0),
     mkDriver c ((if verbosity (general c) >? 0
                  then [TPrint (OHeader version)] else [])
                 ++ [TPrint (OConfig c)])) /\
  setups (run_trace version pf c) = [] /\
  pool_degrees (run_trace version pf c) = [].
Proof.
  intro Hpc.
  unfold run_trace, generator, start, mbind, get_config, emit, when, ret.
  simpl. rewrite Hpc.
  destruct (verbosity (general c) >? 0); simpl; auto.
Qed.

End CoordinatorFacts.

(** ** Charge assignment *)

Section AssignerFacts.

Variable lanthanide_charge : Z -> Z.
Variable lanthanide_uhf : Z -> Z.

Local Abbreviation assign := (set_random_charge lanthanide_charge lanthanide_uhf).

Lemma find_no_lanthanide (ati : list Z) :
  Forall (fun atom => is_lanthanide atom = false) ati ->
  find is_lanthanide ati = None.
Proof.
  induction 1 as [| atom rest Hatom _ IH]; simpl; [reflexivity |].
  rewrite Hatom. exact IH.
Qed.


(** The draw picks one of the candidates. *)
Lemma choose_in (rnd : nat) (candidates : list Z) :
  candidates <> [] -> In (choose rnd candidates) candidates.
Proof.
  intro Hne. unfold choose. apply nth_In.
  apply Nat.mod_upper_bound. destruct candidates; simpl; congruence.
Qed.

(** C3: for a sequence without a lanthanide, the unpaired-electron count is
    0 and the charge has the parity of the total electron count: -1 or +1
    for an odd count, -2, 0 or +2 for an even one, so that an even number of
    electrons is left. *)
Theorem standard_branch_parity (rnd : nat) (ati : list Z) :
  ati <> [] ->
  Forall (fun atom => is_lanthanide atom = false) ati ->
  snd (assign rnd ati) = 0 /\
  Z.even (fst (assign rnd ati)) = Z.even (total_electrons ati) /\
  Z.even (total_electrons ati - fst (assign rnd ati)) = true /\
  (if Z.even (total_electrons ati)
   then In (fst (assign rnd ati)) [-2; 0; 2]
   else In (fst (assign rnd ati)) [-1; 1]).
Proof.
  intros _ Hstd. unfold set_random_charge.
  rewrite (find_no_lanthanide ati Hstd). simpl.
  assert (Hin : In (choose rnd (charge_candidates (total_electrons ati)))
                   (charge_candidates (total_electrons ati))).
  { apply choose_in. unfold charge_candidates.
    destruct (Z.even (total_electrons ati)); discriminate. }
  set (charge := choose rnd (charge_candidates (total_electrons ati))) in *.
  rewrite Z.even_sub.
  unfold charge_candidates in Hin.
  destruct (Z.even (total_electrons ati)) eqn:Hev; simpl in Hin.
  - destruct Hin as [H | [H | [H | []]]]; rewrite <- H; simpl;
      repeat split; auto.
  - destruct Hin as [H | [H | []]]; rewrite <- H; simpl;
      repeat split; auto.
Qed.


End AssignerFacts.

(** With the observed entries for tables, the model passes the nine cases of
    the test, whatever the draw. *)
Lemma test_set_random_charge_passes (rnd : nat) :
  forallb
    (fun case : list Z * list Z * Z =>
       let '(atom_types, expected_charges, expected_uhf) := case in
       test_set_random_charge (table_of observed_charge) (table_of observed_uhf)
         rnd atom_types expected_charges expected_uhf)
    test_cases = true.
Proof.
  assert (Hodd : existsb (Z.eqb (choose rnd [-1; 1])) [-1; 1] = true).
  { pose proof (choose_in rnd [-1; 1]) as Hin.
    destruct Hin as [H | [H | []]]; [discriminate | | ]; rewrite <- H; reflexivity. }
  assert (Heven : existsb (Z.eqb (choose rnd [-2; 0; 2])) [-2; 0; 2] = true).
  { pose proof (choose_in rnd [-2; 0; 2]) as Hin.
    destruct Hin as [H | [H | [H | []]]]; [discriminate | | | ];
      rewrite <- H; reflexivity. }
  unfold test_cases, test_set_random_charge, set_random_charge.
  simpl in *.
  change (charge_candidates 13) with [-1; 1].
  change (charge_candidates 14) with [-2; 0; 2].
  change (charge_candidates 15) with [-1; 1].
  change (charge_candidates 16) with [-2; 0; 2].
  rewrite Hodd, Heven. reflexivity.
Qed.

(** * Further properties *)

(** ** Cycle workers, continued *)

Section WorkerMore.

Context {Molecule GenerateConfig : Type}.

Local Abbreviation Ext := (Externals Molecule GenerateConfig).
Local Abbreviation Config := (ConfigManager GenerateConfig).
Local Abbreviation W := (World Molecule GenerateConfig).
Local Abbreviation Ev := (Event Molecule GenerateConfig).

Lemma printed_app (a b : list Ev) : printed (a ++ b) = printed a ++ printed b.
Proof.
  induction a as [| e a IH]; simpl; [reflexivity |].
  destruct e; simpl; rewrite IH; reflexivity.
Qed.

Lemma calls_app (a b : list Ev) : calls (a ++ b) = calls a ++ calls b.
Proof.
  induction a as [| e a IH]; simpl; [reflexivity |].
  destruct e; simpl; rewrite IH; reflexivity.
Qed.

(** Case analysis on everything a worker branches on. *)
Ltac worker_cases :=
  repeat (simpl;
          match goal with
          | H : generate_random_molecule ?x ?a ?b = _
            |- context [generate_random_molecule ?x ?a ?b] => rewrite H
          | H : iterative_optimization ?x ?a ?b ?c ?d ?f = _
            |- context [iterative_optimization ?x ?a ?b ?c ?d ?f] => rewrite H
          | H : postprocess_mol ?x ?a ?b ?c ?d = _
            |- context [postprocess_mol ?x ?a ?b ?c ?d] => rewrite H
          | H : postprocess ?g = _ |- context [postprocess ?g] => rewrite H
          | H : is_RuntimeError ?e = _ |- context [is_RuntimeError ?e] => rewrite H
          | H : (?x =? ?y) = _ |- context [?x =? ?y] => rewrite H
          | H : (?x >? ?y) = _ |- context [?x >? ?y] => rewrite H
          | |- context [generate_random_molecule ?x ?a ?b] =>
              destruct (generate_random_molecule x a b) eqn:?
          | |- context [iterative_optimization ?x ?a ?b ?c ?d ?f] =>
              destruct (iterative_optimization x a b c d f) eqn:?
          | |- context [postprocess_mol ?x ?a ?b ?c ?d] =>
              destruct (postprocess_mol x a b c d) eqn:?
          | |- context [is_RuntimeError ?e] => destruct (is_RuntimeError e) eqn:?
          | |- context [postprocess ?g] => destruct (postprocess g) eqn:?
          | |- context [?x =? ?y] => destruct (x =? y) eqn:?
          | |- context [?x >? ?y] => destruct (x >? y) eqn:?
          end).

Ltac unfold_worker :=
  unfold single_molecule_generator, claim_success, report_failure, print, pass,
    stop_event_is_set, stop_event_set, propagate.

(** X1: A worker that is not interrupted sets the event exactly when it returns
    a molecule, and then it had found the event unset; when it returns
    [None] or raises, the event is as it found it. *)
Theorem worker_sets_event_iff_it_wins (ext : Ext) (config : Config)
    (re : QMMethod) (pe : option QMMethod) (cycle : Z) (w : W) :
  (is_winner (fst (run ext (single_molecule_generator config re pe cycle) w)) = true
   <-> stop_event w = false /\
       stop_event (snd (run ext (single_molecule_generator config re pe cycle) w))
       = true) /\
  (is_winner (fst (run ext (single_molecule_generator config re pe cycle) w)) = false
   -> stop_event (snd (run ext (single_molecule_generator config re pe cycle) w))
      = stop_event w).
Proof.
  pose proof (worker_run_cases ext config re pe cycle w) as H. revert H.
  destruct (fst (run ext (single_molecule_generator config re pe cycle) w))
    as [[m |] | e]; simpl; intro H.
  - split; [split; auto | discriminate].
  - split; [| auto]. split; [discriminate |].
    intros [Hw Hs]. congruence.
  - split; [| auto]. split; [discriminate |].
    intros [Hw Hs]. congruence.
Qed.

(** X2: A worker calls its collaborators in order and each at most once: the
    postprocessor only when it is switched on, and only on what the
    refinement returned; stopped at once, it calls nobody. *)
Theorem worker_calls_in_order (ext : Ext) (config : Config) (re : QMMethod)
    (pe : option QMMethod) (cycle : Z) (w : W) :
  calls (log (snd (run ext (single_molecule_generator config re pe cycle) w)))
  = calls (log w)
    ++ (if stop_event w then [] else expected_calls ext config re pe).
Proof.
  destruct w as [flag events]. destruct flag.
  - simpl. rewrite calls_app. reflexivity.
  - unfold_worker. unfold expected_calls. cbv zeta.
    worker_cases; simpl; repeat rewrite calls_app; simpl;
      repeat rewrite <- app_assoc; simpl; rewrite ?app_nil_r; reflexivity.
Qed.

(** X3: With the event unset and every collaborator returning, a worker that
    is not interrupted returns the molecule of the last stage that ran, the
    postprocessed one when postprocessing is switched on and the refined
    one otherwise, and leaves the event set. *)
Theorem worker_success (ext : Ext) (config : Config) (re : QMMethod)
    (pe : option QMMethod) (cycle : Z) (w : W) (mol optimized final : Molecule) :
  stop_event w = false ->
  generate_random_molecule ext (generate config) (verbosity (general config))
  = Ok mol ->
  iterative_optimization ext mol re (generate config) (refine config)
    (verbosity (general config)) = Ok optimized ->
  (if postprocess (general config)
   then postprocess_mol ext optimized pe (postprocess_cfg config)
          (verbosity (general config)) = Ok final
   else final = optimized) ->
  fst (run ext (single_molecule_generator config re pe cycle) w) = Ok (Some final) /\
  stop_event (snd (run ext (single_molecule_generator config re pe cycle) w)) = true.
Proof.
  intros Hflag Hgen Hopt Hpost. destruct w as [flag events].
  simpl in Hflag. subst flag.
  unfold_worker.
  destruct (postprocess (general config)) eqn:Hpp; [| subst final];
    worker_cases; auto.
Qed.

(** X4: Only a [RuntimeError] of the refinement or of the postprocessing is
    turned into [None].  Any exception of the generation, which is called
    outside the [try], and any other exception of the two later stages
    leaves the worker as it was raised; the event is not set. *)
Theorem other_exceptions_escape (ext : Ext) (config : Config) (re : QMMethod)
    (pe : option QMMethod) (cycle : Z) (w : W) (e : Exn) :
  stop_event w = false ->
  escapes ext config re pe e ->
  fst (run ext (single_molecule_generator config re pe cycle) w) = Raised e /\
  stop_event (snd (run ext (single_molecule_generator config re pe cycle) w)) = false.
Proof.
  intros Hflag Hesc. destruct w as [flag events].
  simpl in Hflag. subst flag.
  unfold_worker.
  destruct Hesc as [Hgen | [(mol & Hgen & Hopt & He)
                           | (mol & opt & Hgen & Hopt & Hpp & Hpost & He)]];
    cbv zeta in *; worker_cases; auto.
Qed.

(** X5: At verbosity 0 a worker prints one tick when it starts its attempt and
    nothing else, whether it succeeds, fails or loses; stopped at once it
    prints nothing. *)
Theorem quiet_worker_prints_one_tick (ext : Ext) (config : Config)
    (re : QMMethod) (pe : option QMMethod) (cycle : Z) (w : W) :
  verbosity (general config) = 0 ->
  printed (log (snd (run ext (single_molecule_generator config re pe cycle) w)))
  = printed (log w) ++ (if stop_event w then [] else [OInline "✔"]).
Proof.
  intro Hv. destruct w as [flag events]. destruct flag.
  - simpl. rewrite printed_app. simpl. rewrite app_nil_r. reflexivity.
  - unfold_worker. rewrite Hv.
    worker_cases; simpl; repeat rewrite printed_app; simpl;
      repeat rewrite <- app_assoc; simpl; rewrite ?app_nil_r; reflexivity.
Qed.

(** X6: At positive verbosity a failed refinement is reported with the number
    of the cycle, counted from one; the exception itself is shown only
    above verbosity 1. *)
Theorem failed_refinement_is_reported (ext : Ext) (config : Config)
    (re : QMMethod) (pe : option QMMethod) (cycle : Z) (w : W)
    (mol : Molecule) (e : Exn) :
  0 < verbosity (general config) ->
  stop_event w = false ->
  generate_random_molecule ext (generate config) (verbosity (general config))
  = Ok mol ->
  iterative_optimization ext mol re (generate config) (refine config)
    (verbosity (general config)) = Raised e ->
  is_RuntimeError e = true ->
  printed (log (snd (run ext (single_molecule_generator config re pe cycle) w)))
  = printed (log w)
    ++ [OText ("Cycle " ++ string_of_Z (cycle + 1) ++ ":")%string;
        OText ("Refinement failed for cycle " ++ string_of_Z (cycle + 1) ++ ".")%string]
    ++ (if verbosity (general config) >? 1 then [OException e] else []).
Proof.
  intros Hv Hflag Hgen Hopt He. destruct w as [flag events].
  simpl in Hflag. subst flag.
  assert (Hv0 : (verbosity (general config) =? 0) = false) by (apply Z.eqb_neq; lia).
  assert (Hv1 : (verbosity (general config) >? 0) = true) by (apply Z.gtb_lt; lia).
  unfold_worker.
  destruct (verbosity (general config) >? 1) eqn:Hv2;
    worker_cases; simpl; repeat rewrite printed_app; simpl;
    repeat rewrite <- app_assoc; simpl; reflexivity.
Qed.

End WorkerMore.

(** ** The coordinator, continued *)

Section CoordinatorMore.

Context {Molecule GenerateConfig : Type}.

Local Abbreviation Config := (ConfigManager GenerateConfig).
Local Abbreviation Pf := (Platform Molecule GenerateConfig).
Local Abbreviation St := (Driver Molecule GenerateConfig).
Local Abbreviation Tr := (Trace Molecule GenerateConfig).

(** X7: [setup_engines] returns an engine exactly when the name is "xtb" or
    "orca" and the path look-up of that engine returns a path that is not
    empty; the engine is of the kind named and holds that path. *)
Theorem setup_engines_ok_iff (engine_type : string) (c : Config)
    (xtb_path_func orca_path_func : string -> Result (option string))
    (engine : QMMethod) :
  setup_engines engine_type c xtb_path_func orca_path_func = Ok engine <->
  (engine_type = "xtb" /\
   exists path,
     xtb_path_func (xtb_path (xtb c)) = Ok (Some path) /\
     path <> EmptyString /\ engine = XTB path) \/
  (engine_type = "orca" /\
   exists path,
     orca_path_func (orca_path (orca c)) = Ok (Some path) /\
     path <> EmptyString /\ engine = ORCA path).
Proof.
  unfold setup_engines.
  destruct (String.eqb_spec engine_type "xtb") as [-> | Hx].
  - split.
    + intro H. left. split; [reflexivity |].
      destruct (xtb_path_func (xtb_path (xtb c))) as [[path |] | e];
        try discriminate.
      * destruct path as [| ch rest]; simpl in H; [discriminate |].
        inversion H; subst. eexists; repeat split; discriminate.
      * destruct (is_ImportError e); discriminate.
    + intros [(_ & path & Hf & Hne & ->) | (Ho & _)]; [| discriminate].
      rewrite Hf. destruct path; [congruence | reflexivity].
  - destruct (String.eqb_spec engine_type "orca") as [-> | Ho].
    + split.
      * intro H. right. split; [reflexivity |].
        destruct (orca_path_func (orca_path (orca c))) as [[path |] | e];
          try discriminate.
        -- destruct path as [| ch rest]; simpl in H; [discriminate |].
           inversion H; subst. eexists; repeat split; discriminate.
        -- destruct (is_ImportError e); discriminate.
      * intros [(Hx' & _) | (_ & path & Hf & Hne & ->)]; [discriminate |].
        rewrite Hf. destruct path; [congruence | reflexivity].
    + split; [discriminate |].
      intros [(H & _) | (H & _)]; congruence.
Qed.

(** How the path look-up of the engine [name] makes the set-up fail. *)
Lemma lookup_failure (name : string) (answer : Result (option string))
    (make : string -> QMMethod) (e : Exn) :
  match answer with
  | Ok (Some path) =>
      if falsy (Some path) then Raised (ImportError (name ++ " not found."))
      else Ok (make path)
  | Ok None => Raised (ImportError (name ++ " not found."))
  | Raised e' =>
      if is_ImportError e' then Raised (ImportError (name ++ " not found."))
      else Raised e'
  end = Raised e <->
  (answer = Raised e /\ is_ImportError e = false) \/
  (e = ImportError (name ++ " not found.") /\
   (answer = Ok None \/ answer = Ok (Some EmptyString) \/
    exists e', answer = Raised e' /\ is_ImportError e' = true)).
Proof.
  split.
  - destruct answer as [[path |] | e'].
    + destruct path as [| ch rest]; simpl; intro H; inversion H; auto.
    + intro H; inversion H; auto.
    + destruct (is_ImportError e') eqn:He; intro H; inversion H; subst; eauto 7.
  - intros [[-> He] | [-> [-> | [-> | (e' & -> & He)]]]];
      try rewrite He; reflexivity.
Qed.

(** X8: When [setup_engines] fails, and with what: an unknown name gives the
    [NotImplementedError], whatever the path look-ups would do; for a known
    engine an exception of its look-up that is no [ImportError] comes out
    as it was raised, and an [ImportError] of the look-up, no path and an
    empty path all give the [ImportError] "<name> not found."; nothing
    else fails. *)
Theorem setup_engines_failure (engine_type : string) (c : Config)
    (xtb_path_func orca_path_func : string -> Result (option string))
    (e : Exn) :
  setup_engines engine_type c xtb_path_func orca_path_func = Raised e <->
  (engine_type <> "xtb" /\ engine_type <> "orca" /\
   e = NotImplementedError "Engine not implemented.") \/
  (engine_type = "xtb" /\
   ((xtb_path_func (xtb_path (xtb c)) = Raised e /\ is_ImportError e = false) \/
    (e = ImportError "xtb not found." /\
     (xtb_path_func (xtb_path (xtb c)) = Ok None \/
      xtb_path_func (xtb_path (xtb c)) = Ok (Some EmptyString) \/
      exists e', xtb_path_func (xtb_path (xtb c)) = Raised e' /\
                 is_ImportError e' = true)))) \/
  (engine_type = "orca" /\
   ((orca_path_func (orca_path (orca c)) = Raised e /\ is_ImportError e = false) \/
    (e = ImportError "orca not found." /\
     (orca_path_func (orca_path (orca c)) = Ok None \/
      orca_path_func (orca_path (orca c)) = Ok (Some EmptyString) \/
      exists e', orca_path_func (orca_path (orca c)) = Raised e' /\
                 is_ImportError e' = true)))).
Proof.
  unfold setup_engines.
  destruct (String.eqb_spec engine_type "xtb") as [-> | Hx].
  - rewrite (lookup_failure "xtb" (xtb_path_func (xtb_path (xtb c))) XTB e).
    split.
    + intro H. right; left. split; [reflexivity | exact H].
    + intros [(H & _) | [(_ & H) | (H & _)]];
        [congruence | exact H | discriminate].
  - destruct (String.eqb_spec engine_type "orca") as [-> | Ho].
    + rewrite (lookup_failure "orca" (orca_path_func (orca_path (orca c))) ORCA e).
      split.
      * intro H. right; right. split; [reflexivity | exact H].
      * intros [(_ & H & _) | [(H & _) | (_ & H)]];
          [congruence | discriminate | exact H].
    + split.
      * intro H. inversion H. left. auto.
      * intros [(_ & _ & ->) | [(H & _) | (H & _)]]; [reflexivity | |]; congruence.
Qed.

Lemma warnings_app (a b : list Tr) : warnings (a ++ b) = warnings a ++ warnings b.
Proof.
  induction a as [| t a IH]; simpl; [reflexivity |].
  destruct t; simpl; rewrite IH; reflexivity.
Qed.

Lemma pool_tasks_app (a b : list Tr) :
  pool_tasks (a ++ b) = pool_tasks a ++ pool_tasks b.
Proof.
  induction a as [| t a IH]; simpl; [reflexivity |].
  destruct t; simpl; rewrite IH; reflexivity.
Qed.

(** Past the gate and the engine set-up, a run is the loop over the
    targets, started on the prelude with the engines that were set up. *)
Lemma generator_unfolds (version : string) (pf : Pf) (c : Config) :
  reaches_pool_stage pf c = true ->
  exists re pe,
    engines_of pf c re pe /\
    generator version pf (start c) =
    match generate_targets pf (num_cores pf c) re pe
            (range (num_molecules (general c))) []
            (mkDriver c (prelude_trace version pf c)) with
    | (Ok mols, s2) => (Ok (Some mols, 0), s2)
    | (Raised e, s2) => (Raised e, s2)
    end.
Proof.
  unfold reaches_pool_stage, engines_ready, engines_of, prelude_trace, num_cores.
  intro H. apply andb_true_iff in H. destruct H as [Hpc Hready].
  apply negb_true_iff in Hpc.
  unfold generator, setup, start, mbind, get_config, emit, when, lift, ret.
  simpl. rewrite Hpc.
  destruct (setup_engines (refine_engine (refine c)) c _ _) as [re | e] eqn:Hre;
    [| discriminate].
  destruct (verbosity (general c) >? 0) eqn:Hv; simpl; rewrite Hre; simpl;
    destruct (postprocess (general c)) eqn:Hpp; simpl;
    try (destruct (setup_engines (postprocess_engine (postprocess_cfg c)) c _ _)
           as [pe | e] eqn:Hpe; [| discriminate]; simpl);
    destruct (parallel (general c) >? cpu_count pf) eqn:Hclamp; simpl;
    try (destruct (Z.min (cpu_count pf) (parallel (general c)) >? 1) eqn:Hmin; simpl);
    eexists _, _; (split; [split; [reflexivity | eauto] | reflexivity]).
Qed.

(** What the loop body adds to the trace: no warning, no engine set-up, and
    one pool with the tasks of the batch. *)
Lemma generate_target_adds (pf : Pf) (nc : Z) (re : QMMethod)
    (pe : option QMMethod) (k : Z) (s : St) :
  exists added,
    trace (snd (generate_target pf nc re pe k s)) = trace s ++ added /\
    warnings added = [] /\
    pool_tasks added = [batch_tasks (config s) nc re pe].
Proof.
  unfold generate_target, mbind, get_config, set_config, emit, when, lift,
    ret, raise.
  unfold batch_tasks, batch_config.
  destruct s as [c tr]; simpl.
  destruct ((nc >? 1) && (verbosity (general c) >? 0)) eqn:Hpar; simpl;
    try (destruct (verbosity (general c) =? 0) eqn:Hv; simpl);
    (destruct (starmap pf k nc _) as [results | e]; simpl);
    rewrite ?Hv; simpl;
    try (destruct (first_success results) as [[n m] |]; simpl);
    try (destruct (verbosity (general c) >? 0); simpl);
    repeat rewrite <- app_assoc; eexists; (split; [reflexivity |]);
    simpl; auto.
Qed.

Lemma generate_targets_adds (pf : Pf) (nc : Z) (re : QMMethod)
    (pe : option QMMethod) (targets : list Z) :
  forall (acc : list Molecule) (s : St),
  exists added n,
    trace (snd (generate_targets pf nc re pe targets acc s)) = trace s ++ added /\
    warnings added = [] /\
    pool_tasks added = repeat (batch_tasks (config s) nc re pe) n /\
    (n <= List.length targets)%nat /\
    (forall mols,
       fst (generate_targets pf nc re pe targets acc s) = Ok mols ->
       n = List.length targets).
Proof.
  induction targets as [| k rest IH]; intros acc s.
  - exists [], 0%nat. simpl. rewrite app_nil_r. repeat split; auto.
  - simpl. unfold mbind.
    pose proof (generate_target_result pf nc re pe k s) as Hres.
    pose proof (generate_target_state pf nc re pe k s) as [_ Hcfg].
    destruct (generate_target_adds pf nc re pe k s) as (add1 & Htr1 & Hw1 & Hp1).
    destruct (generate_target pf nc re pe k s) as [[m | e] s1] eqn:E; simpl in *.
    + assert (Hc : config s1 = config s).
      { destruct (starmap pf k nc _); [exact Hcfg | discriminate]. }
      destruct (IH (acc ++ [m]) s1) as (add2 & n & Htr2 & Hw2 & Hp2 & Hn & Hok).
      rewrite Hc in *.
      exists (add1 ++ add2), (S n).
      rewrite Htr2, Htr1, app_assoc, warnings_app, pool_tasks_app, Hw1, Hw2, Hp1, Hp2.
      repeat split; auto; [lia |].
      intros mols H. f_equal. eapply Hok; eauto.
    + exists add1, 1%nat. repeat split; auto; [lia | discriminate].
Qed.

Lemma engines_of_unique (pf : Pf) (c : Config) (re re' : QMMethod)
    (pe pe' : option QMMethod) :
  engines_of pf c re pe -> engines_of pf c re' pe' -> re = re' /\ pe = pe'.
Proof.
  unfold engines_of. intros [Hre Hpe] [Hre' Hpe'].
  split; [congruence |].
  destruct (postprocess (general c)); [| congruence].
  destruct Hpe as (x & -> & Hx). destruct Hpe' as (x' & -> & Hx'). congruence.
Qed.

Lemma range_nonpositive (n : Z) : n <= 0 -> range n = [].
Proof.
  intro H. unfold range. replace (Z.to_nat n) with 0%nat by lia. reflexivity.
Qed.

Lemma range_positive (n : Z) : 0 < n -> exists rest, range n = 0 :: rest.
Proof.
  intro H. unfold range.
  destruct (Z.to_nat n) eqn:Hn; [lia |]. simpl. eauto.
Qed.

Lemma range_length (n : Z) : List.length (range n) = Z.to_nat n.
Proof. unfold range. rewrite length_map, length_seq. reflexivity. Qed.

(** A run that stops at the gate or at the engine set-up raises no warning
    and creates no pool. *)
Lemma generator_stops_early (version : string) (pf : Pf) (c : Config) :
  reaches_pool_stage pf c = false ->
  warnings (run_trace version pf c) = [] /\
  pool_tasks (run_trace version pf c) = [].
Proof.
  unfold reaches_pool_stage, engines_ready, run_trace. intro H.
  unfold generator, setup, start, mbind, get_config, emit, when, lift, ret.
  simpl.
  destruct (print_config (general c)) eqn:Hpc; simpl in *.
  - destruct (verbosity (general c) >? 0); simpl; auto.
  - destruct (setup_engines (refine_engine (refine c)) c _ _) as [re | e] eqn:Hre.
    + destruct (postprocess (general c)) eqn:Hpp; [| discriminate].
      destruct (setup_engines (postprocess_engine (postprocess_cfg c)) c _ _)
        as [pe | e] eqn:Hpe; [discriminate |].
      destruct (verbosity (general c) >? 0); simpl; rewrite Hre; simpl;
        rewrite Hpe; simpl; auto.
    + destruct (verbosity (general c) >? 0); simpl; rewrite Hre; simpl; auto.
Qed.

Lemma prelude_warnings (version : string) (pf : Pf) (c : Config) :
  warnings (prelude_trace version pf c)
  = (if parallel (general c) >? cpu_count pf
     then [CoresClamped (parallel (general c)) (cpu_count pf) (num_cores pf c)]
     else [])
    ++ (if (num_cores pf c >? 1) && (verbosity (general c) >? 0)
        then [VerbosityDisabled] else []).
Proof.
  unfold prelude_trace. cbv zeta.
  destruct (verbosity (general c) >? 0); destruct (postprocess (general c));
    destruct (parallel (general c) >? cpu_count pf);
    destruct (num_cores pf c >? 1); reflexivity.
Qed.

Lemma prelude_pool_tasks (version : string) (pf : Pf) (c : Config) :
  pool_tasks (prelude_trace version pf c) = [].
Proof.
  unfold prelude_trace. cbv zeta.
  destruct (verbosity (general c) >? 0); destruct (postprocess (general c));
    destruct (parallel (general c) >? cpu_count pf);
    destruct (num_cores pf c >? 1); reflexivity.
Qed.

(** The trace of a run that reaches the loop: the prelude and what the loop
    adds. *)
Lemma run_trace_unfolds (version : string) (pf : Pf) (c : Config) :
  reaches_pool_stage pf c = true ->
  exists re pe added n,
    engines_of pf c re pe /\
    run_trace version pf c = prelude_trace version pf c ++ added /\
    warnings added = [] /\
    pool_tasks added = repeat (batch_tasks c (num_cores pf c) re pe) n /\
    (n <= Z.to_nat (num_molecules (general c)))%nat /\
    (forall mols code,
       fst (generator version pf (start c)) = Ok (Some mols, code) ->
       n = Z.to_nat (num_molecules (general c))).
Proof.
  intro Hreach. unfold run_trace.
  destruct (generator_unfolds version pf c Hreach) as (re & pe & Heng & Hgen).
  destruct (generate_targets_adds pf (num_cores pf c) re pe
              (range (num_molecules (general c))) []
              (mkDriver c (prelude_trace version pf c)))
    as (added & n & Htr & Hw & Hp & Hn & Hok).
  rewrite range_length in *.
  exists re, pe, added, n. rewrite Hgen.
  destruct (generate_targets pf (num_cores pf c) re pe _ [] _) as [[mols' | e] s2];
    simpl in *;
    (split; [exact Heng |]); (split; [exact Htr |]); (split; [exact Hw |]);
    (split; [exact Hp |]); (split; [exact Hn |]); intros mols code H.
  - apply (Hok mols'). reflexivity.
  - discriminate.
Qed.

(** X10: The warnings of a run, all of them: on a run that reaches the loop over
    the targets, the warning about clamped cores when more cores are asked
    for than there are, then the warning that verbosity is switched off
    when more than one core is used at positive verbosity; the loop itself
    raises none, and a run that stops before it raises none at all. *)
Theorem warnings_of_a_run (version : string) (pf : Pf) (c : Config) :
  warnings (run_trace version pf c)
  = if reaches_pool_stage pf c
    then (if parallel (general c) >? cpu_count pf
          then [CoresClamped (parallel (general c)) (cpu_count pf) (num_cores pf c)]
          else [])
         ++ (if (num_cores pf c >? 1) && (verbosity (general c) >? 0)
             then [VerbosityDisabled] else [])
    else [].
Proof.
  destruct (reaches_pool_stage pf c) eqn:Hreach.
  - destruct (run_trace_unfolds version pf c Hreach)
      as (re & pe & added & n & _ & Htr & Hw & _).
    rewrite Htr, warnings_app, Hw, app_nil_r. apply prelude_warnings.
  - apply (generator_stops_early version pf c Hreach).
Qed.

(** X11: Every batch of a run is the same list of tasks: one task per cycle,
    in the order of the cycles, each with the configuration of the batch
    and the engines set up at the start, the postprocessing engine being
    [None] when postprocessing is switched off.  There is at most one batch
    per target, and exactly one per target when the run returns. *)
Theorem batches_of_a_run (version : string) (pf : Pf) (c : Config) :
  reaches_pool_stage pf c = true ->
  exists re pe n,
    engines_of pf c re pe /\
    pool_tasks (run_trace version pf c)
    = repeat (batch_tasks c (num_cores pf c) re pe) n /\
    (n <= Z.to_nat (num_molecules (general c)))%nat /\
    (forall mols code,
       fst (generator version pf (start c)) = Ok (Some mols, code) ->
       n = Z.to_nat (num_molecules (general c))) /\
    map (fun t : Task GenerateConfig => snd t) (batch_tasks c (num_cores pf c) re pe)
    = range (max_cycles (general c)).
Proof.
  intro Hreach.
  destruct (run_trace_unfolds version pf c Hreach)
    as (re & pe & added & n & Heng & Htr & _ & Hp & Hn & Hok).
  exists re, pe, n.
  rewrite Htr, pool_tasks_app, prelude_pool_tasks, Hp.
  split; [exact Heng |]. split; [reflexivity |]. split; [exact Hn |].
  split; [exact Hok |].
  unfold batch_tasks. rewrite map_map. simpl. apply map_id.
Qed.

(** X13: When no molecule is asked for, a run that reaches the loop returns the
    empty list at once: it creates no pool. *)
Theorem no_target_no_pool (version : string) (pf : Pf) (c : Config) :
  reaches_pool_stage pf c = true ->
  num_molecules (general c) <= 0 ->
  generator version pf (start c)
  = (Ok (Some [], 0), mkDriver c (prelude_trace version pf c)) /\
  pool_tasks (run_trace version pf c) = [].
Proof.
  intros Hreach Hn. unfold run_trace.
  destruct (generator_unfolds version pf c Hreach) as (re & pe & _ & Hgen).
  rewrite Hgen, (range_nonpositive _ Hn). simpl.
  split; [reflexivity | apply prelude_pool_tasks].
Qed.

(** X15: When the pool itself raises, the exception ends the run and the saved
    verbosity is not written back: with more than one core and positive
    verbosity the configuration is left with verbosity 0. *)
Theorem pool_failure_leaves_verbosity_off (version : string) (pf : Pf)
    (c : Config) (re : QMMethod) (pe : option QMMethod) (e : Exn) :
  reaches_pool_stage pf c = true ->
  engines_of pf c re pe ->
  0 < num_molecules (general c) ->
  1 < num_cores pf c ->
  0 < verbosity (general c) ->
  starmap pf 0 (num_cores pf c) (batch_tasks c (num_cores pf c) re pe) = Raised e ->
  fst (generator version pf (start c)) = Raised e /\
  config_after version pf c = assign_verbosity c 0 /\
  verbosity (general (config_after version pf c)) = 0.
Proof.
  intros Hreach Heng Hn Hnc Hv Hpool. unfold config_after.
  destruct (generator_unfolds version pf c Hreach) as (re' & pe' & Heng' & Hgen).
  destruct (engines_of_unique pf c re re' pe pe' Heng Heng') as [<- <-].
  destruct (range_positive _ Hn) as (rest & Hrange).
  rewrite Hgen, Hrange. simpl. unfold mbind.
  set (s0 := mkDriver c (prelude_trace version pf c)).
  pose proof (generate_target_result pf (num_cores pf c) re pe 0 s0) as Hres.
  pose proof (generate_target_state pf (num_cores pf c) re pe 0 s0) as [_ Hcfg].
  simpl in Hres, Hcfg. rewrite Hpool in Hres, Hcfg.
  destruct (generate_target pf (num_cores pf c) re pe 0 s0) as [[m | e'] s1];
    simpl in *; [discriminate |].
  inversion Hres; subst e'.
  assert (Hb : batch_config c (num_cores pf c) = assign_verbosity c 0).
  { unfold batch_config.
    replace (num_cores pf c >? 1) with true by (symmetry; apply Z.gtb_lt; lia).
    replace (verbosity (general c) >? 0) with true by (symmetry; apply Z.gtb_lt; lia).
    reflexivity. }
  rewrite Hcfg, Hb. auto.
Qed.

Lemma generate_targets_result (pf : Pf) (nc : Z) (re : QMMethod)
    (pe : option QMMethod) (targets : list Z) :
  forall (acc : list Molecule) (s : St),
    fst (generate_targets pf nc re pe targets acc s)
    = match accepted_molecules pf nc (batch_tasks (config s) nc re pe) targets with
      | Ok ms => Ok (acc ++ ms)
      | Raised e => Raised e
      end.
Proof.
  induction targets as [| k rest IH]; intros acc s; simpl.
  - rewrite app_nil_r. reflexivity.
  - unfold mbind.
    pose proof (generate_target_result pf nc re pe k s) as Hres.
    pose proof (generate_target_state pf nc re pe k s) as [_ Hcfg].
    destruct (generate_target pf nc re pe k s) as [[m | e] s1]; simpl in *.
    + destruct (starmap pf k nc _) as [results | e]; [| discriminate].
      destruct (first_success results) as [[n m'] |]; [| discriminate].
      inversion Hres; subst m'.
      rewrite IH, Hcfg.
      destruct (accepted_molecules pf nc _ rest) as [ms | e]; [| reflexivity].
      rewrite <- app_assoc. reflexivity.
    + destruct (starmap pf k nc _) as [results | e'].
      * destruct (first_success results) as [[n m'] |]; [discriminate |].
        inversion Hres; reflexivity.
      * inversion Hres; reflexivity.
Qed.

(** X12: What a run returns is decided by the answers of the pool alone: the
    list holds, in the order of the targets, the first result of each batch
    that is not [None]; the run fails with the exception of the first batch
    that raises or is exhausted.  Verbosity, printing and the numbering of
    the cycles have no part in it. *)
Theorem result_of_a_run (version : string) (pf : Pf) (c : Config)
    (re : QMMethod) (pe : option QMMethod) :
  reaches_pool_stage pf c = true ->
  engines_of pf c re pe ->
  fst (generator version pf (start c))
  = match accepted_molecules pf (num_cores pf c)
            (batch_tasks c (num_cores pf c) re pe)
            (range (num_molecules (general c))) with
    | Ok ms => Ok (Some ms, 0)
    | Raised e => Raised e
    end.
Proof.
  intros Hreach Heng.
  destruct (generator_unfolds version pf c Hreach) as (re' & pe' & Heng' & Hgen).
  destruct (engines_of_unique pf c re re' pe pe' Heng Heng') as [<- <-].
  pose proof (generate_targets_result pf (num_cores pf c) re pe
                (range (num_molecules (general c))) []
                (mkDriver c (prelude_trace version pf c))) as Hres.
  rewrite Hgen. simpl in Hres.
  destruct (generate_targets pf (num_cores pf c) re pe _ [] _) as [[mols | e] s2];
    simpl in *;
    destruct (accepted_molecules pf (num_cores pf c) _ _) as [ms | e'];
    inversion Hres; reflexivity.
Qed.

(** X9: An engine that cannot be set up ends the run with the exception of
    [setup_engines], before the configuration is printed and before any
    pool is created; the postprocessing engine is set up only when
    postprocessing is switched on, after the refinement engine. *)
Theorem engine_failure_is_fatal (version : string) (pf : Pf) (c : Config)
    (e : Exn) :
  print_config (general c) = false ->
  setup_engines (refine_engine (refine c)) c (get_xtb_path pf) (get_orca_path pf)
  = Raised e \/
  ((exists re,
      setup_engines (refine_engine (refine c)) c
        (get_xtb_path pf) (get_orca_path pf) = Ok re) /\
   postprocess (general c) = true /\
   setup_engines (postprocess_engine (postprocess_cfg c)) c
     (get_xtb_path pf) (get_orca_path pf) = Raised e) ->
  fst (generator version pf (start c)) = Raised e /\
  config_after version pf c = c /\
  pool_tasks (run_trace version pf c) = [] /\
  driver_printed (run_trace version pf c)
  = (if verbosity (general c) >? 0 then [OHeader version] else []) /\
  setups (run_trace version pf c)
  = refine_engine (refine c)
    :: match setup_engines (refine_engine (refine c)) c
               (get_xtb_path pf) (get_orca_path pf) with
       | Ok _ => [postprocess_engine (postprocess_cfg c)]
       | Raised _ => []
       end.
Proof.
  intros Hpc H.
  unfold config_after, run_trace, generator, setup, start, mbind, get_config,
    emit, when, lift, ret.
  simpl. rewrite Hpc.
  destruct H as [Hre | ((re & Hre) & Hpp & Hpe)].
  - destruct (verbosity (general c) >? 0); simpl; rewrite Hre; simpl; auto.
  - destruct (verbosity (general c) >? 0); simpl; rewrite Hre; simpl;
      rewrite Hpp; simpl; rewrite Hpe; simpl; auto 6.
Qed.

(** A pool without tasks returns no result, whatever the schedule. *)
Lemma run_pool_nil {R : Type} (processes : nat)
    (exts : nat -> Externals Molecule GenerateConfig) (sched : list nat) :
  run_pool processes exts sched (@nil (Prog Molecule GenerateConfig R))
  = ([], mkWorld false [], []).
Proof.
  unfold run_pool, run_schedule. simpl.
  assert (H : forall st : PoolState Molecule GenerateConfig R,
             slots st = [] ->
             fold_left (fun s i => pool_step processes exts i s) sched st = st).
  { induction sched as [| i rest IH]; intros st Hst; simpl; [reflexivity |].
    assert (Hstep : pool_step processes exts i st = st).
    { unfold pool_step. rewrite Hst. destruct i; reflexivity. }
    rewrite Hstep. apply IH, Hst. }
  rewrite H; reflexivity.
Qed.

(** X14: Without cycles there is nothing to accept: on a platform whose pools
    run the workers, a run for at least one molecule with [max_cycles] not
    positive fails for the first target. *)
Theorem no_cycle_is_fatal (version : string) (cpus : Z)
    (xtb_path_func orca_path_func : string -> Result (option string))
    (exts : Z -> nat -> Externals Molecule GenerateConfig)
    (sched : Z -> list nat) (c : Config) :
  reaches_pool_stage
    (scheduled_platform cpus xtb_path_func orca_path_func exts sched) c = true ->
  0 < num_molecules (general c) ->
  max_cycles (general c) <= 0 ->
  1 <= cpus -> 1 <= parallel (general c) ->
  fst (generator version
         (scheduled_platform cpus xtb_path_func orca_path_func exts sched)
         (start c))
  = Raised (RuntimeError (exhausted_message 0)).
Proof.
  intros Hreach Hn Hmax Hcpus Hpar.
  set (pf := scheduled_platform cpus xtb_path_func orca_path_func exts sched) in *.
  destruct (generator_unfolds version pf c Hreach) as (re & pe & _ & Hgen).
  destruct (range_positive _ Hn) as (rest & Hrange).
  rewrite Hgen, Hrange. simpl. unfold mbind.
  set (s0 := mkDriver c (prelude_trace version pf c)).
  pose proof (generate_target_result pf (num_cores pf c) re pe 0 s0) as Hres.
  simpl in Hres. unfold batch_tasks in Hres.
  rewrite (range_nonpositive _ Hmax) in Hres. simpl in Hres.
  unfold pool_starmap in Hres.
  replace (num_cores pf c <? 1) with false in Hres
    by (symmetry; apply Z.ltb_ge; unfold num_cores; simpl; lia).
  simpl in Hres. rewrite run_pool_nil in Hres. simpl in Hres.
  destruct (generate_target pf (num_cores pf c) re pe 0 s0) as [[m | e'] s1];
    simpl in *; [discriminate |].
  inversion Hres; reflexivity.
Qed.

End CoordinatorMore.

(** ** Batches of workers, continued *)

Section PoolMore.

Context {Molecule GenerateConfig : Type}.

Local Abbreviation Ext := (Externals Molecule GenerateConfig).
Local Abbreviation W := (World Molecule GenerateConfig).
Local Abbreviation Worker := (Prog Molecule GenerateConfig (option Molecule)).
Local Abbreviation Slots := (list (Slot Molecule GenerateConfig (option Molecule))).
Local Abbreviation Pool := (PoolState Molecule GenerateConfig (option Molecule)).

Lemma wins_sound (p : Worker) : wins p -> sound p.
Proof.
  induction p as [r | e | k IH | k IH | o k IH | gc v k IH
                 | m en gc rc v k IH | m en pc v k IH];
    simpl; intro H; auto; contradiction.
Qed.

Lemma wins_step (ext : Ext) (p : Worker) (w : W) :
  wins p -> wins (fst (step ext p w)).
Proof. destruct p; simpl; intro H; try contradiction; auto. Qed.

Lemma sound_step (ext : Ext) (p : Worker) (w : W) :
  sound p -> sound (fst (step ext p w)).
Proof. destruct p; simpl; auto using wins_sound. Qed.

(** The action that sets the event is the one before the return. *)
Lemma step_sets (ext : Ext) (p : Worker) (w : W) :
  sound p ->
  stop_event w = false ->
  stop_event (snd (step ext p w)) = true ->
  wins (fst (step ext p w)).
Proof. destruct p; simpl; intros Hs Hw H; auto; congruence. Qed.

Lemma wins_run (ext : Ext) (p : Worker) :
  forall w : W, wins p -> is_winner (fst (run ext p w)) = true.
Proof.
  induction p as [r | e | k IH | k IH | o k IH | gc v k IH
                 | m en gc rc v k IH | m en pc v k IH];
    intros w H; simpl in *; try contradiction; auto.
  destruct r; [reflexivity | contradiction].
Qed.

(** A sound worker that sets the event in its run returns a molecule. *)
Lemma sound_run (ext : Ext) (p : Worker) :
  forall w : W,
    sound p ->
    stop_event w = false ->
    stop_event (snd (run ext p w)) = true ->
    is_winner (fst (run ext p w)) = true.
Proof.
  induction p as [r | e | k IH | k IH | o k IH | gc v k IH
                 | m en gc rc v k IH | m en pc v k IH];
    intros w Hs Hw H; simpl in *; try congruence; auto using wins_run.
Qed.

Lemma Exists_update_nth {A : Type} (P : A -> Prop) (l : list A) :
  forall (i : nat) (x y : A),
    nth_error l i = Some x ->
    (P x -> P y) ->
    Exists P l -> Exists P (update_nth i y l).
Proof.
  induction l as [| a l IH]; intros [| i] x y Hnth Hxy Hex; simpl in *;
    try discriminate.
  - inversion Hnth; subst. inversion Hex; subst; auto.
  - inversion Hex; subst; eauto.
Qed.

Lemma Exists_update_nth_here {A : Type} (P : A -> Prop) (l : list A) :
  forall (i : nat) (x y : A),
    nth_error l i = Some x -> P y -> Exists P (update_nth i y l).
Proof.
  induction l as [| a l IH]; intros [| i] x y Hnth Hy; simpl in *;
    try discriminate; eauto.
Qed.

Lemma pool_step_live (processes : nat) (exts : nat -> Ext) (i : nat) (st : Pool) :
  pool_live (slots st) (stop_event (shared st)) ->
  pool_live (slots (pool_step processes exts i st))
            (stop_event (shared (pool_step processes exts i st))).
Proof.
  intros [Hsound Hwins]. unfold pool_step.
  destruct (nth_error (slots st) i) as [[started p] |] eqn:Hnth; [| split; auto].
  destruct (finished p) eqn:Hfin; [split; auto |].
  destruct (started || (in_flight (slots st) <? processes)%nat); [| split; auto].
  assert (Hp : sound p).
  { apply (proj1 (Forall_forall _ _) Hsound (started, p)).
    eapply nth_error_In; eauto. }
  pose proof (sound_step (exts i) p (shared st) Hp) as Hs'.
  pose proof (step_sets (exts i) p (shared st) Hp) as Hsets.
  pose proof (wins_step (exts i) p (shared st)) as Hw'.
  destruct (step (exts i) p (shared st)) as [p' w'] eqn:Hstep. simpl in *.
  split.
  - apply Forall_update_nth; auto.
  - intro Hflag. destruct (stop_event (shared st)) eqn:Hold.
    + eapply Exists_update_nth; eauto.
    + eapply Exists_update_nth_here; eauto.
Qed.

Lemma run_schedule_live (processes : nat) (exts : nat -> Ext) (sched : list nat) :
  forall st : Pool,
    pool_live (slots st) (stop_event (shared st)) ->
    pool_live (slots (run_schedule processes exts sched st))
              (stop_event (shared (run_schedule processes exts sched st))).
Proof.
  unfold run_schedule.
  induction sched as [| i rest IH]; intros st Hst; simpl; [exact Hst |].
  apply IH, pool_step_live, Hst.
Qed.

Lemma drain_started_mono (exts : nat -> Ext) (ss : Slots) :
  forall (i : nat) (w : W) (fo : list nat),
    stop_event w = true ->
    stop_event (world_of (drain_started exts i ss w fo)) = true.
Proof.
  unfold world_of.
  induction ss as [| [started p] rest IH]; intros i w fo Hw; simpl; [exact Hw |].
  destruct (started && negb (finished p)).
  - pose proof (run_keeps_set (exts i) p w Hw) as Hw1.
    destruct (run (exts i) p w) as [r w1]. simpl in Hw1.
    specialize (IH (S i) w1 (fo ++ [i]) Hw1).
    destruct (drain_started exts (S i) rest w1 (fo ++ [i])) as [[rest' w'] fo'].
    exact IH.
  - specialize (IH (S i) w fo Hw).
    destruct (drain_started exts (S i) rest w fo) as [[rest' w'] fo'].
    exact IH.
Qed.

Lemma complete_mono (exts : nat -> Ext) (ss : Slots) :
  forall (i : nat) (w : W) (fo : list nat),
    stop_event w = true ->
    stop_event (world_of (complete exts i ss w fo)) = true.
Proof.
  unfold world_of.
  induction ss as [| [started p] rest IH]; intros i w fo Hw; simpl; [exact Hw |].
  pose proof (run_keeps_set (exts i) p w Hw) as Hw1.
  destruct (run (exts i) p w) as [r w1]. simpl in Hw1.
  specialize (IH (S i) w1 (if finished p then fo else fo ++ [i]) Hw1).
  destruct (complete exts (S i) rest w1 _) as [[rs w'] fo'].
  exact IH.
Qed.

Lemma winner_wins (r : Result (option Molecule)) :
  is_winner r = true -> wins (propagate r : Worker).
Proof. destruct r as [[m |] | e]; simpl; auto; discriminate. Qed.

(** Running the workers under way to their end keeps the pool live; [Q]
    stands for a winner outside the list. *)
Lemma drain_started_live (exts : nat -> Ext) (ss : Slots) :
  forall (Q : Prop) (i : nat) (w : W) (fo : list nat),
    Forall (fun s => sound (snd s)) ss ->
    (stop_event w = true -> Q \/ Exists (fun s => wins (snd s)) ss) ->
    Forall (fun s => sound (snd s)) (results_of (drain_started exts i ss w fo)) /\
    (stop_event (world_of (drain_started exts i ss w fo)) = true ->
     Q \/ Exists (fun s => wins (snd s)) (results_of (drain_started exts i ss w fo))).
Proof.
  unfold results_of, world_of.
  induction ss as [| [started p] rest IH]; intros Q i w fo Hsound Hwins; simpl.
  - split; [constructor | exact Hwins].
  - inversion Hsound as [| x l Hp Hrest]; subst. simpl in Hp.
    destruct (started && negb (finished p)) eqn:Hbusy.
    + pose proof (wins_run (exts i) p w) as Hwr.
      pose proof (sound_run (exts i) p w Hp) as Hsr.
      destruct (run (exts i) p w) as [r w1]. simpl in *.
      destruct (IH (Q \/ wins (propagate r : Worker)) (S i) w1 (fo ++ [i]) Hrest)
        as [Hs Hex].
      { intro Hw1. destruct (stop_event w) eqn:Hw.
        - destruct (Hwins eq_refl) as [HQ | Hex]; [auto |].
          inversion Hex as [x l Hx | x l Hx]; subst; [| auto].
          left; right. apply winner_wins, Hwr, Hx.
        - left; right. apply winner_wins, Hsr; auto. }
      destruct (drain_started exts (S i) rest w1 (fo ++ [i])) as [[rest' w'] fo'].
      simpl in *. split.
      * constructor; [| exact Hs]. simpl. destruct r as [[m |] | e]; exact I.
      * intro Hf. destruct (Hex Hf) as [[HQ | Hhead] | Htail]; auto.
    + destruct (IH (Q \/ wins p) (S i) w fo Hrest) as [Hs Hex].
      { intro Hw. destruct (Hwins Hw) as [HQ | Hex]; [auto |].
        inversion Hex as [x l Hx | x l Hx]; subst; auto. }
      destruct (drain_started exts (S i) rest w fo) as [[rest' w'] fo'].
      simpl in *. split.
      * constructor; auto.
      * intro Hf. destruct (Hex Hf) as [[HQ | Hhead] | Htail]; auto.
Qed.

(** Running what is left: with the event set in the end, some worker has
    returned a molecule. *)
Lemma complete_live (exts : nat -> Ext) (ss : Slots) :
  forall (Q : Prop) (i : nat) (w : W) (fo : list nat),
    Forall (fun s => sound (snd s)) ss ->
    (stop_event w = true -> Q \/ Exists (fun s => wins (snd s)) ss) ->
    stop_event (world_of (complete exts i ss w fo)) = true ->
    Q \/ (1 <= winners (results_of (complete exts i ss w fo)))%nat.
Proof.
  unfold results_of, world_of.
  induction ss as [| [started p] rest IH]; intros Q i w fo Hsound Hwins; simpl.
  - intro Hf. destruct (Hwins Hf) as [HQ | Hex]; [auto | inversion Hex].
  - inversion Hsound as [| x l Hp Hrest]; subst. simpl in Hp.
    pose proof (wins_run (exts i) p w) as Hwr.
    pose proof (sound_run (exts i) p w Hp) as Hsr.
    destruct (run (exts i) p w) as [r w1]. simpl in *.
    specialize (IH (Q \/ is_winner r = true) (S i) w1
                  (if finished p then fo else fo ++ [i]) Hrest).
    destruct (complete exts (S i) rest w1 _) as [[rs w'] fo']. simpl in *.
    intro Hf. rewrite winners_cons.
    destruct IH as [[HQ | Hr] | Hrs]; auto.
    + intro Hw1. destruct (stop_event w) eqn:Hw.
      * destruct (Hwins eq_refl) as [HQ | Hex]; [auto |].
        inversion Hex as [x l Hx | x l Hx]; subst; auto.
      * auto.
    + right. rewrite Hr. simpl. lia.
    + right. lia.
Qed.

Lemma pool_step_ok (processes : nat) (exts : nat -> Ext) (i : nat) (st : Pool) :
  Forall (slot_ok (stop_event (shared st))) (slots st) ->
  Forall (slot_ok (stop_event (shared (pool_step processes exts i st))))
         (slots (pool_step processes exts i st)).
Proof.
  intro Hok. unfold pool_step.
  destruct (nth_error (slots st) i) as [[started p] |] eqn:Hnth; [| exact Hok].
  destruct (finished p) eqn:Hfin; [exact Hok |].
  destruct (started || (in_flight (slots st) <? processes)%nat); [| exact Hok].
  assert (Hslot : slot_ok (stop_event (shared st)) (started, p)).
  { apply (proj1 (Forall_forall _ _) Hok). eapply nth_error_In; eauto. }
  pose proof (fun s => careful_step (exts i) p s (shared st)) as Hstep.
  pose proof (step_keeps_set (exts i) p (shared st)) as Hmono.
  destruct (step (exts i) p (shared st)) as [p' w'] eqn:Hs. simpl in *.
  apply Forall_update_nth.
  - eapply Forall_impl; [| exact Hok].
    intros x Hx. eapply slot_ok_weaken; eauto.
  - unfold slot_ok in *; simpl in *. destruct started.
    + apply (Hstep _ Hslot). auto.
    + destruct Hslot as (Hcareful & _). apply (Hstep false Hcareful). discriminate.
Qed.

Lemma run_schedule_ok (processes : nat) (exts : nat -> Ext) (sched : list nat) :
  forall st : Pool,
    Forall (slot_ok (stop_event (shared st))) (slots st) ->
    Forall (slot_ok (stop_event (shared (run_schedule processes exts sched st))))
           (slots (run_schedule processes exts sched st)).
Proof.
  unfold run_schedule.
  induction sched as [| i rest IH]; intros st Hst; simpl; [exact Hst |].
  apply IH, pool_step_ok, Hst.
Qed.

(** Running what is left: a worker that returned a molecule has left the
    event set. *)
Lemma complete_careful (exts : nat -> Ext) (ss : Slots) :
  forall (i : nat) (w : W) (fo : list nat),
    Forall (slot_ok (stop_event w)) ss ->
    filter busy ss = [] ->
    (1 <= winners (results_of (complete exts i ss w fo)))%nat ->
    stop_event (world_of (complete exts i ss w fo)) = true.
Proof.
  induction ss as [| [started p] rest IH]; intros i w fo Hok Hbusy.
  - unfold winners; simpl. lia.
  - inversion Hok as [| x l Hhead Hrest]; subst.
    assert (Hb : busy (started, p) = false /\ filter busy rest = []).
    { simpl in Hbusy. destruct (busy (started, p)); [discriminate | auto]. }
    destruct Hb as [Hb Hbrest].
    pose proof (complete_mono exts rest (S i)) as Hmono.
    unfold results_of, world_of in *. simpl.
    pose proof (run_keeps_set (exts i) p w) as Hk.
    assert (Hwin : is_winner (fst (run (exts i) p w)) = true ->
                   stop_event (snd (run (exts i) p w)) = true).
    { unfold slot_ok in Hhead; simpl in Hhead. destruct started.
      - apply (careful_run (exts i) p (stop_event w) w Hhead). auto.
      - destruct Hhead as (Hc & _).
        apply (careful_run (exts i) p false w Hc). discriminate. }
    destruct (run (exts i) p w) as [r w1]. simpl in *.
    specialize (IH (S i) w1 (if finished p then fo else fo ++ [i])).
    specialize (Hmono w1 (if finished p then fo else fo ++ [i])).
    destruct (complete exts (S i) rest w1 _) as [[rs w'] fo']. simpl in *.
    rewrite winners_cons. intro H.
    destruct (is_winner r) eqn:Hr.
    + auto.
    + apply IH.
      * eapply Forall_impl; [| exact Hrest].
        intros x Hx. eapply slot_ok_weaken; [| exact Hx]. exact Hk.
      * exact Hbrest.
      * simpl in H. lia.
Qed.

(** X16: At the end of a batch, whatever the size of the pool and the order of
    the actions, the event is set exactly when some worker has returned a
    molecule: a worker is only ever stopped by a worker that succeeded. *)
Theorem event_set_iff_winner (processes : nat) (exts : nat -> Ext)
    (sched : list nat) (tasks : list (Task GenerateConfig)) :
  stop_event (world_of (run_pool processes exts sched
                          (map (worker_of_task (Molecule := Molecule)) tasks)))
  = true <->
  (1 <= winners (results_of (run_pool processes exts sched
                               (map (worker_of_task (Molecule := Molecule)) tasks))))%nat.
Proof.
  unfold run_pool.
  set (st0 := mkPool _ _ _).
  set (st := run_schedule processes exts sched st0).
  assert (Hok : Forall (slot_ok (stop_event (shared st))) (slots st)).
  { apply run_schedule_ok. apply (fresh_batch_inv tasks). }
  assert (Hlive : pool_live (slots st) (stop_event (shared st))).
  { apply run_schedule_live. split; [| discriminate].
    subst st0. simpl. clear. induction tasks as [| t rest IH]; simpl; constructor; auto.
    destruct t as [[[c re] pe] cycle].
    unfold worker_of_task, single_molecule_generator, claim_success,
      report_failure, print, pass, stop_event_is_set, stop_event_set, propagate.
    simpl. intros [|]; simpl; [exact I |].
    repeat (simpl; intros;
            match goal with
            | |- context [if ?b then _ else _] => destruct b eqn:?
            | |- context [match ?r with Ok _ => _ | Raised _ => _ end] => destruct r
            | |- forall _, _ => intro
            end); simpl; auto. }
  destruct Hlive as [Hsound Hwins].
  pose proof (drain_started_inv exts (slots st) 0 (shared st) (finish_order st) Hok)
    as (Hok' & Hnobusy & _ & _).
  pose proof (drain_started_live exts (slots st) False 0 (shared st) (finish_order st)
                Hsound) as [Hsound' Hwins'].
  { intro H. right. auto. }
  unfold results_of, world_of in *.
  destruct (drain_started exts 0 (slots st) (shared st) (finish_order st))
    as [[ss w] fo]. simpl in *.
  split.
  - intro Hf.
    destruct (complete_live exts ss False 0 w fo Hsound' Hwins' Hf) as [[] | H].
    exact H.
  - apply complete_careful; assumption.
Qed.

Lemma calm_step (ext : Ext) (p : Worker) (w : W) :
  reliable ext -> calm p -> calm (fst (step ext p w)).
Proof.
  intros (Hg & Ho & Hp) Hc.
  destruct p as [r | e | k | k | o k | gc v k | m en gc rc v k | m en pc v k];
    simpl in *; auto.
  - destruct (Hg gc v) as [x ->]. auto.
  - destruct (Ho m en gc rc v) as [x ->]. auto.
  - destruct (Hp m en pc v) as [x ->]. auto.
Qed.

Lemma calm_run (ext : Ext) (p : Worker) :
  forall w : W, reliable ext -> calm p -> is_ok (fst (run ext p w)) = true.
Proof.
  induction p as [r | e | k IH | k IH | o k IH | gc v k IH
                 | m en gc rc v k IH | m en pc v k IH];
    intros w Hrel Hc; simpl in *; auto; try contradiction;
    destruct Hrel as (Hg & Ho & Hp).
  - destruct (Hg gc v) as [x Hx]. rewrite Hx. apply IH; [repeat split |]; auto.
  - destruct (Ho m en gc rc v) as [x Hx]. rewrite Hx. apply IH; [repeat split |]; auto.
  - destruct (Hp m en pc v) as [x Hx]. rewrite Hx. apply IH; [repeat split |]; auto.
Qed.

Lemma eager_step (ext : Ext) (p : Worker) (w : W) :
  reliable ext -> eager p ->
  stop_event w = false ->
  stop_event (snd (step ext p w)) = false ->
  eager (fst (step ext p w)).
Proof.
  intros (Hg & Ho & Hp) He Hw Hw'.
  destruct p as [r | e | k | k | o k | gc v k | m en gc rc v k | m en pc v k];
    simpl in *; auto.
  - rewrite Hw. exact He.
  - discriminate.
  - destruct (Hg gc v) as [x ->]. auto.
  - destruct (Ho m en gc rc v) as [x ->]. auto.
  - destruct (Hp m en pc v) as [x ->]. auto.
Qed.

(** An eager and sound worker that starts with the event unset and is not
    interrupted returns a molecule. *)
Lemma eager_run (ext : Ext) (p : Worker) :
  forall w : W,
    reliable ext -> eager p -> sound p ->
    stop_event w = false ->
    is_winner (fst (run ext p w)) = true.
Proof.
  induction p as [r | e | k IH | k IH | o k IH | gc v k IH
                 | m en gc rc v k IH | m en pc v k IH];
    intros w Hrel He Hs Hw; simpl in *; try contradiction.
  - destruct r; [reflexivity | contradiction].
  - rewrite Hw. apply IH; auto.
  - apply wins_run, Hs.
  - apply IH; auto.
  - destruct Hrel as (Hg & Ho & Hp). destruct (Hg gc v) as [x Hx]. rewrite Hx.
    apply IH; [repeat split | | |]; auto.
  - destruct Hrel as (Hg & Ho & Hp). destruct (Ho m en gc rc v) as [x Hx].
    rewrite Hx. apply IH; [repeat split | | |]; auto.
  - destruct Hrel as (Hg & Ho & Hp). destruct (Hp m en pc v) as [x Hx].
    rewrite Hx. apply IH; [repeat split | | |]; auto.
Qed.

(** The workers of the driver are calm, sound and eager. *)
Lemma worker_willing (t : Task GenerateConfig) :
  calm (worker_of_task t : Worker) /\
  sound (worker_of_task t : Worker) /\
  eager (worker_of_task t : Worker).
Proof.
  destruct t as [[[c re] pe] cycle].
  unfold worker_of_task, single_molecule_generator, claim_success,
    report_failure, print, pass, stop_event_is_set, stop_event_set, propagate.
  repeat split; simpl;
    try (intros [|]; simpl; [exact I |]);
    repeat (simpl; intros;
            match goal with
            | |- context [if ?b then _ else _] => destruct b eqn:?
            | |- context [match ?r with Ok _ => _ | Raised _ => _ end] => destruct r
            | |- forall _, _ => intro
            end); simpl; auto.
Qed.

Lemma pool_step_willing (processes : nat) (exts : nat -> Ext) (i : nat) (st : Pool) :
  (forall j, reliable (exts j)) ->
  pool_willing (slots st) (stop_event (shared st)) ->
  pool_willing (slots (pool_step processes exts i st))
               (stop_event (shared (pool_step processes exts i st))).
Proof.
  intros Hrel [Hcalm Heager]. unfold pool_step.
  destruct (nth_error (slots st) i) as [[started p] |] eqn:Hnth; [| split; auto].
  destruct (finished p) eqn:Hfin; [split; auto |].
  destruct (started || (in_flight (slots st) <? processes)%nat); [| split; auto].
  assert (Hin : In (started, p) (slots st)) by (eapply nth_error_In; eauto).
  assert (Hp : calm p) by (apply (proj1 (Forall_forall _ _) Hcalm (started, p) Hin)).
  pose proof (calm_step (exts i) p (shared st) (Hrel i) Hp) as Hc'.
  pose proof (eager_step (exts i) p (shared st) (Hrel i)) as He'.
  pose proof (step_keeps_set (exts i) p (shared st)) as Hmono.
  destruct (step (exts i) p (shared st)) as [p' w'] eqn:Hstep. simpl in *.
  split.
  - apply Forall_update_nth; auto.
  - intro Hflag.
    assert (Hold : stop_event (shared st) = false).
    { destruct (stop_event (shared st)); [| reflexivity].
      rewrite Hmono in Hflag; [discriminate | reflexivity]. }
    specialize (Heager Hold).
    apply Forall_update_nth; [exact Heager |]. simpl.
    apply He'; auto.
    apply (proj1 (Forall_forall _ _) Heager (started, p) Hin).
Qed.

Lemma run_schedule_willing (processes : nat) (exts : nat -> Ext) (sched : list nat) :
  (forall j, reliable (exts j)) ->
  forall st : Pool,
    pool_willing (slots st) (stop_event (shared st)) ->
    pool_willing (slots (run_schedule processes exts sched st))
                 (stop_event (shared (run_schedule processes exts sched st))).
Proof.
  intro Hrel. unfold run_schedule.
  induction sched as [| i rest IH]; intros st Hst; simpl; [exact Hst |].
  apply IH, pool_step_willing; auto.
Qed.

Lemma update_nth_length {A : Type} (l : list A) :
  forall (i : nat) (y : A), List.length (update_nth i y l) = List.length l.
Proof.
  induction l as [| a l IH]; intros [| i] y; simpl; auto.
Qed.

Lemma run_schedule_length (processes : nat) (exts : nat -> Ext) (sched : list nat) :
  forall st : Pool,
    List.length (slots (run_schedule processes exts sched st))
    = List.length (slots st).
Proof.
  unfold run_schedule.
  induction sched as [| i rest IH]; intros st; simpl; [reflexivity |].
  rewrite IH. unfold pool_step.
  destruct (nth_error (slots st) i) as [[started p] |]; [| reflexivity].
  destruct (finished p); [reflexivity |].
  destruct (started || (in_flight (slots st) <? processes)%nat); [| reflexivity].
  destruct (step (exts i) p (shared st)) as [p' w']. simpl.
  apply update_nth_length.
Qed.

Lemma drain_started_length (exts : nat -> Ext) (ss : Slots) :
  forall (i : nat) (w : W) (fo : list nat),
    List.length (results_of (drain_started exts i ss w fo)) = List.length ss.
Proof.
  unfold results_of.
  induction ss as [| [started p] rest IH]; intros i w fo; simpl; [reflexivity |].
  destruct (started && negb (finished p)).
  - destruct (run (exts i) p w) as [r w1].
    specialize (IH (S i) w1 (fo ++ [i])).
    destruct (drain_started exts (S i) rest w1 (fo ++ [i])) as [[rest' w'] fo'].
    simpl in *. congruence.
  - specialize (IH (S i) w fo).
    destruct (drain_started exts (S i) rest w fo) as [[rest' w'] fo'].
    simpl in *. congruence.
Qed.

Lemma drain_started_willing (exts : nat -> Ext) (ss : Slots) :
  (forall j, reliable (exts j)) ->
  forall (i : nat) (w : W) (fo : list nat),
    Forall (fun s => sound (snd s)) ss ->
    pool_willing ss (stop_event w) ->
    pool_willing (results_of (drain_started exts i ss w fo))
                 (stop_event (world_of (drain_started exts i ss w fo))).
Proof.
  intro Hrel. unfold results_of, world_of.
  induction ss as [| [started p] rest IH]; intros i w fo Hsound [Hcalm Heager]; simpl.
  - split; [constructor | intros _; constructor].
  - inversion Hsound as [| x l Hs Hsrest]; subst.
    inversion Hcalm as [| x l Hc Hcrest]; subst. simpl in Hs, Hc.
    destruct (started && negb (finished p)).
    + pose proof (calm_run (exts i) p w (Hrel i) Hc) as Hok.
      pose proof (eager_run (exts i) p w (Hrel i)) as Hwin.
      pose proof (run_keeps_set (exts i) p w) as Hk.
      pose proof (drain_started_mono exts rest (S i)) as Hmono.
      destruct (run (exts i) p w) as [r w1]. simpl in *.
      specialize (Hmono w1 (fo ++ [i])). unfold world_of in Hmono.
      destruct (IH (S i) w1 (fo ++ [i]) Hsrest) as [Hc' He'].
      { split; [exact Hcrest |]. intro Hw1.
        assert (Hw : stop_event w = false).
        { destruct (stop_event w); [| reflexivity].
          rewrite Hk in Hw1; [discriminate | reflexivity]. }
        specialize (Heager Hw). inversion Heager; auto. }
      destruct (drain_started exts (S i) rest w1 (fo ++ [i])) as [[rest' w'] fo'].
      simpl in *. split.
      * constructor; [| exact Hc']. simpl.
        destruct r as [x | e]; [exact I | discriminate].
      * intro Hf.
        assert (Hw1 : stop_event w1 = false).
        { destruct (stop_event w1); [| reflexivity].
          rewrite Hmono in Hf; [discriminate | reflexivity]. }
        assert (Hw : stop_event w = false).
        { destruct (stop_event w); [| reflexivity].
          rewrite Hk in Hw1; [discriminate | reflexivity]. }
        specialize (Heager Hw). inversion Heager as [| x l Hep Herest]; subst.
        constructor; [| auto]. simpl in *.
        specialize (Hwin Hep Hs Hw).
        destruct r as [[m |] | e]; simpl in *; auto; discriminate.
    + pose proof (drain_started_mono exts rest (S i) w fo) as Hmono.
      unfold world_of in Hmono.
      destruct (IH (S i) w fo Hsrest) as [Hc' He'].
      { split; [exact Hcrest |]. intro Hw.
        specialize (Heager Hw). inversion Heager; auto. }
      destruct (drain_started exts (S i) rest w fo) as [[rest' w'] fo'].
      simpl in *. split.
      * constructor; auto.
      * intro Hf.
        assert (Hw : stop_event w = false).
        { destruct (stop_event w); [| reflexivity].
          rewrite Hmono in Hf; [discriminate | reflexivity]. }
        specialize (Heager Hw). inversion Heager; subst.
        constructor; auto.
Qed.

Lemma complete_all_ok (exts : nat -> Ext) (ss : Slots) :
  (forall j, reliable (exts j)) ->
  forall (i : nat) (w : W) (fo : list nat),
    Forall (fun s => calm (snd s)) ss ->
    Forall (fun r => is_ok r = true) (results_of (complete exts i ss w fo)).
Proof.
  intro Hrel. unfold results_of.
  induction ss as [| [started p] rest IH]; intros i w fo Hcalm; simpl.
  - constructor.
  - inversion Hcalm as [| x l Hc Hcrest]; subst. simpl in Hc.
    pose proof (calm_run (exts i) p w (Hrel i) Hc) as Hok.
    destruct (run (exts i) p w) as [r w1]. simpl in *.
    specialize (IH (S i) w1 (if finished p then fo else fo ++ [i]) Hcrest).
    destruct (complete exts (S i) rest w1 _) as [[rs w'] fo']. simpl in *.
    constructor; auto.
Qed.

Lemma complete_first_wins (exts : nat -> Ext) (ss : Slots) (i : nat) (w : W)
    (fo : list nat) :
  (forall j, reliable (exts j)) ->
  ss <> [] ->
  Forall (fun s => sound (snd s)) ss ->
  Forall (fun s => eager (snd s)) ss ->
  stop_event w = false ->
  (1 <= winners (results_of (complete exts i ss w fo)))%nat.
Proof.
  intros Hrel Hne Hsound Heager Hw. unfold results_of.
  destruct ss as [| [started p] rest]; [congruence |]. simpl.
  inversion Hsound; subst. inversion Heager; subst. simpl in *.
  pose proof (eager_run (exts i) p w (Hrel i)) as Hwin.
  destruct (run (exts i) p w) as [r w1]. simpl in *.
  destruct (complete exts (S i) rest w1 _) as [[rs w'] fo']. simpl.
  rewrite winners_cons, Hwin; auto. simpl. lia.
Qed.

(** With collaborators that always return, a batch with at least one task
    raises nothing and returns at least one molecule, whatever the size of
    the pool and the order of the actions. *)
Lemma batch_has_molecule (processes : nat) (exts : nat -> Ext)
    (sched : list nat) (tasks : list (Task GenerateConfig)) :
  (forall j, reliable (exts j)) ->
  tasks <> [] ->
  Forall (fun r => is_ok r = true)
         (results_of (run_pool processes exts sched
                        (map (worker_of_task (Molecule := Molecule)) tasks))) /\
  (1 <= winners (results_of (run_pool processes exts sched
                               (map (worker_of_task (Molecule := Molecule)) tasks))))%nat.
Proof.
  intros Hrel Hne. unfold run_pool.
  set (st0 := mkPool _ _ _).
  set (st := run_schedule processes exts sched st0).
  assert (Hfresh : Forall (fun s : Slot Molecule GenerateConfig (option Molecule) =>
                             calm (snd s) /\ sound (snd s) /\ eager (snd s))
                     (slots st0)).
  { subst st0. simpl. clear. induction tasks as [| t rest IH]; simpl; constructor; auto.
    apply worker_willing. }
  assert (Hlive : pool_live (slots st) (stop_event (shared st))).
  { apply run_schedule_live. split; [| discriminate].
    eapply Forall_impl; [| exact Hfresh]. intros x H; apply H. }
  assert (Hwilling : pool_willing (slots st) (stop_event (shared st))).
  { apply run_schedule_willing; [exact Hrel |]. split.
    - eapply Forall_impl; [| exact Hfresh]. intros x H; apply H.
    - intros _. eapply Forall_impl; [| exact Hfresh]. intros x H; apply H. }
  assert (Hlen : List.length (slots st) = List.length tasks).
  { subst st. rewrite run_schedule_length. subst st0. simpl.
    rewrite !length_map. reflexivity. }
  destruct Hlive as [Hsound Hwins].
  pose proof (drain_started_live exts (slots st) False 0 (shared st) (finish_order st)
                Hsound) as [Hsound' Hwins'].
  { intro H. right. auto. }
  pose proof (drain_started_willing exts (slots st) Hrel 0 (shared st)
                (finish_order st) Hsound Hwilling) as [Hcalm' Heager'].
  pose proof (drain_started_length exts (slots st) 0 (shared st) (finish_order st))
    as Hlen'.
  unfold results_of, world_of in *.
  destruct (drain_started exts 0 (slots st) (shared st) (finish_order st))
    as [[ss w] fo]. simpl in *.
  split.
  - apply (complete_all_ok exts ss Hrel 0 w fo Hcalm').
  - destruct (stop_event w) eqn:Hw.
    + pose proof (complete_mono exts ss 0 w fo Hw) as Hf.
      destruct (complete_live exts ss False 0 w fo Hsound') as [[] | H]; auto.
    + apply (complete_first_wins exts ss 0 w fo Hrel); auto.
      destruct ss; [| discriminate].
      destruct tasks; [congruence |]. simpl in *. lia.
Qed.

End PoolMore.

(** ** Whole runs *)

Section EndToEnd.

Context {Molecule GenerateConfig : Type}.

Local Abbreviation Ext := (Externals Molecule GenerateConfig).
Local Abbreviation Config := (ConfigManager GenerateConfig).
Local Abbreviation St := (Driver Molecule GenerateConfig).

Lemma gather_ok {R : Type} (rs : list (Result R)) :
  Forall (fun r => is_ok r = true) rs ->
  exists vs, gather rs = Ok vs /\ rs = map Ok vs.
Proof.
  induction 1 as [| r rest Hr _ (vs & Hg & Hrs)]; simpl.
  - exists []. auto.
  - destruct r as [v | e]; [| discriminate].
    exists (v :: vs). rewrite Hg, Hrs. auto.
Qed.

Lemma no_winner_among_none (vs : list (option Molecule)) :
  Forall (fun r => r = None) vs -> winners (map Ok vs) = 0%nat.
Proof.
  induction 1 as [| v rest Hv _ IH]; [reflexivity |].
  subst v. exact IH.
Qed.

(** With collaborators that always return, the pool hands back a list of
    results with a molecule in it. *)
Lemma pool_starmap_succeeds (exts : nat -> Ext) (sched : list nat)
    (processes : Z) (tasks : list (Task GenerateConfig)) :
  (forall j, reliable (exts j)) ->
  1 <= processes ->
  tasks <> [] ->
  exists results n m,
    pool_starmap exts sched processes tasks = Ok results /\
    first_success results = Some (n, m).
Proof.
  intros Hrel Hproc Hne. unfold pool_starmap.
  replace (processes <? 1) with false by (symmetry; apply Z.ltb_ge; lia).
  destruct (batch_has_molecule (Z.to_nat processes) exts sched tasks Hrel Hne)
    as [Hok Hwin].
  unfold results_of in *.
  destruct (run_pool (Z.to_nat processes) exts sched (map worker_of_task tasks))
    as [[rs w] fo]. simpl in *.
  destruct (gather_ok rs Hok) as (vs & Hg & Hrs).
  rewrite Hg. exists vs.
  unfold first_success.
  pose proof (first_success_from_spec vs 0) as Hspec.
  destruct (first_success_from 0 vs) as [[n m] |]; [eauto |].
  rewrite Hrs, (no_winner_among_none vs Hspec) in Hwin. lia.
Qed.

Lemma generate_targets_succeed (cpus : Z)
    (xtb_path_func orca_path_func : string -> Result (option string))
    (exts : Z -> nat -> Ext) (sched : Z -> list nat)
    (nc : Z) (re : QMMethod) (pe : option QMMethod) (targets : list Z) :
  (forall k j, reliable (exts k j)) ->
  1 <= nc ->
  forall (acc : list Molecule) (s : St),
    1 <= max_cycles (general (config s)) ->
    exists mols,
      fst (generate_targets
             (scheduled_platform cpus xtb_path_func orca_path_func exts sched)
             nc re pe targets acc s) = Ok mols.
Proof.
  intros Hrel Hnc.
  set (pf := scheduled_platform cpus xtb_path_func orca_path_func exts sched).
  induction targets as [| k rest IH]; intros acc s Hmax; simpl.
  - eexists; reflexivity.
  - unfold mbind.
    pose proof (generate_target_result pf nc re pe k s) as Hres.
    pose proof (generate_target_state pf nc re pe k s) as [_ Hcfg].
    destruct (pool_starmap_succeeds (exts k) (sched k) nc
                (batch_tasks (config s) nc re pe) (Hrel k) Hnc)
      as (results & n & m & Hpool & Hfirst).
    { unfold batch_tasks, range.
      destruct (Z.to_nat (max_cycles (general (config s)))) eqn:Hz; [lia |].
      simpl. discriminate. }
    simpl in Hres, Hcfg. rewrite Hpool in Hres, Hcfg. rewrite Hfirst in Hres.
    destruct (generate_target pf nc re pe k s) as [[m' | e] s1]; simpl in *;
      [| discriminate].
    apply IH. rewrite Hcfg. exact Hmax.
Qed.

(** X17: On a platform whose pools run the workers, with engines that can be set
    up, at least one core, at least one cycle and collaborators that always
    return, a run returns a molecule for every target, whatever the size of
    the pool and the interleaving of the workers. *)
Theorem reliable_engines_give_molecules (version : string) (cpus : Z)
    (xtb_path_func orca_path_func : string -> Result (option string))
    (exts : Z -> nat -> Ext) (sched : Z -> list nat) (c : Config) :
  reaches_pool_stage
    (scheduled_platform cpus xtb_path_func orca_path_func exts sched) c = true ->
  (forall k j, reliable (exts k j)) ->
  1 <= cpus ->
  1 <= parallel (general c) ->
  1 <= max_cycles (general c) ->
  exists mols,
    fst (generator version
           (scheduled_platform cpus xtb_path_func orca_path_func exts sched)
           (start c)) = Ok (Some mols, 0) /\
    List.length mols = Z.to_nat (num_molecules (general c)).
Proof.
  intros Hreach Hrel Hcpus Hpar Hmax.
  set (pf := scheduled_platform cpus xtb_path_func orca_path_func exts sched) in *.
  destruct (generator_unfolds version pf c Hreach) as (re & pe & _ & Hgen).
  destruct (generate_targets_succeed cpus xtb_path_func orca_path_func exts sched
              (num_cores pf c) re pe (range (num_molecules (general c))) Hrel)
    with (acc := @nil Molecule) (s := mkDriver c (prelude_trace version pf c))
    as (mols & Hmols).
  { unfold num_cores. simpl. lia. }
  { exact Hmax. }
  fold pf in Hmols.
  assert (Hfull : fst (generator version pf (start c)) = Ok (Some mols, 0)).
  { rewrite Hgen.
    destruct (generate_targets pf (num_cores pf c) re pe _ [] _) as [[mols' | e] s2];
      simpl in *; congruence. }
  exists mols. split; [exact Hfull |].
  apply (generator_returns_full_list version pf c mols 0 Hfull).
Qed.

End EndToEnd.

(** ** The banner *)

Lemma codepoints_app (a b : string) :
  codepoints (a ++ b) = (codepoints a + codepoints b)%nat.
Proof.
  induction a as [| ch a IH]; simpl; [reflexivity |].
  destruct (is_continuation ch); simpl; rewrite IH; reflexivity.
Qed.

Lemma codepoints_take_chars (s : string) :
  forall n : nat, codepoints (take_chars n s) = Nat.min n (codepoints s).
Proof.
  induction s as [| ch s IH]; intro n; simpl.
  - destruct n; reflexivity.
  - destruct (is_continuation ch) eqn:Hc; simpl.
    + rewrite Hc. apply IH.
    + destruct n as [| n]; simpl; [reflexivity |].
      rewrite Hc, IH. reflexivity.
Qed.

Lemma line_breaks_app (a b : string) :
  line_breaks (a ++ b) = (line_breaks a + line_breaks b)%nat.
Proof.
  induction a as [| ch a IH]; simpl; [reflexivity |].
  rewrite IH. destruct (Ascii.eqb ch _); reflexivity.
Qed.

(** A text has one line more than it has line breaks. *)
Lemma split_lines_length (s : string) :
  List.length (split_lines s) = S (line_breaks s).
Proof.
  induction s as [| ch s IH]; simpl; [reflexivity |].
  destruct (Ascii.eqb ch _); simpl; [rewrite IH; reflexivity |].
  destruct (split_lines s); simpl in *; [discriminate | exact IH].
Qed.

Lemma split_lines_one (a : string) :
  line_breaks a = 0%nat -> split_lines a = [a].
Proof.
  induction a as [| ch a IH]; simpl; [reflexivity |].
  destruct (Ascii.eqb ch _); [discriminate |].
  intro Ha. rewrite (IH Ha). reflexivity.
Qed.

Lemma split_lines_break (a b : string) :
  line_breaks a = 0%nat ->
  split_lines (a ++ nl ++ b) = a :: split_lines b.
Proof.
  induction a as [| ch a IH]; simpl; [reflexivity |].
  destruct (Ascii.eqb ch _); [discriminate |].
  intro Ha. simpl in IH. rewrite (IH Ha). reflexivity.
Qed.

(** Joining lines and splitting again gives the lines back. *)
Lemma split_lines_concat (lines : list string) :
  lines <> [] ->
  Forall (fun line => line_breaks line = 0%nat) lines ->
  split_lines (String.concat nl lines) = lines.
Proof.
  induction lines as [| a rest IH]; [congruence |].
  intros _ H. inversion H as [| x l Ha Hrest]; subst.
  destruct rest as [| b rest].
  - simpl. apply split_lines_one, Ha.
  - change (String.concat nl (a :: b :: rest))
      with (a ++ nl ++ String.concat nl (b :: rest))%string.
    rewrite (split_lines_break a _ Ha), IH; [reflexivity | discriminate | exact Hrest].
Qed.

Lemma line_breaks_concat (l : list string) :
  line_breaks (String.concat nl l)
  = (list_sum (map line_breaks l) + (List.length l - 1))%nat.
Proof.
  induction l as [| x [| y rest] IH].
  - reflexivity.
  - simpl. lia.
  - change (String.concat nl (x :: y :: rest))
      with (x ++ nl ++ String.concat nl (y :: rest))%string.
    rewrite !line_breaks_app, IH. simpl. lia.
Qed.

Lemma codepoints_concat (sep : string) (l : list string) :
  codepoints (String.concat sep l)
  = (list_sum (map codepoints l) + (List.length l - 1) * codepoints sep)%nat.
Proof.
  induction l as [| x [| y rest] IH].
  - reflexivity.
  - simpl. lia.
  - change (String.concat sep (x :: y :: rest))
      with (x ++ sep ++ String.concat sep (y :: rest))%string.
    rewrite !codepoints_app, IH. simpl. lia.
Qed.

Lemma version_line_shape (version : string) :
  version_line version
  = ("║                                       "
     ++ ("MindlessGen v" ++ take_chars 5 version)
     ++ "                                         ║")%string.
Proof. reflexivity. Qed.

Lemma version_line_width (version : string) :
  codepoints (version_line version) = (95 + Nat.min 5 (codepoints version))%nat.
Proof.
  rewrite version_line_shape, !codepoints_app, codepoints_take_chars.
  change (codepoints "║                                       ") with 40%nat.
  change (codepoints "MindlessGen v") with 13%nat.
  change (codepoints "                                         ║") with 42%nat.
  lia.
Qed.

Lemma version_line_breaks (version : string) :
  line_breaks (version_line version) = line_breaks (take_chars 5 version).
Proof.
  rewrite version_line_shape, !line_breaks_app.
  change (line_breaks "║                                       ") with 0%nat.
  change (line_breaks "MindlessGen v") with 0%nat.
  change (line_breaks "                                         ║") with 0%nat.
  lia.
Qed.

(** The widths of the literals of the banner. *)
Lemma header_widths (version : string) :
  map codepoints (header_lines version)
  = repeat 100%nat 9 ++ [(95 + Nat.min 5 (codepoints version))%nat]
    ++ repeat 100%nat 5.
Proof.
  unfold header_lines. cbn [map repeat app].
  repeat (apply (f_equal2 (@cons nat));
          [first [ vm_compute; reflexivity
                 | apply (version_line_width version) ] |]).
  reflexivity.
Qed.

(** The line breaks inside the literals of the banner. *)
Lemma header_breaks (version : string) :
  map line_breaks (header_lines version)
  = repeat 0%nat 9 ++ [line_breaks (take_chars 5 version)] ++ repeat 0%nat 5.
Proof.
  unfold header_lines. cbn [map repeat app].
  repeat (apply (f_equal2 (@cons nat));
          [first [ vm_compute; reflexivity
                 | apply (version_line_breaks version) ] |]).
  reflexivity.
Qed.

Lemma header_lines_unbroken (version : string) :
  line_breaks (take_chars 5 version) = 0%nat ->
  Forall (fun line => line_breaks line = 0%nat) (header_lines version).
Proof.
  intro Hv. apply Forall_forall. intros line Hin.
  apply (in_map line_breaks) in Hin. rewrite header_breaks, Hv in Hin.
  simpl in Hin. intuition congruence.
Qed.

(** The lines of the banner are its literals, as long as the version shown
    brings no line break of its own. *)
Lemma header_roundtrip (version : string) :
  line_breaks (take_chars 5 version) = 0%nat ->
  split_lines (header version) = header_lines version.
Proof.
  intro Hv. unfold header. apply split_lines_concat.
  - discriminate.
  - apply header_lines_unbroken, Hv.
Qed.

(** X18: When the first five characters of the version hold no line break,
    the text returned by [header] has fifteen lines; each is 100 characters
    wide, except that the tenth, which shows "MindlessGen v" and the first
    five characters of the version, is narrower when the version is shorter
    than that. *)
Theorem header_is_a_box (version : string) :
  line_breaks (take_chars 5 version) = 0%nat ->
  List.length (split_lines (header version)) = 15%nat /\
  map codepoints (split_lines (header version))
  = repeat 100%nat 9 ++ [(95 + Nat.min 5 (codepoints version))%nat]
    ++ repeat 100%nat 5 /\
  mentions ("MindlessGen v" ++ take_chars 5 version)
           (nth 9 (split_lines (header version)) EmptyString) = true.
Proof.
  intro Hv. rewrite (header_roundtrip version Hv).
  split; [reflexivity |]. split; [apply header_widths |].
  change (nth 9 (header_lines version) EmptyString) with (version_line version).
  rewrite version_line_shape. apply mentions_infix. discriminate.
Qed.

(** X19: For every version, the text returned by [header] has 1509
    characters besides the up to five characters of the version it shows,
    and fifteen lines besides the line breaks among those characters. *)
Theorem header_size (version : string) :
  codepoints (header version) = (1509 + Nat.min 5 (codepoints version))%nat /\
  List.length (split_lines (header version))
  = (15 + line_breaks (take_chars 5 version))%nat.
Proof.
  split.
  - unfold header. rewrite codepoints_concat, header_widths.
    replace (List.length (header_lines version)) with 15%nat by reflexivity.
    replace (codepoints nl) with 1%nat by reflexivity.
    cbn [repeat app list_sum fold_right]. lia.
  - rewrite split_lines_length. unfold header.
    rewrite line_breaks_concat, header_breaks.
    replace (List.length (header_lines version)) with 15%nat by reflexivity.
    cbn [repeat app list_sum fold_right]. lia.
Qed.

(** * Concrete runs *)

(** In the race both workers return their molecule; worker 1 is the first to
    finish, and the coordinator accepts the molecule of worker 0. *)
Example higher_index_finishes_first :
  order_of (run_pool 2 sample_ext race (map worker_of_task sample_tasks))
  = [1; 0]%nat /\
  fst (generator "0.1" (sample_platform 4 sample_ext race) (start quiet_config))
  = Ok (Some ["mol0"], 0).
Proof. split; vm_compute; reflexivity. Qed.

Lemma lowest_index_wins_witness :
  match fst (generate_target (sample_platform 4 sample_ext race) 2
               (XTB "/usr/bin/xtb") None 0 (start quiet_config)) with
  | Ok m =>
      exists i : nat,
        nth_error [Some "mol0"; Some "mol1"] i = Some (Some m) /\
        forall j : nat,
          (j < i)%nat -> nth_error [Some "mol0"; Some "mol1"] j = Some None
  | Raised _ => Forall (fun r => r = None) [Some "mol0"; Some "mol1"]
  end.
Proof.
  apply (lowest_index_wins (sample_platform 4 sample_ext race) 2
           (XTB "/usr/bin/xtb") None 0 (start quiet_config)
           [Some "mol0"; Some "mol1"]).
  vm_compute. reflexivity.
Defined.

(** C2 as stated fails: with three cycles exhausted for the first target,
    the text of the error does not give the number 3. *)
Lemma exhausted_message_omits_cycle_count :
  fst (generator "0.1" (sample_platform 4 failing_ext []) (start exhausting_config))
  = Raised (RuntimeError (exhausted_message 0)) /\
  max_cycles (general exhausting_config) = 3 /\
  mentions (string_of_Z (max_cycles (general exhausting_config)))
           (exhausted_message 0) = false.
Proof. repeat split; vm_compute; reflexivity. Qed.

Lemma exhausted_batch_is_fatal_witness :
  fst (generate_target (sample_platform 4 failing_ext []) 1
         (XTB "/usr/bin/xtb") None 0 (start exhausting_config))
  = Raised (RuntimeError (exhausted_message 0)) /\
  fst (generate_targets (sample_platform 4 failing_ext []) 1
         (XTB "/usr/bin/xtb") None [0; 1] [] (start exhausting_config))
  = Raised (RuntimeError (exhausted_message 0)) /\
  config (snd (generate_targets (sample_platform 4 failing_ext []) 1
                 (XTB "/usr/bin/xtb") None [0; 1] [] (start exhausting_config)))
  = exhausting_config /\
  mentions (string_of_Z (0 + 1)) (exhausted_message 0) = true /\
  (forall version c (mols : list string) code,
     fst (generator version (sample_platform 4 failing_ext []) (start c))
     = Ok (Some mols, code) ->
     List.length mols = Z.to_nat (num_molecules (general c))).
Proof.
  apply (exhausted_batch_is_fatal (sample_platform 4 failing_ext []) 1
           (XTB "/usr/bin/xtb") None 0 [1] [] (start exhausting_config)
           [None; None; None]).
  - vm_compute. reflexivity.
  - repeat constructor.
Defined.

Lemma standard_branch_parity_witness :
  snd (set_random_charge (table_of observed_charge) (table_of observed_uhf)
         0 [4; 6; 0]) = 0 /\
  Z.even (fst (set_random_charge (table_of observed_charge) (table_of observed_uhf)
                 0 [4; 6; 0]))
  = Z.even (total_electrons [4; 6; 0]) /\
  Z.even (total_electrons [4; 6; 0]
          - fst (set_random_charge (table_of observed_charge)
                   (table_of observed_uhf) 0 [4; 6; 0])) = true /\
  (if Z.even (total_electrons [4; 6; 0])
   then In (fst (set_random_charge (table_of observed_charge)
                   (table_of observed_uhf) 0 [4; 6; 0])) [-2; 0; 2]
   else In (fst (set_random_charge (table_of observed_charge)
                   (table_of observed_uhf) 0 [4; 6; 0])) [-1; 1]).
Proof.
  apply (standard_branch_parity (table_of observed_charge) (table_of observed_uhf)
           0 [4; 6; 0]).
  - discriminate.
  - repeat constructor.
Defined.




(** C5 as stated fails: in the race both workers find the event unset at
    their last look, both set it, and both return their molecule. *)
Lemma race_has_two_winners :
  results_of (run_pool 2 sample_ext race (map worker_of_task sample_tasks))
  = [Ok (Some "mol0"); Ok (Some "mol1")] /\
  ~ (winners (results_of (run_pool 2 sample_ext race
                            (map worker_of_task sample_tasks))) <= 1)%nat.
Proof.
  split; [vm_compute; reflexivity |].
  vm_compute. intro H. inversion H as [| n H1]. inversion H1.
Qed.

Lemma one_winner_without_overlap_witness :
  fst (run_overtaken 3 staged_ext
         (single_molecule_generator postprocess_config (XTB "/usr/bin/xtb")
            (Some (ORCA "/usr/bin/orca")) 0)
         (mkWorld false [])) = Ok None /\
  fst (run_overtaken 6 staged_ext
         (single_molecule_generator postprocess_config (XTB "/usr/bin/xtb")
            (Some (ORCA "/usr/bin/orca")) 0)
         (mkWorld false [])) = Ok (Some "polished") /\
  fst (run staged_ext
         (single_molecule_generator postprocess_config (XTB "/usr/bin/xtb")
            (Some (ORCA "/usr/bin/orca")) 0)
         (mkWorld false [])) = Ok (Some "polished") /\
  step staged_ext (claim_success 0 "mol") (mkWorld true [])
  = (Return None, mkWorld true ([] ++ [EvIsSet true])) /\
  (winners (results_of (run_pool 1 sample_ext race
                          (map worker_of_task sample_tasks))) <= 1)%nat.
Proof.
  destruct (one_winner_without_overlap 1 sample_ext race sample_tasks
              staged_ext 0 "mol" [] (or_introl eq_refl))
    as (Hworker & Hstopped & _ & _ & Hpool).
  destruct (Hworker postprocess_config (XTB "/usr/bin/xtb")
              (Some (ORCA "/usr/bin/orca")) 0 "raw" "refined" "polished" 3%nat
              eq_refl eq_refl eq_refl) as (Hearly & Halone & _).
  destruct (Hworker postprocess_config (XTB "/usr/bin/xtb")
              (Some (ORCA "/usr/bin/orca")) 0 "raw" "refined" "polished" 6%nat
              eq_refl eq_refl eq_refl) as (Hlate & _ & _).
  split; [exact Hearly |]. split; [exact Hlate |]. split; [exact Halone |].
  split; [exact Hstopped | exact Hpool].
Defined.

Lemma recoverable_failure_returns_none_witness :
  fst (run rejecting_ext
         (single_molecule_generator postprocess_config (XTB "/usr/bin/xtb")
            (Some (ORCA "/usr/bin/orca")) 0)
         (mkWorld false [])) = Ok None /\
  stop_event
    (snd (run rejecting_ext
            (single_molecule_generator postprocess_config (XTB "/usr/bin/xtb")
               (Some (ORCA "/usr/bin/orca")) 0)
            (mkWorld false []))) = false.
Proof.
  apply (recoverable_failure_returns_none rejecting_ext postprocess_config
           (XTB "/usr/bin/xtb") (Some (ORCA "/usr/bin/orca")) 0 (mkWorld false [])).
  right. split; [reflexivity |].
  exists "mol", "optimized", (RuntimeError "postprocessing did not converge").
  repeat split; reflexivity.
Defined.

(** C8 as stated fails: eight cores are asked for where four are available,
    but the run only prints the configuration and raises no warning. *)
Lemma print_config_run_raises_no_warning :
  (parallel (general print_only_config)
   >? cpu_count (sample_platform 4 sample_ext [])) = true /\
  clamp_warnings (run_trace "0.1" (sample_platform 4 sample_ext []) print_only_config)
  = 0%nat.
Proof. split; vm_compute; reflexivity. Qed.

(** C9 as stated fails: with two cores and verbosity 1 the coordinator sets
    the verbosity to 0 before the batch, and that is what the workers get. *)
Lemma workers_see_verbosity_zero :
  worker_configs (run_trace "0.1" (sample_platform 4 sample_ext []) verbose_config)
  = [assign_verbosity verbose_config 0; assign_verbosity verbose_config 0] /\
  assign_verbosity verbose_config 0 <> verbose_config.
Proof. split; [vm_compute; reflexivity | discriminate]. Qed.

Lemma print_config_returns_at_once_witness :
  generator "0.1" (sample_platform 4 sample_ext []) (start print_only_config)
  = (Ok (None, 0),
     mkDriver print_only_config
       ((if verbosity (general print_only_config) >? 0
         then [TPrint (OHeader "0.1")] else [])
        ++ [TPrint (OConfig print_only_config)])) /\
  setups (run_trace "0.1" (sample_platform 4 sample_ext []) print_only_config) = [] /\
  pool_degrees (run_trace "0.1" (sample_platform 4 sample_ext []) print_only_config)
  = [].
Proof.
  apply (print_config_returns_at_once "0.1" (sample_platform 4 sample_ext [])
           print_only_config).
  reflexivity.
Defined.

Lemma worker_success_witness :
  fst (run staged_ext
         (single_molecule_generator postprocess_config (XTB "/usr/bin/xtb")
            (Some (ORCA "/usr/bin/orca")) 0)
         (mkWorld false [])) = Ok (Some "polished") /\
  stop_event
    (snd (run staged_ext
            (single_molecule_generator postprocess_config (XTB "/usr/bin/xtb")
               (Some (ORCA "/usr/bin/orca")) 0)
            (mkWorld false []))) = true.
Proof.
  apply (worker_success staged_ext postprocess_config (XTB "/usr/bin/xtb")
           (Some (ORCA "/usr/bin/orca")) 0 (mkWorld false [])
           "raw" "refined" "polished"); reflexivity.
Defined.

Lemma other_exceptions_escape_witness :
  fst (run stuck_ext
         (single_molecule_generator quiet_config (XTB "/usr/bin/xtb") None 0)
         (mkWorld false [])) = Raised (RuntimeError "no atoms left") /\
  stop_event
    (snd (run stuck_ext
            (single_molecule_generator quiet_config (XTB "/usr/bin/xtb") None 0)
            (mkWorld false []))) = false.
Proof.
  apply (other_exceptions_escape stuck_ext quiet_config (XTB "/usr/bin/xtb")
           None 0 (mkWorld false []) (RuntimeError "no atoms left")).
  - reflexivity.
  - left. reflexivity.
Defined.

Lemma quiet_worker_prints_one_tick_witness :
  printed (log (snd (run (failing_ext 0)
                       (single_molecule_generator quiet_config
                          (XTB "/usr/bin/xtb") None 0)
                       (mkWorld false []))))
  = printed [] ++ (if stop_event (mkWorld false [] : World string unit)
                   then [] else [OInline "✔"]).
Proof.
  apply (quiet_worker_prints_one_tick (failing_ext 0) quiet_config
           (XTB "/usr/bin/xtb") None 0 (mkWorld false [])).
  reflexivity.
Defined.

Lemma failed_refinement_is_reported_witness :
  printed (log (snd (run (failing_ext 0)
                       (single_molecule_generator verbose_config
                          (XTB "/usr/bin/xtb") None 2)
                       (mkWorld false []))))
  = printed []
    ++ [OText ("Cycle " ++ string_of_Z (2 + 1) ++ ":")%string;
        OText ("Refinement failed for cycle " ++ string_of_Z (2 + 1) ++ ".")%string]
    ++ (if verbosity (general verbose_config) >? 1
        then [OException (RuntimeError "not converged")] else []).
Proof.
  apply (failed_refinement_is_reported (failing_ext 0) verbose_config
           (XTB "/usr/bin/xtb") None 2 (mkWorld false []) "mol0"
           (RuntimeError "not converged")); reflexivity.
Defined.

(** A look-up that is refused: the exception is not turned into an
    [ImportError]. *)
Example refused_lookup_passes_through :
  setup_engines "xtb" quiet_config
    (fun _ => Raised (OtherException "PermissionError" "permission denied"))
    (found "/usr/bin/orca")
  = Raised (OtherException "PermissionError" "permission denied").
Proof. reflexivity. Qed.

Lemma engine_failure_is_fatal_witness :
  fst (generator "0.1" (sample_platform 4 sample_ext []) (start unknown_engine_config))
  = Raised (NotImplementedError "Engine not implemented.") /\
  config_after "0.1" (sample_platform 4 sample_ext []) unknown_engine_config
  = unknown_engine_config /\
  pool_tasks (run_trace "0.1" (sample_platform 4 sample_ext []) unknown_engine_config)
  = [] /\
  driver_printed (run_trace "0.1" (sample_platform 4 sample_ext [])
                    unknown_engine_config)
  = (if verbosity (general unknown_engine_config) >? 0
     then [OHeader "0.1"] else []) /\
  setups (run_trace "0.1" (sample_platform 4 sample_ext []) unknown_engine_config)
  = refine_engine (refine unknown_engine_config)
    :: match setup_engines (refine_engine (refine unknown_engine_config))
               unknown_engine_config
               (get_xtb_path (sample_platform 4 sample_ext []))
               (get_orca_path (sample_platform 4 sample_ext [])) with
       | Ok _ => [postprocess_engine (postprocess_cfg unknown_engine_config)]
       | Raised _ => []
       end.
Proof.
  apply (engine_failure_is_fatal "0.1" (sample_platform 4 sample_ext [])
           unknown_engine_config (NotImplementedError "Engine not implemented.")).
  - reflexivity.
  - left. reflexivity.
Defined.

Lemma batches_of_a_run_witness :
  exists re pe n,
    engines_of (sample_platform 4 sample_ext race) quiet_config re pe /\
    pool_tasks (run_trace "0.1" (sample_platform 4 sample_ext race) quiet_config)
    = repeat (batch_tasks quiet_config
                (num_cores (sample_platform 4 sample_ext race) quiet_config) re pe) n /\
    (n <= Z.to_nat (num_molecules (general quiet_config)))%nat /\
    (forall mols code,
       fst (generator "0.1" (sample_platform 4 sample_ext race) (start quiet_config))
       = Ok (Some mols, code) ->
       n = Z.to_nat (num_molecules (general quiet_config))) /\
    map (fun t : Task unit => snd t)
        (batch_tasks quiet_config
           (num_cores (sample_platform 4 sample_ext race) quiet_config) re pe)
    = range (max_cycles (general quiet_config)).
Proof.
  apply (batches_of_a_run "0.1" (sample_platform 4 sample_ext race) quiet_config).
  reflexivity.
Defined.

Lemma no_target_no_pool_witness :
  generator "0.1" (sample_platform 4 sample_ext race) (start idle_config)
  = (Ok (Some [], 0),
     mkDriver idle_config
       (prelude_trace "0.1" (sample_platform 4 sample_ext race) idle_config)) /\
  pool_tasks (run_trace "0.1" (sample_platform 4 sample_ext race) idle_config) = [].
Proof.
  apply (no_target_no_pool "0.1" (sample_platform 4 sample_ext race) idle_config).
  - reflexivity.
  - vm_compute. discriminate.
Defined.

Lemma pool_failure_leaves_verbosity_off_witness :
  fst (generator "0.1" broken_platform (start verbose_config))
  = Raised (OtherException "BrokenProcessPool" "worker died") /\
  config_after "0.1" broken_platform verbose_config
  = assign_verbosity verbose_config 0 /\
  verbosity (general (config_after "0.1" broken_platform verbose_config)) = 0.
Proof.
  apply (pool_failure_leaves_verbosity_off "0.1" broken_platform verbose_config
           (XTB "/usr/bin/xtb") None
           (OtherException "BrokenProcessPool" "worker died")).
  - reflexivity.
  - split; reflexivity.
  - reflexivity.
  - reflexivity.
  - reflexivity.
  - reflexivity.
Defined.

Lemma no_cycle_is_fatal_witness :
  fst (generator "0.1"
         (scheduled_platform 4 (found "/usr/bin/xtb") (found "/usr/bin/orca")
            (fun _ => sample_ext) (fun _ => race))
         (start cycleless_config))
  = Raised (RuntimeError (exhausted_message 0)).
Proof.
  apply (no_cycle_is_fatal "0.1" 4 (found "/usr/bin/xtb") (found "/usr/bin/orca")
           (fun _ => sample_ext) (fun _ => race) cycleless_config).
  - reflexivity.
  - reflexivity.
  - vm_compute. discriminate.
  - vm_compute. discriminate.
  - vm_compute. discriminate.
Defined.

Lemma sample_ext_reliable (j : nat) : reliable (sample_ext j).
Proof. repeat split; intros; eexists; reflexivity. Defined.

Lemma reliable_engines_give_molecules_witness :
  exists mols,
    fst (generator "0.1"
           (scheduled_platform 4 (found "/usr/bin/xtb") (found "/usr/bin/orca")
              (fun _ => sample_ext) (fun _ => race))
           (start quiet_config)) = Ok (Some mols, 0) /\
    List.length mols = Z.to_nat (num_molecules (general quiet_config)).
Proof.
  apply (reliable_engines_give_molecules "0.1" 4 (found "/usr/bin/xtb")
           (found "/usr/bin/orca") (fun _ => sample_ext) (fun _ => race)
           quiet_config).
  - reflexivity.
  - intros k j. apply sample_ext_reliable.
  - vm_compute. discriminate.
  - vm_compute. discriminate.
  - vm_compute. discriminate.
Defined.

Lemma result_of_a_run_witness :
  fst (generator "0.1" (sample_platform 4 sample_ext race) (start quiet_config))
  = match accepted_molecules (sample_platform 4 sample_ext race)
            (num_cores (sample_platform 4 sample_ext race) quiet_config)
            (batch_tasks quiet_config
               (num_cores (sample_platform 4 sample_ext race) quiet_config)
               (XTB "/usr/bin/xtb") None)
            (range (num_molecules (general quiet_config))) with
    | Ok ms => Ok (Some ms, 0)
    | Raised e => Raised e
    end.
Proof.
  apply (result_of_a_run "0.1" (sample_platform 4 sample_ext race) quiet_config
           (XTB "/usr/bin/xtb") None).
  - reflexivity.
  - split; reflexivity.
Defined.

Lemma header_is_a_box_witness :
  List.length (split_lines (header "0.1.dev26+g7432299.d20240810")) = 15%nat /\
  map codepoints (split_lines (header "0.1.dev26+g7432299.d20240810"))
  = repeat 100%nat 9
    ++ [(95 + Nat.min 5 (codepoints "0.1.dev26+g7432299.d20240810"))%nat]
    ++ repeat 100%nat 5 /\
  mentions ("MindlessGen v" ++ take_chars 5 "0.1.dev26+g7432299.d20240810")
           (nth 9 (split_lines (header "0.1.dev26+g7432299.d20240810")) EmptyString)
  = true.
Proof.
  apply (header_is_a_box "0.1.dev26+g7432299.d20240810").
  reflexivity.
Defined.

(** A version with a line break among its first five characters gives a
    banner of sixteen lines. *)
Example broken_version_breaks_the_box :
  List.length (split_lines (header ("0" ++ nl ++ "1"))) = 16%nat.
Proof. vm_compute. reflexivity. Qed.
